(** * TEI transfer plugin: the transfer orchestration of [TransferModal.tsx]

    A shallow embedding of the component's logic:
    - the pure helpers [getValidationMessage] and [isUnknownParamError];
    - the derived values [destinationOuId], [isSameOrgUnit],
      [isTransferEnabled] of one render;
    - [handleTransfer], written in a small monad of asynchronous programs
      ([Async]) whose engine calls are interpreted against an arbitrary
      data engine;
    - the debounced org unit search, as an event-driven machine over the
      React state, the debounce timer and the per-request liveness flags.

    Strings are sequences of code units below 256 (the Latin-1 range);
    [trim] and [toLowerCase] follow ECMAScript on that range.  Values coming
    from the engine are modelled at their declared TypeScript types. *)

From Stdlib Require Import Bool List String Ascii NArith ZArith Lia.
Import ListNotations.
Open Scope string_scope.

(* ================================================================= *)
(** ** JavaScript strings *)

Module Js.

(** [Boolean(s)] for a string: the empty string is the only falsy one. *)
Definition truthy (s : string) : bool :=
  match s with
  | EmptyString => false
  | String _ _ => true
  end.

(** [Boolean(x)] for [string | null | undefined]. *)
Definition truthy_opt (o : option string) : bool :=
  match o with
  | Some s => truthy s
  | None => false
  end.

(** WhiteSpace and LineTerminator code units below 256:
    TAB, LF, VT, FF, CR, SP and NBSP. *)
Definition isWhiteSpace (c : ascii) : bool :=
  let n := N_of_ascii c in
  ((9 <=? n) && (n <=? 13) || (n =? 32) || (n =? 160))%N.

Fixpoint trimStart (s : string) : string :=
  match s with
  | EmptyString => EmptyString
  | String c rest => if isWhiteSpace c then trimStart rest else s
  end.

Fixpoint trimEnd (s : string) : string :=
  match s with
  | EmptyString => EmptyString
  | String c rest =>
      match trimEnd rest with
      | EmptyString => if isWhiteSpace c then EmptyString else String c EmptyString
      | kept => String c kept
      end
  end.

(** [String.prototype.trim]. *)
Definition trim (s : string) : string := trimEnd (trimStart s).

(** Lower-case mapping of one code unit: A-Z and the Latin-1 capitals
    U+00C0..U+00DE (the multiplication sign U+00D7 apart) move up by 32. *)
Definition lowerChar (c : ascii) : ascii :=
  let n := N_of_ascii c in
  if ((65 <=? n) && (n <=? 90))%N then ascii_of_N (n + 32)
  else if ((192 <=? n) && (n <=? 222) && negb (n =? 215))%N then ascii_of_N (n + 32)
  else c.

(** [String.prototype.toLowerCase]. *)
Fixpoint toLowerCase (s : string) : string :=
  match s with
  | EmptyString => EmptyString
  | String c rest => String (lowerChar c) (toLowerCase rest)
  end.

(** [s.startsWith(p)]. *)
Fixpoint startsWith (s p : string) : bool :=
  match p, s with
  | EmptyString, _ => true
  | String _ _, EmptyString => false
  | String a p', String b s' => Ascii.eqb a b && startsWith s' p'
  end.

(** [String.prototype.includes]: [sub] occurs in [s] at some position. *)
Fixpoint includes (s sub : string) : bool :=
  startsWith s sub ||
  match s with
  | EmptyString => false
  | String _ rest => includes rest sub
  end.

(** [a === b] on strings. *)
Definition seq (a b : string) : bool := String.eqb a b.

End Js.

(* ================================================================= *)
(** ** Data model *)

Record OrgUnit := {
  ou_id : string;
  ou_displayName : string;
  ou_path : option string
}.

Record Event := {
  ev_event : string;
  ev_program : option string;
  ev_programStage : option string;
  ev_orgUnit : option string;
  ev_status : option string;
  ev_occurredAt : option string;
  ev_scheduledAt : option string
}.

Record Enrollment := {
  en_enrollment : string;
  en_program : string;
  en_orgUnit : option string;
  en_status : option string;
  en_occurredAt : option string;
  en_enrolledAt : option string;
  en_events : option (list Event)
}.

Record TrackedEntity := {
  te_trackedEntity : string;
  te_trackedEntityType : option string;
  te_orgUnit : option string;
  te_enrollments : option (list Enrollment)
}.

Definition trackerFields : string :=
  "trackedEntityType,orgUnit,enrollments[enrollment,program,orgUnit,status,occurredAt,enrolledAt,events[event,program,programStage,orgUnit,status,occurredAt,scheduledAt]]".

Definition UPDATE_ENROLLMENT_ORGUNIT : bool := false.
Definition MIN_SEARCH_LENGTH : nat := 2.
Definition SEARCH_DEBOUNCE_MS : nat := 300.

(* ================================================================= *)
(** ** Thrown values *)

(** What a [catch] clause can receive.  [error.details.response] carries the
    HTTP status and the server's body. *)
Record ResponseData := { rd_message : option string }.
Record HttpResponse := { rs_status : option Z; rs_data : option ResponseData }.
Record ErrorDetails := { dt_response : option HttpResponse }.

Inductive JsError :=
| NotAnObject
    (* null, undefined or a primitive: [!error || typeof error !== 'object'] *)
| ErrorObject (message : option string) (details : option ErrorDetails).

(** [error?.details?.response]. *)
Definition error_response (error : JsError) : option HttpResponse :=
  match error with
  | NotAnObject => None
  | ErrorObject _ None => None
  | ErrorObject _ (Some d) => dt_response d
  end.

(** [error?.details?.response?.status]. *)
Definition error_status (error : JsError) : option Z :=
  match error_response error with
  | Some r => rs_status r
  | None => None
  end.

(** [error.details?.response?.data?.message]. *)
Definition error_responseMessage (error : JsError) : option string :=
  match error_response error with
  | Some r =>
      match rs_data r with
      | Some d => rd_message d
      | None => None
      end
  | None => None
  end.

Definition error_message (error : JsError) : option string :=
  match error with
  | NotAnObject => None
  | ErrorObject m _ => m
  end.

(** [o] read where the code has already tested it truthy. *)
Definition valueOf (o : option string) : string :=
  match o with
  | Some s => s
  | None => ""
  end.

Definition getValidationMessage (error : JsError) : string :=
  match error with
  | NotAnObject => "Transfer failed."
  | ErrorObject _ _ =>
      let message := error_message error in
      let responseMessage := error_responseMessage error in
      if Js.truthy_opt responseMessage then valueOf responseMessage
      else if Js.truthy_opt message then valueOf message
      else "Transfer failed."
  end.

(** [!status || status < 400 || status >= 500]. *)
Definition statusRejected (status : option Z) : bool :=
  match status with
  | None => true
  | Some n => (n =? 0)%Z || (n <? 400)%Z || (500 <=? n)%Z
  end.

Definition isUnknownParamError (error : JsError) (paramName : string) : bool :=
  if statusRejected (error_status error) then false
  else
    let message := Js.toLowerCase (getValidationMessage error) in
    Js.includes message "unknown parameter" ||
    (Js.includes message "parameter" &&
     Js.includes message (Js.toLowerCase paramName)).

(* ================================================================= *)
(** ** Session state *)

(** The props [initialTeiId] and [programId] (defaulting to the empty
    string) and every [useState] cell of the component, the one inside
    [useDebouncedValue] included. *)
Record Session := {
  teiId : string;
  programId : string;
  selectedPaths : list string;
  selectedOuId : option string;
  selectedOu : option OrgUnit;
  currentOuId : string;
  currentOuName : option string;
  errorMessage : option string;
  statusMessage : option string;
  treeError : option string;
  isSubmitting : bool;
  searchText : string;
  searchResults : list OrgUnit;
  searchError : option string;
  isSearching : bool;
  debouncedSearchText : string
}.

Definition setSelectedPaths (v : list string) (s : Session) : Session :=
  {| teiId := teiId s; programId := programId s; selectedPaths := v;
     selectedOuId := selectedOuId s; selectedOu := selectedOu s;
     currentOuId := currentOuId s; currentOuName := currentOuName s;
     errorMessage := errorMessage s; statusMessage := statusMessage s;
     treeError := treeError s; isSubmitting := isSubmitting s;
     searchText := searchText s; searchResults := searchResults s;
     searchError := searchError s; isSearching := isSearching s;
     debouncedSearchText := debouncedSearchText s |}.

Definition setSelectedOuId (v : option string) (s : Session) : Session :=
  {| teiId := teiId s; programId := programId s; selectedPaths := selectedPaths s;
     selectedOuId := v; selectedOu := selectedOu s;
     currentOuId := currentOuId s; currentOuName := currentOuName s;
     errorMessage := errorMessage s; statusMessage := statusMessage s;
     treeError := treeError s; isSubmitting := isSubmitting s;
     searchText := searchText s; searchResults := searchResults s;
     searchError := searchError s; isSearching := isSearching s;
     debouncedSearchText := debouncedSearchText s |}.

Definition setErrorMessage (v : option string) (s : Session) : Session :=
  {| teiId := teiId s; programId := programId s; selectedPaths := selectedPaths s;
     selectedOuId := selectedOuId s; selectedOu := selectedOu s;
     currentOuId := currentOuId s; currentOuName := currentOuName s;
     errorMessage := v; statusMessage := statusMessage s;
     treeError := treeError s; isSubmitting := isSubmitting s;
     searchText := searchText s; searchResults := searchResults s;
     searchError := searchError s; isSearching := isSearching s;
     debouncedSearchText := debouncedSearchText s |}.

Definition setStatusMessage (v : option string) (s : Session) : Session :=
  {| teiId := teiId s; programId := programId s; selectedPaths := selectedPaths s;
     selectedOuId := selectedOuId s; selectedOu := selectedOu s;
     currentOuId := currentOuId s; currentOuName := currentOuName s;
     errorMessage := errorMessage s; statusMessage := v;
     treeError := treeError s; isSubmitting := isSubmitting s;
     searchText := searchText s; searchResults := searchResults s;
     searchError := searchError s; isSearching := isSearching s;
     debouncedSearchText := debouncedSearchText s |}.

Definition setIsSubmitting (v : bool) (s : Session) : Session :=
  {| teiId := teiId s; programId := programId s; selectedPaths := selectedPaths s;
     selectedOuId := selectedOuId s; selectedOu := selectedOu s;
     currentOuId := currentOuId s; currentOuName := currentOuName s;
     errorMessage := errorMessage s; statusMessage := statusMessage s;
     treeError := treeError s; isSubmitting := v;
     searchText := searchText s; searchResults := searchResults s;
     searchError := searchError s; isSearching := isSearching s;
     debouncedSearchText := debouncedSearchText s |}.

Definition setSearchText (v : string) (s : Session) : Session :=
  {| teiId := teiId s; programId := programId s; selectedPaths := selectedPaths s;
     selectedOuId := selectedOuId s; selectedOu := selectedOu s;
     currentOuId := currentOuId s; currentOuName := currentOuName s;
     errorMessage := errorMessage s; statusMessage := statusMessage s;
     treeError := treeError s; isSubmitting := isSubmitting s;
     searchText := v; searchResults := searchResults s;
     searchError := searchError s; isSearching := isSearching s;
     debouncedSearchText := debouncedSearchText s |}.

Definition setSearchResults (v : list OrgUnit) (s : Session) : Session :=
  {| teiId := teiId s; programId := programId s; selectedPaths := selectedPaths s;
     selectedOuId := selectedOuId s; selectedOu := selectedOu s;
     currentOuId := currentOuId s; currentOuName := currentOuName s;
     errorMessage := errorMessage s; statusMessage := statusMessage s;
     treeError := treeError s; isSubmitting := isSubmitting s;
     searchText := searchText s; searchResults := v;
     searchError := searchError s; isSearching := isSearching s;
     debouncedSearchText := debouncedSearchText s |}.

Definition setSearchError (v : option string) (s : Session) : Session :=
  {| teiId := teiId s; programId := programId s; selectedPaths := selectedPaths s;
     selectedOuId := selectedOuId s; selectedOu := selectedOu s;
     currentOuId := currentOuId s; currentOuName := currentOuName s;
     errorMessage := errorMessage s; statusMessage := statusMessage s;
     treeError := treeError s; isSubmitting := isSubmitting s;
     searchText := searchText s; searchResults := searchResults s;
     searchError := v; isSearching := isSearching s;
     debouncedSearchText := debouncedSearchText s |}.

Definition setIsSearching (v : bool) (s : Session) : Session :=
  {| teiId := teiId s; programId := programId s; selectedPaths := selectedPaths s;
     selectedOuId := selectedOuId s; selectedOu := selectedOu s;
     currentOuId := currentOuId s; currentOuName := currentOuName s;
     errorMessage := errorMessage s; statusMessage := statusMessage s;
     treeError := treeError s; isSubmitting := isSubmitting s;
     searchText := searchText s; searchResults := searchResults s;
     searchError := searchError s; isSearching := v;
     debouncedSearchText := debouncedSearchText s |}.

Definition setDebouncedValue (v : string) (s : Session) : Session :=
  {| teiId := teiId s; programId := programId s; selectedPaths := selectedPaths s;
     selectedOuId := selectedOuId s; selectedOu := selectedOu s;
     currentOuId := currentOuId s; currentOuName := currentOuName s;
     errorMessage := errorMessage s; statusMessage := statusMessage s;
     treeError := treeError s; isSubmitting := isSubmitting s;
     searchText := searchText s; searchResults := searchResults s;
     searchError := searchError s; isSearching := isSearching s;
     debouncedSearchText := v |}.

(** The session right after mount, from the host-supplied context. *)
Definition initialSession (initialTeiId programId currentOrgUnitId : string) : Session :=
  {| teiId := initialTeiId; programId := programId; selectedPaths := [];
     selectedOuId := None; selectedOu := None;
     currentOuId := currentOrgUnitId; currentOuName := None;
     errorMessage := None; statusMessage := None;
     treeError := None; isSubmitting := false;
     searchText := ""; searchResults := [];
     searchError := None; isSearching := false;
     debouncedSearchText := "" |}.

(* ================================================================= *)
(** ** Transfer validator: the derived values of one render *)

(** [selectedOuId?.trim() ?? ''] *)
Definition destinationOuId (s : Session) : string :=
  match selectedOuId s with
  | Some v => Js.trim v
  | None => ""
  end.

Definition isSameOrgUnit (s : Session) : bool :=
  Js.truthy (currentOuId s) && Js.truthy (destinationOuId s) &&
  Js.seq (currentOuId s) (destinationOuId s).

Definition isTransferEnabled (s : Session) : bool :=
  Js.truthy (teiId s) && Js.truthy (programId s) &&
  Js.truthy (destinationOuId s) && negb (isSameOrgUnit s) &&
  negb (isSubmitting s).

(** The search-result button's [onClick]. *)
Definition pickSearchResult (orgUnit : OrgUnit) (s : Session) : Session :=
  setSearchResults []
    (setSearchText (ou_displayName orgUnit)
       (setSelectedPaths [ou_id orgUnit]
          (setSelectedOuId (Some (ou_id orgUnit)) s))).

(** [selected.filter(Boolean).slice(-1)] *)
Definition lastTruthy (selected : list string) : list string :=
  match rev (filter Js.truthy selected) with
  | [] => []
  | x :: _ => [x]
  end.

(** The tree's [onChange]. *)
Definition treeChange (selected : list string) (id : string) (s : Session) : Session :=
  setSelectedOuId (Some id) (setSelectedPaths (lastTruthy selected) s).

(* ================================================================= *)
(** ** The data engine's requests *)

Inductive ParamValue :=
| PString (s : string)
| PBool (b : bool)
| PNumber (n : Z).

(** A [params] object literal, keys in source order. *)
Definition Params := list (string * ParamValue).

Fixpoint param (key : string) (ps : Params) : option ParamValue :=
  match ps with
  | [] => None
  | (k, v) :: rest => if String.eqb k key then Some v else param key rest
  end.

Inductive MutationType := create | update.

Record OwnershipPayload := {
  op_trackedEntity : string;
  op_program : string;
  op_orgUnit : string
}.

Record EnrollmentPayload := {
  np_enrollment : string;
  np_program : string;
  np_trackedEntity : string;
  np_orgUnit : string
}.

Record EventPayload := {
  ep_event : string;
  ep_program : option string;
  ep_programStage : option string;
  ep_enrollment : string;
  ep_orgUnit : string;
  ep_status : option string;
  ep_occurredAt : option string;
  ep_scheduledAt : option string
}.

(** The [data] of a mutation. *)
Inductive MutationData :=
| OwnershipData (body : OwnershipPayload)
| EnrollmentsData (enrollments : list EnrollmentPayload)
| EventsData (events : list EventPayload).

Record Mutation := {
  mu_resource : string;
  mu_type : MutationType;
  mu_params : Params;
  mu_data : MutationData
}.

Record Query := {
  qu_resource : string;
  qu_params : Params
}.

(** An engine call, indexed by what it resolves to: [engine.mutate]'s value
    is never read, the case query resolves to the [tei] of its result. *)
Inductive Call : Type -> Type :=
| Mutate (m : Mutation) : Call unit
| QueryTei (q : Query) : Call TrackedEntity.

Inductive Request :=
| ReqMutate (m : Mutation)
| ReqQuery (q : Query).

Definition request_of {R : Type} (c : Call R) : Request :=
  match c with
  | Mutate m => ReqMutate m
  | QueryTei q => ReqQuery q
  end.

(* ================================================================= *)
(** ** Asynchronous programs *)

(** An [async] function body: it returns, throws, calls a state setter, or
    awaits an engine call and goes on with its settlement (rejection or
    value). *)
Inductive Async (A : Type) : Type :=
| Done (a : A)
| Raise (e : JsError)
| Update (f : Session -> Session) (k : Async A)
| Await (R : Type) (c : Call R) (k : JsError + R -> Async A).

Arguments Done {A} a.
Arguments Raise {A} e.
Arguments Update {A} f k.
Arguments Await {A R} c k.

Fixpoint bind {A B : Type} (p : Async A) (q : A -> Async B) : Async B :=
  match p with
  | Done a => q a
  | Raise e => Raise e
  | Update f k => Update f (bind k q)
  | Await c k => Await c (fun r => bind (k r) q)
  end.

(** [try { p } catch (error) { handler error }] *)
Fixpoint tryCatch {A : Type} (p : Async A) (handler : JsError -> Async A) : Async A :=
  match p with
  | Done a => Done a
  | Raise e => handler e
  | Update f k => Update f (tryCatch k handler)
  | Await c k => Await c (fun r => tryCatch (k r) handler)
  end.

(** [try { p } finally { cleanup }], for a [cleanup] that only sets state. *)
Fixpoint tryFinally {A : Type} (p : Async A) (cleanup : Session -> Session) : Async A :=
  match p with
  | Done a => Update cleanup (Done a)
  | Raise e => Update cleanup (Raise e)
  | Update f k => Update f (tryFinally k cleanup)
  | Await c k => Await c (fun r => tryFinally (k r) cleanup)
  end.

(** [await engine.call(...)]: a rejection is thrown at the [await]. *)
Definition await {R : Type} (c : Call R) : Async R :=
  Await c (fun r => match r with
                    | inl e => Raise e
                    | inr v => Done v
                    end).

(** A state setter. *)
Definition setState (f : Session -> Session) : Async unit := Update f (Done tt).

Declare Scope async_scope.
Delimit Scope async_scope with async.
Notation "x <- p ;; q" := (bind p (fun x => q))
  (at level 61, p at next level, right associativity) : async_scope.
Notation "p ;; q" := (bind p (fun _ => q))
  (at level 61, right associativity) : async_scope.
Open Scope async_scope.

(* ================================================================= *)
(** ** Transfer executor *)

Inductive ParamName := trackedEntity | trackedEntityInstance.

Definition paramName_string (p : ParamName) : string :=
  match p with
  | trackedEntity => "trackedEntity"
  | trackedEntityInstance => "trackedEntityInstance"
  end.

(** The request of [attemptTransfer(paramName)], for the [teiId],
    [programId] and [destinationOuId] of the render that was clicked. *)
Definition transferMutation (teiId programId destinationOuId : string)
    (paramName : ParamName) : Mutation :=
  {| mu_resource := "tracker/ownership/transfer";
     mu_type := update;
     mu_params := [ (paramName_string paramName, PString teiId);
                    ("program", PString programId);
                    ("ou", PString destinationOuId) ];
     mu_data := OwnershipData {| op_trackedEntity := teiId;
                                 op_program := programId;
                                 op_orgUnit := destinationOuId |} |}.

Definition attemptTransfer (teiId programId destinationOuId : string)
    (paramName : ParamName) : Async unit :=
  await (Mutate (transferMutation teiId programId destinationOuId paramName)).

(** [(enrollment) => enrollment.program === programId] under [find]. *)
Definition findEnrollment (programId : string) (tei : TrackedEntity) : option Enrollment :=
  match te_enrollments tei with
  | Some enrollments =>
      find (fun enrollment => Js.seq (en_program enrollment) programId) enrollments
  | None => None
  end.

Definition caseQuery (teiId : string) : Query :=
  {| qu_resource := "tracker/trackedEntities/" ++ teiId;
     qu_params := [ ("fields", PString trackerFields) ] |}.

Definition importParams : Params :=
  [ ("async", PBool false); ("importStrategy", PString "UPDATE") ].

Definition enrollmentMutation (teiId programId destinationOuId : string)
    (tei : TrackedEntity) (enrollmentToUpdate : Enrollment) : Mutation :=
  {| mu_resource := "tracker";
     mu_type := create;
     mu_params := importParams;
     mu_data := EnrollmentsData
       [ {| np_enrollment := en_enrollment enrollmentToUpdate;
            np_program := programId;
            np_trackedEntity :=
              if Js.truthy (te_trackedEntity tei) then te_trackedEntity tei else teiId;
            np_orgUnit := destinationOuId |} ] |}.

Definition eventPayload (destinationOuId : string) (enrollmentToUpdate : Enrollment)
    (event : Event) : EventPayload :=
  {| ep_event := ev_event event;
     ep_program := ev_program event;
     ep_programStage := ev_programStage event;
     ep_enrollment := en_enrollment enrollmentToUpdate;
     ep_orgUnit := destinationOuId;
     ep_status := ev_status event;
     ep_occurredAt := ev_occurredAt event;
     ep_scheduledAt := ev_scheduledAt event |}.

(** [enrollmentToUpdate?.events?.map(...) ?? []] *)
Definition eventsToUpdate (destinationOuId : string)
    (enrollmentToUpdate : option Enrollment) : list EventPayload :=
  match enrollmentToUpdate with
  | Some enrollment =>
      match en_events enrollment with
      | Some events => map (eventPayload destinationOuId enrollment) events
      | None => []
      end
  | None => []
  end.

Definition eventsMutation (events : list EventPayload) : Mutation :=
  {| mu_resource := "tracker";
     mu_type := create;
     mu_params := importParams;
     mu_data := EventsData events |}.

(** The guard at the head of [handleTransfer]:
    [!teiId || !programId || !destinationOuId || isSameOrgUnit]. *)
Definition transferBlocked (s : Session) : bool :=
  negb (Js.truthy (teiId s)) || negb (Js.truthy (programId s)) ||
  negb (Js.truthy (destinationOuId s)) || isSameOrgUnit s.

(** [handleTransfer] of the render showing session [s], with the
    enrollment cascade switch as an argument. *)
Definition handleTransferWith (cascadeEnrollment : bool) (s : Session) : Async unit :=
  let teiId := teiId s in
  let programId := programId s in
  let destinationOuId := destinationOuId s in
  if transferBlocked s then Done tt
  else
    setState (setIsSubmitting true) ;;
    setState (setStatusMessage None) ;;
    setState (setErrorMessage None) ;;
    tryFinally
      (tryCatch
         (tryCatch
            (attemptTransfer teiId programId destinationOuId trackedEntity)
            (fun error =>
               if isUnknownParamError error "trackedEntity"
               then attemptTransfer teiId programId destinationOuId trackedEntityInstance
               else Raise error) ;;
          tei <- await (QueryTei (caseQuery teiId)) ;;
          let enrollmentToUpdate := findEnrollment programId tei in
          (match enrollmentToUpdate with
           | Some enrollment =>
               if cascadeEnrollment && Js.truthy (en_enrollment enrollment)
               then await (Mutate (enrollmentMutation teiId programId destinationOuId
                                     tei enrollment))
               else Done tt
           | None => Done tt
           end) ;;
          let eventsToUpdate := eventsToUpdate destinationOuId enrollmentToUpdate in
          (if (0 <? List.length eventsToUpdate)%nat
           then await (Mutate (eventsMutation eventsToUpdate))
           else Done tt) ;;
          setState (setStatusMessage (Some "Transfer completed.")))
         (fun error =>
            let message := getValidationMessage error in
            setState (setErrorMessage (Some message))))
      (setIsSubmitting false).

Definition handleTransfer (s : Session) : Async unit :=
  handleTransferWith UPDATE_ENROLLMENT_ORGUNIT s.

(** The Transfer button: [onClick={handleTransfer}] under
    [disabled={!isTransferEnabled}]; a disabled button dispatches no click. *)
Definition transferButton (s : Session) : Async unit :=
  if isTransferEnabled s then handleTransfer s else Done tt.

(* ================================================================= *)
(** ** Running a program against an engine *)

(** One engine call as it was issued: the request, its rejection if it was
    rejected, the case record if it resolved to one, and the session state
    while it was in flight. *)
Record LogEntry := {
  le_request : Request;
  le_failure : option JsError;
  le_fetched : option TrackedEntity;
  le_session : Session
}.

Definition failure_of {R : Type} (r : JsError + R) : option JsError :=
  match r with
  | inl e => Some e
  | inr _ => None
  end.

Definition fetched_of {R : Type} (c : Call R) : JsError + R -> option TrackedEntity :=
  match c in Call R return JsError + R -> option TrackedEntity with
  | Mutate _ => fun _ => None
  | QueryTei _ => fun r => match r with
                           | inl _ => None
                           | inr tei => Some tei
                           end
  end.

Record Outcome (A : Type) := {
  out_result : JsError + A;
  out_session : Session;
  out_log : list LogEntry
}.

Arguments out_result {A} o.
Arguments out_session {A} o.
Arguments out_log {A} o.

Section Engine.

(** The engine: any deterministic responder with a state of its own
    (the server, the network).  [run] takes a program from its first step
    to its settlement, with no other handler of the component running in
    between, and logs the engine calls in order. *)
Variable World : Type.
Variable engine : forall R : Type, Call R -> World -> (JsError + R) * World.

Fixpoint run {A : Type} (p : Async A) (s : Session) (w : World) : Outcome A * World :=
  match p with
  | Done a => ({| out_result := inr a; out_session := s; out_log := [] |}, w)
  | Raise e => ({| out_result := inl e; out_session := s; out_log := [] |}, w)
  | Update f k => run k (f s) w
  | Await c k =>
      let (r, w1) := engine _ c w in
      let (o, w2) := run (k r) s w1 in
      ({| out_result := out_result o;
          out_session := out_session o;
          out_log := {| le_request := request_of c;
                        le_failure := failure_of r;
                        le_fetched := fetched_of c r;
                        le_session := s |} :: out_log o |}, w2)
  end.

End Engine.

(* ================================================================= *)
(** ** Debounced org unit search *)

(** One run of [loadSearchResults]: the request it sent, the debounced text
    that owned the effect run, the [isActive] variable of that run's closure
    and whether the promise is still unsettled. *)
Record SearchRequest := {
  sr_id : nat;
  sr_owner : string;
  sr_filter : string;
  sr_isActive : bool;
  sr_pending : bool
}.

Definition searchQuery (trimmed : string) : Query :=
  {| qu_resource := "organisationUnits";
     qu_params := [ ("filter", PString ("displayName:ilike:" ++ trimmed));
                    ("fields", PString "id,displayName");
                    ("paging", PBool true);
                    ("pageSize", PNumber 15) ] |}.

Definition sr_query (r : SearchRequest) : Query := searchQuery (sr_filter r).

(** The mounted component: its React state, the pending timeout of
    [useDebouncedValue] with the value it captured, every search request
    issued so far (newest first), and the cleanup the search effect last
    returned, named by the request whose [isActive] it clears. *)
Record Page := {
  session : Session;
  mounted : bool;
  timer : option string;
  requests : list SearchRequest;
  cleanup : option nat
}.

Definition withSession (f : Session -> Session) (p : Page) : Page :=
  {| session := f (session p); mounted := mounted p; timer := timer p;
     requests := requests p; cleanup := cleanup p |}.

(** [isActive = false] in the closure of request [id]. *)
Definition deactivate (id : nat) (rs : list SearchRequest) : list SearchRequest :=
  map (fun r =>
         if Nat.eqb (sr_id r) id
         then {| sr_id := sr_id r; sr_owner := sr_owner r; sr_filter := sr_filter r;
                 sr_isActive := false; sr_pending := sr_pending r |}
         else r) rs.

(** The promise of request [id] has settled. *)
Definition settled (id : nat) (rs : list SearchRequest) : list SearchRequest :=
  map (fun r =>
         if Nat.eqb (sr_id r) id
         then {| sr_id := sr_id r; sr_owner := sr_owner r; sr_filter := sr_filter r;
                 sr_isActive := sr_isActive r; sr_pending := false |}
         else r) rs.

Definition lookup (id : nat) (rs : list SearchRequest) : option SearchRequest :=
  find (fun r => Nat.eqb (sr_id r) id) rs.

(** The search effect's cleanup, run before the effect runs again and on
    unmount. *)
Definition searchCleanup (p : Page) : Page :=
  match cleanup p with
  | Some id =>
      {| session := session p; mounted := mounted p; timer := timer p;
         requests := deactivate id (requests p); cleanup := None |}
  | None => p
  end.

(** The search effect's body, up to the call of [loadSearchResults]. *)
Definition searchEffect (p : Page) : Page :=
  let trimmed := Js.trim (debouncedSearchText (session p)) in
  if (String.length trimmed <? MIN_SEARCH_LENGTH)%nat then
    {| session := setIsSearching false
                    (setSearchError None (setSearchResults [] (session p)));
       mounted := mounted p; timer := timer p;
       requests := requests p; cleanup := None |}
  else
    let id := List.length (requests p) in
    {| session := setSearchError None (setIsSearching true (session p));
       mounted := mounted p; timer := timer p;
       requests := {| sr_id := id;
                      sr_owner := debouncedSearchText (session p);
                      sr_filter := trimmed;
                      sr_isActive := true;
                      sr_pending := true |} :: requests p;
       cleanup := Some id |}.

Inductive SearchResponse :=
| Resolved (organisationUnits : option (list OrgUnit))
    (* [orgUnits?.organisationUnits], [Some] when it is an array *)
| Rejected (error : JsError).

(** [loadSearchResults] from its [await] on, for the closure whose
    [isActive] now reads [isActive]. *)
Definition loadSearchResults_resume (isActive : bool) (resp : SearchResponse)
    (s : Session) : Session :=
  let s1 :=
    match resp with
    | Resolved results =>
        if negb isActive then s
        else match results with
             | Some orgUnits => setSearchResults orgUnits s
             | None => setSearchResults [] s
             end
    | Rejected _ =>
        if negb isActive then s
        else setSearchResults [] (setSearchError (Some "Failed to search org units.") s)
    end in
  if isActive then setIsSearching false s1 else s1.

(** [useDebouncedValue]'s effect after a render in which [searchText] went
    from [before] to its present value: on a change the old timeout is
    cleared and a new one captures the new value. *)
Definition debounceEffect (before : string) (p : Page) : Page :=
  if String.eqb before (searchText (session p)) then p
  else {| session := session p; mounted := mounted p;
          timer := Some (searchText (session p));
          requests := requests p; cleanup := cleanup p |}.

Inductive UiEvent :=
| TypeSearch (value : string)
| DebounceFires
| PickResult (orgUnit : OrgUnit)
| TreeChange (selected : list string) (id : string)
| ManualEntry (value : string)
| SearchSettles (id : nat) (resp : SearchResponse)
| Unmount.

Definition step (p : Page) (ev : UiEvent) : Page :=
  match ev with
  | SearchSettles id resp =>
      match lookup id (requests p) with
      | Some r =>
          if sr_pending r then
            {| session := loadSearchResults_resume (sr_isActive r) resp (session p);
               mounted := mounted p; timer := timer p;
               requests := settled id (requests p); cleanup := cleanup p |}
          else p
      | None => p
      end
  | _ =>
      if negb (mounted p) then p
      else
        match ev with
        | TypeSearch value =>
            debounceEffect (searchText (session p)) (withSession (setSearchText value) p)
        | DebounceFires =>
            match timer p with
            | Some value =>
                let p1 := {| session := session p; mounted := mounted p; timer := None;
                             requests := requests p; cleanup := cleanup p |} in
                if String.eqb value (debouncedSearchText (session p)) then p1
                else searchEffect (searchCleanup (withSession (setDebouncedValue value) p1))
            | None => p
            end
        | PickResult orgUnit =>
            debounceEffect (searchText (session p)) (withSession (pickSearchResult orgUnit) p)
        | TreeChange selected id => withSession (treeChange selected id) p
        | ManualEntry value => withSession (setSelectedOuId (Some value)) p
        | SearchSettles _ _ => p
        | Unmount =>
            let p1 := searchCleanup p in
            {| session := session p1; mounted := false; timer := None;
               requests := requests p1; cleanup := None |}
        end
  end.

(** The page after mount: both effects have run once on the empty text. *)
Definition mount (initialTeiId programId currentOrgUnitId : string) : Page :=
  searchEffect
    {| session := initialSession initialTeiId programId currentOrgUnitId;
       mounted := true; timer := Some ""; requests := []; cleanup := None |}.

Definition runEvents (p : Page) (evs : list UiEvent) : Page := fold_left step evs p.

(** Request ids count up from 0, newest first. *)
Fixpoint numbered (rs : list SearchRequest) : Prop :=
  match rs with
  | [] => True
  | r :: rest => sr_id r = List.length rest /\ numbered rest
  end.

Definition noneActive (rs : list SearchRequest) : Prop :=
  forall r, In r rs -> sr_isActive r = false.

(** A closure whose [isActive] still holds belongs to a mounted page, is the
    one the registered cleanup will clear, was started for the debounced
    text on screen, and is the newest request. *)
Definition liveOnly (p : Page) : Prop :=
  forall r, In r (requests p) -> sr_isActive r = true ->
    mounted p = true /\
    cleanup p = Some (sr_id r) /\
    sr_owner r = debouncedSearchText (session p) /\
    sr_filter r = Js.trim (sr_owner r) /\
    hd_error (requests p) = Some r.

Definition searchInvariant (p : Page) : Prop :=
  numbered (requests p) /\ liveOnly p.

(** What a search response may write. *)
Definition searchState (s : Session) : list OrgUnit * option string * bool :=
  (searchResults s, searchError s, isSearching s).

(* ================================================================= *)
(** ** The exit paths of [handleTransfer] *)

(** The session while the transfer is in flight, and the two terminal
    sessions. *)
Definition inFlight (s : Session) : Session :=
  setErrorMessage None (setStatusMessage None (setIsSubmitting true s)).

Definition completed (s : Session) : Session :=
  setIsSubmitting false (setStatusMessage (Some "Transfer completed.") (inFlight s)).

Definition failedWith (e : JsError) (s : Session) : Session :=
  setIsSubmitting false (setErrorMessage (Some (getValidationMessage e)) (inFlight s)).

Definition issued (s : Session) (request : Request) (failure : option JsError) : LogEntry :=
  {| le_request := request; le_failure := failure; le_fetched := None;
     le_session := inFlight s |}.

Definition transferRequest (s : Session) (v : ParamName) : Request :=
  ReqMutate (transferMutation (teiId s) (programId s) (destinationOuId s) v).

Definition caseRequest (s : Session) : Request := ReqQuery (caseQuery (teiId s)).

(** The re-fetch that resolved to [tei]. *)
Definition fetched (s : Session) (tei : TrackedEntity) : LogEntry :=
  {| le_request := caseRequest s; le_failure := None; le_fetched := Some tei;
     le_session := inFlight s |}.

Definition eventsOf (s : Session) (tei : TrackedEntity) : list EventPayload :=
  eventsToUpdate (destinationOuId s) (findEnrollment (programId s) tei).

Definition eventsRequest (s : Session) (tei : TrackedEntity) : Request :=
  ReqMutate (eventsMutation (eventsOf s tei)).

(** The enrollment import of a run, when the switch is on and the matching
    enrollment has an id. *)
Definition enrollmentRequest (cascadeEnrollment : bool) (s : Session) (tei : TrackedEntity)
  : option Request :=
  match findEnrollment (programId s) tei with
  | Some enrollment =>
      if cascadeEnrollment && Js.truthy (en_enrollment enrollment)
      then Some (ReqMutate (enrollmentMutation (teiId s) (programId s)
                              (destinationOuId s) tei enrollment))
      else None
  | None => None
  end.

Definition enrollmentLog (cascadeEnrollment : bool) (s : Session) (tei : TrackedEntity)
  : list LogEntry :=
  match enrollmentRequest cascadeEnrollment s tei with
  | Some request => [issued s request None]
  | None => []
  end.

Definition eventsLog (s : Session) (tei : TrackedEntity) : list LogEntry :=
  match eventsOf s tei with
  | [] => []
  | _ :: _ => [issued s (eventsRequest s tei) None]
  end.

(** The engine calls of a primary transfer that went through: at the first
    attempt, or at the retry after an unknown-parameter rejection. *)
Inductive PrimaryDone (s : Session) : list LogEntry -> Prop :=
| primary_direct :
    PrimaryDone s [issued s (transferRequest s trackedEntity) None]
| primary_fallback (e : JsError) :
    isUnknownParamError e "trackedEntity" = true ->
    PrimaryDone s [issued s (transferRequest s trackedEntity) (Some e);
                   issued s (transferRequest s trackedEntityInstance) None].

(** [catch (error) { setErrorMessage(getValidationMessage(error)) }] *)
Definition reportFailure (error : JsError) : Async unit :=
  setState (setErrorMessage (Some (getValidationMessage error))).

(** The steps of [handleTransfer] after the primary transfer: re-fetch,
    enrollment import, events import, completion message. *)
Definition cascade (cascadeEnrollment : bool) (s : Session) : Async unit :=
  tei <- await (QueryTei (caseQuery (teiId s))) ;;
  (match findEnrollment (programId s) tei with
   | Some enrollment =>
       if cascadeEnrollment && Js.truthy (en_enrollment enrollment)
       then await (Mutate (enrollmentMutation (teiId s) (programId s)
                             (destinationOuId s) tei enrollment))
       else Done tt
   | None => Done tt
   end) ;;
  (if (0 <? List.length (eventsOf s tei))%nat
   then await (Mutate (eventsMutation (eventsOf s tei)))
   else Done tt) ;;
  setState (setStatusMessage (Some "Transfer completed.")).

(** Every way the steps after the primary transfer can go: the final
    session and the engine calls, in order. *)
Inductive CascadeRun (cascadeEnrollment : bool) (s : Session)
  : Session -> list LogEntry -> Prop :=
| cascade_refetch_rejected (e : JsError) :
    CascadeRun cascadeEnrollment s (failedWith e s)
      [issued s (caseRequest s) (Some e)]
| cascade_enrollment_rejected (tei : TrackedEntity) (request : Request) (e : JsError) :
    enrollmentRequest cascadeEnrollment s tei = Some request ->
    CascadeRun cascadeEnrollment s (failedWith e s)
      [fetched s tei; issued s request (Some e)]
| cascade_events_rejected (tei : TrackedEntity) (e : JsError) :
    eventsOf s tei <> [] ->
    CascadeRun cascadeEnrollment s (failedWith e s)
      (fetched s tei :: enrollmentLog cascadeEnrollment s tei
         ++ [issued s (eventsRequest s tei) (Some e)])
| cascade_completed (tei : TrackedEntity) :
    CascadeRun cascadeEnrollment s (completed s)
      (fetched s tei :: enrollmentLog cascadeEnrollment s tei
         ++ eventsLog s tei).

(** Every way a run of [handleTransfer] past its guard can go. *)
Inductive TransferRun (cascadeEnrollment : bool) (s : Session)
  : Session -> list LogEntry -> Prop :=
| run_primary_rejected (e : JsError) :
    isUnknownParamError e "trackedEntity" = false ->
    TransferRun cascadeEnrollment s (failedWith e s)
      [issued s (transferRequest s trackedEntity) (Some e)]
| run_retry_rejected (e e' : JsError) :
    isUnknownParamError e "trackedEntity" = true ->
    TransferRun cascadeEnrollment s (failedWith e' s)
      [issued s (transferRequest s trackedEntity) (Some e);
       issued s (transferRequest s trackedEntityInstance) (Some e')]
| run_primary_done (primary rest : list LogEntry) (final : Session) :
    PrimaryDone s primary ->
    CascadeRun cascadeEnrollment s final rest ->
    TransferRun cascadeEnrollment s final (primary ++ rest).

(* ================================================================= *)
(** ** Vocabulary of the properties *)

(** A request on the ownership-transfer resource. *)
Definition isOwnershipTransfer (request : Request) : bool :=
  match request with
  | ReqMutate m => String.eqb (mu_resource m) "tracker/ownership/transfer"
  | ReqQuery _ => false
  end.

(** A request that reads. *)
Definition isQuery (request : Request) : bool :=
  match request with
  | ReqMutate _ => false
  | ReqQuery _ => true
  end.

(** What the session shows: the Transfer button's [loading], the
    "Transfer failed" notice, the "Success" notice. *)
Inductive Phase := Idle | Submitting | Success | Failed.

Definition phase (s : Session) : Phase :=
  if isSubmitting s then Submitting
  else if Js.truthy_opt (errorMessage s) then Failed
  else if Js.truthy_opt (statusMessage s) then Success
  else Idle.

(** The specification's words for the retry test: [sub] occurs in [text];
    it does so whatever the case of the letters; the rejection carries a
    status in [400,500) and a message naming an unknown parameter. *)
Definition occursIn (sub text : string) : Prop :=
  exists pre post, text = pre ++ sub ++ post.

Definition occursIgnoringCase (sub text : string) : Prop :=
  occursIn (Js.toLowerCase sub) (Js.toLowerCase text).

Definition unknownParameterRejection (error : JsError) (paramName : string) : Prop :=
  (exists status, error_status error = Some status /\ (400 <= status < 500)%Z) /\
  (occursIgnoringCase "unknown parameter" (getValidationMessage error) \/
   (occursIgnoringCase "parameter" (getValidationMessage error) /\
    occursIgnoringCase paramName (getValidationMessage error))).

(** The specification's words for an event's update payload: identity,
    status and timing copied, org unit set to the destination. *)
Definition relocated (destination : string) (event : Event) (payload : EventPayload) : Prop :=
  ep_event payload = ev_event event /\
  ep_program payload = ev_program event /\
  ep_programStage payload = ev_programStage event /\
  ep_status payload = ev_status event /\
  ep_occurredAt payload = ev_occurredAt event /\
  ep_scheduledAt payload = ev_scheduledAt event /\
  ep_orgUnit payload = destination.

(** [enrollment.events ?? []] *)
Definition eventsUnder (enrollment : Enrollment) : list Event :=
  match en_events enrollment with
  | Some events => events
  | None => []
  end.

(** The interface's ownership-transfer request, spelled out: an update of
    [tracker/ownership/transfer] with the case id under [name], the program
    under [program] and the destination under [ou], and the same three
    values as body. *)
Definition ownershipUpdate (name : string) (s : Session) : Request :=
  ReqMutate
    {| mu_resource := "tracker/ownership/transfer";
       mu_type := update;
       mu_params := [ (name, PString (teiId s));
                      ("program", PString (programId s));
                      ("ou", PString (destinationOuId s)) ];
       mu_data := OwnershipData {| op_trackedEntity := teiId s;
                                   op_program := programId s;
                                   op_orgUnit := destinationOuId s |} |}.








(** The enrollment of a re-fetched case for a program: the first one of its
    enrollments whose program is that program, none when the case has no
    enrollments or none of them is for the program. *)
Inductive Located (programId : string) (tei : TrackedEntity) : option Enrollment -> Prop :=
| located_no_enrollments :
    te_enrollments tei = None ->
    Located programId tei None
| located_no_match (enrollments : list Enrollment) :
    te_enrollments tei = Some enrollments ->
    Forall (fun e => en_program e <> programId) enrollments ->
    Located programId tei None
| located_first (before : list Enrollment) (enrollment : Enrollment)
    (after : list Enrollment) :
    te_enrollments tei = Some (before ++ enrollment :: after)%list ->
    Forall (fun e => en_program e <> programId) before ->
    en_program enrollment = programId ->
    Located programId tei (Some enrollment).

(** The events import of the interface, spelled out. *)
Definition eventsImport (payloads : list EventPayload) : Request :=
  ReqMutate {| mu_resource := "tracker";
               mu_type := create;
               mu_params := [ ("async", PBool false);
                              ("importStrategy", PString "UPDATE") ];
               mu_data := EventsData payloads |}.

Definition isEventsImport (request : Request) : bool :=
  match request with
  | ReqQuery _ => false
  | ReqMutate m =>
      match mu_data m with
      | EventsData _ => true
      | _ => false
      end
  end.

(* ================================================================= *)
(** ** Sample sessions and pages *)

(** An engine that answers from a script, one settlement per call. *)
Inductive Scripted :=
| Reject (e : JsError)
| Accept
| Deliver (tei : TrackedEntity).

Definition scriptedEngine (R : Type) (c : Call R) (script : list Scripted)
  : (JsError + R) * list Scripted :=
  match c in Call R return (JsError + R) * list Scripted with
  | Mutate _ =>
      match script with
      | Reject e :: later => (inl e, later)
      | _ :: later => (inr tt, later)
      | [] => (inr tt, [])
      end
  | QueryTei _ =>
      match script with
      | Deliver tei :: later => (inr tei, later)
      | Reject e :: later => (inl e, later)
      | _ :: later => (inl NotAnObject, later)
      | [] => (inl NotAnObject, [])
      end
  end.

(** Sample data: a session ready to move case T1 of program P1 from OuA to
    OuB, a case with one enrollment for P1 holding two events, and two
    rejections. *)
Definition readySession : Session :=
  setSelectedOuId (Some "OuB") (initialSession "T1" "P1" "OuA").

Definition sampleEvent (id : string) : Event :=
  {| ev_event := id; ev_program := Some "P1"; ev_programStage := Some "S1";
     ev_orgUnit := Some "OuA"; ev_status := Some "ACTIVE";
     ev_occurredAt := Some "2024-01-01"; ev_scheduledAt := None |}.

Definition sampleCase : TrackedEntity :=
  {| te_trackedEntity := "T1"; te_trackedEntityType := Some "Person";
     te_orgUnit := Some "OuA";
     te_enrollments :=
       Some [ {| en_enrollment := "E1"; en_program := "P1"; en_orgUnit := Some "OuA";
                 en_status := Some "ACTIVE"; en_occurredAt := None;
                 en_enrolledAt := None;
                 en_events := Some [sampleEvent "V1"; sampleEvent "V2"] |} ] |}.

Definition httpError (status : Z) (message : string) : JsError :=
  ErrorObject (Some "An unknown error occurred")
    (Some {| dt_response :=
               Some {| rs_status := Some status;
                       rs_data := Some {| rd_message := Some message |} |} |}).

Definition unknownParameter : JsError := httpError 400 "Unknown parameter trackedEntity".
Definition conflict : JsError := httpError 409 "Import conflict".

(** A session with no known current location whose destination is the org
    unit that really holds the case. *)
Definition unknownLocationSession : Session :=
  setSelectedOuId (Some "OuA") (initialSession "T1" "P1" "").

(** A page whose live search for "ab" is pending while the operator has cut
    the text down to " a ". *)
Definition shortQueryPage : Page :=
  runEvents (mount "T1" "P1" "OuA")
    [TypeSearch "ab"; DebounceFires; TypeSearch " a "].

(** The events after which the search for "ab" has been superseded by the
    one for "abc", and a page on which the search for "ab" is the live one. *)
Definition supersedingEvents : list UiEvent :=
  [TypeSearch "ab"; DebounceFires; TypeSearch "abc"; DebounceFires].

Definition livePage : Page :=
  runEvents (mount "T1" "P1" "OuA") [TypeSearch "ab"; DebounceFires].

Definition clinicB : OrgUnit :=
  {| ou_id := "OuB"; ou_displayName := "Clinic B"; ou_path := None |}.

(* ================================================================= *)
(** ** Background lookups *)

Definition setCurrentOuId (v : string) (s : Session) : Session :=
  {| teiId := teiId s; programId := programId s; selectedPaths := selectedPaths s;
     selectedOuId := selectedOuId s; selectedOu := selectedOu s;
     currentOuId := v; currentOuName := currentOuName s;
     errorMessage := errorMessage s; statusMessage := statusMessage s;
     treeError := treeError s; isSubmitting := isSubmitting s;
     searchText := searchText s; searchResults := searchResults s;
     searchError := searchError s; isSearching := isSearching s;
     debouncedSearchText := debouncedSearchText s |}.

Definition setCurrentOuName (v : option string) (s : Session) : Session :=
  {| teiId := teiId s; programId := programId s; selectedPaths := selectedPaths s;
     selectedOuId := selectedOuId s; selectedOu := selectedOu s;
     currentOuId := currentOuId s; currentOuName := v;
     errorMessage := errorMessage s; statusMessage := statusMessage s;
     treeError := treeError s; isSubmitting := isSubmitting s;
     searchText := searchText s; searchResults := searchResults s;
     searchError := searchError s; isSearching := isSearching s;
     debouncedSearchText := debouncedSearchText s |}.

Definition setSelectedOu (v : option OrgUnit) (s : Session) : Session :=
  {| teiId := teiId s; programId := programId s; selectedPaths := selectedPaths s;
     selectedOuId := selectedOuId s; selectedOu := v;
     currentOuId := currentOuId s; currentOuName := currentOuName s;
     errorMessage := errorMessage s; statusMessage := statusMessage s;
     treeError := treeError s; isSubmitting := isSubmitting s;
     searchText := searchText s; searchResults := searchResults s;
     searchError := searchError s; isSearching := isSearching s;
     debouncedSearchText := debouncedSearchText s |}.

Definition setTreeError (v : option string) (s : Session) : Session :=
  {| teiId := teiId s; programId := programId s; selectedPaths := selectedPaths s;
     selectedOuId := selectedOuId s; selectedOu := selectedOu s;
     currentOuId := currentOuId s; currentOuName := currentOuName s;
     errorMessage := errorMessage s; statusMessage := statusMessage s;
     treeError := v; isSubmitting := isSubmitting s;
     searchText := searchText s; searchResults := searchResults s;
     searchError := searchError s; isSearching := isSearching s;
     debouncedSearchText := debouncedSearchText s |}.

(** How an awaited query settles. *)
Inductive Settled (A : Type) : Type :=
| Fulfils (value : A)
| Rejects (error : JsError).

Arguments Fulfils {A} value.
Arguments Rejects {A} error.

(** The effect on the [currentOrgUnitId] prop:
    [if (currentOrgUnitId) setCurrentOuId(currentOrgUnitId)]. *)
Definition syncCurrentOrgUnit (currentOrgUnitId : string) (s : Session) : Session :=
  if Js.truthy currentOrgUnitId then setCurrentOuId currentOrgUnitId s else s.

(** The current-location finder: the query its effect sends, none under
    [!teiId || currentOuId]. *)
Definition currentOrgUnitQuery (s : Session) : option Query :=
  if negb (Js.truthy (teiId s)) || Js.truthy (currentOuId s) then None
  else Some {| qu_resource := "tracker/trackedEntities/" ++ teiId s;
               qu_params := [ ("fields", PString "orgUnit") ] |}.

(** [loadCurrentOrgUnit] from its [await] on; the query resolves to the
    [orgUnit] of the case, if it has one. *)
Definition loadCurrentOrgUnit_resume (isActive : bool) (r : Settled (option string))
    (s : Session) : Session :=
  match r with
  | Fulfils orgUnit =>
      if negb isActive then s
      else if Js.truthy_opt orgUnit then setCurrentOuId (valueOf orgUnit) s
           else s
  | Rejects _ => s
  end.

(** The name lookup of the current org unit: what its effect does at once,
    the query it sends, and [loadCurrentOrgUnitName] from its [await] on. *)
Definition currentOrgUnitNameEffect (s : Session) : Session :=
  if negb (Js.truthy (currentOuId s)) then setCurrentOuName None s else s.

Definition currentOrgUnitNameQuery (s : Session) : option Query :=
  if negb (Js.truthy (currentOuId s)) then None
  else Some {| qu_resource := "organisationUnits/" ++ currentOuId s;
               qu_params := [ ("fields", PString "id,displayName") ] |}.

Definition loadCurrentOrgUnitName_resume (isActive : bool) (r : Settled OrgUnit)
    (s : Session) : Session :=
  match r with
  | Fulfils orgUnit =>
      if negb isActive then s
      else setCurrentOuName
             (if Js.truthy (ou_displayName orgUnit)
              then Some (ou_displayName orgUnit) else None) s
  | Rejects _ =>
      if negb isActive then s
      else setCurrentOuName None s
  end.

(** The lookup of the selected org unit: [loadOrgUnit] up to its [await]
    (it returns early under [!selectedOuId]), the query, and the rest. *)
Definition loadOrgUnit_start (s : Session) : Session :=
  if negb (Js.truthy_opt (selectedOuId s)) then setSelectedOu None s else s.

Definition selectedOrgUnitQuery (s : Session) : option Query :=
  if negb (Js.truthy_opt (selectedOuId s)) then None
  else Some {| qu_resource := "organisationUnits/" ++ valueOf (selectedOuId s);
               qu_params := [ ("fields", PString "id,displayName,path") ] |}.

Definition loadOrgUnit_resume (isActive : bool) (r : Settled OrgUnit)
    (s : Session) : Session :=
  match r with
  | Fulfils ou =>
      if negb isActive then s
      else setSelectedOu (Some ou) s
  | Rejects error =>
      if negb isActive then s
      else setErrorMessage (Some (getValidationMessage error)) s
  end.

(* ================================================================= *)
(** ** What a render shows *)

Definition descriptionLabel (s : Session) : string :=
  if Js.truthy_opt (currentOuName s) then valueOf (currentOuName s)
  else if Js.truthy (currentOuId s) then currentOuId s
  else "Unknown org unit".

(** The three warnings above the form. *)
Definition showsMissingTei (s : Session) : bool := negb (Js.truthy (teiId s)).
Definition showsMissingProgram (s : Session) : bool := negb (Js.truthy (programId s)).
Definition showsUnchangedDestination (s : Session) : bool := isSameOrgUnit s.

(** Under the search field: the "Searching..." line, the list of results,
    the "No matching org units." line. *)
Definition showsSearching (s : Session) : bool := isSearching s.

Definition showsResults (s : Session) : bool :=
  (MIN_SEARCH_LENGTH <=? String.length (Js.trim (debouncedSearchText s)))%nat &&
  negb (isSearching s) &&
  (0 <? List.length (searchResults s))%nat.

Definition showsNoMatches (s : Session) : bool :=
  (MIN_SEARCH_LENGTH <=? String.length (Js.trim (debouncedSearchText s)))%nat &&
  negb (isSearching s) &&
  (List.length (searchResults s) =? 0)%nat.

(** [componentDidCatch] of the tree's error boundary, through [onError]. *)
Definition treeCrashes (s : Session) : Session :=
  setTreeError (Some "Failed to render org unit tree. Use manual entry instead.") s.

(** What stands below the search field. *)
Inductive DestinationArea := ManualEntryInput | NoRootsNotice | TreeWidget.

Definition destinationArea (s : Session) (roots : list string) : DestinationArea :=
  if Js.truthy_opt (treeError s) then ManualEntryInput
  else if (List.length roots =? 0)%nat then NoRootsNotice
  else TreeWidget.

(** Every character of [s] is white space. *)
Fixpoint allWhiteSpace (s : string) : bool :=
  match s with
  | EmptyString => true
  | String c rest => Js.isWhiteSpace c && allWhiteSpace rest
  end.

(** The fields [handleTransfer] and the search leave to each other. *)
Definition sameSelection (a b : Session) : Prop :=
  teiId a = teiId b /\ programId a = programId b /\
  selectedPaths a = selectedPaths b /\ selectedOuId a = selectedOuId b /\
  selectedOu a = selectedOu b /\
  currentOuId a = currentOuId b /\ currentOuName a = currentOuName b /\
  treeError a = treeError b /\
  searchText a = searchText b /\ searchResults a = searchResults b /\
  searchError a = searchError b /\ isSearching a = isSearching b /\
  debouncedSearchText a = debouncedSearchText b.

(** The fields that no search or selection handler, and no effect that
    follows one, ever writes. *)
Definition sameTransferContext (a b : Session) : Prop :=
  teiId a = teiId b /\ programId a = programId b /\
  currentOuId a = currentOuId b /\ currentOuName a = currentOuName b /\
  statusMessage a = statusMessage b /\
  treeError a = treeError b /\ isSubmitting a = isSubmitting b.

(** What can happen on the page while the user searches and selects: one
    of the events of [step], or a write of the lookup of the selected org
    unit.  That lookup is the effect on [selectedOuId]; it runs after a
    render in which the id changed, clears the resolved org unit at once
    under an empty id, and otherwise writes when its query settles. *)
Inductive Activity :=
| Ui (ev : UiEvent)
| LookupStarts
| LookupSettles (isActive : bool) (r : Settled OrgUnit).

Definition act (p : Page) (a : Activity) : Page :=
  match a with
  | Ui ev => step p ev
  | LookupStarts => withSession loadOrgUnit_start p
  | LookupSettles isActive r => withSession (loadOrgUnit_resume isActive r) p
  end.

Definition runActivities (p : Page) (acts : list Activity) : Page := fold_left act acts p.

Definition sameTransferState (a b : Session) : Prop :=
  teiId a = teiId b /\ programId a = programId b /\
  selectedOu a = selectedOu b /\
  currentOuId a = currentOuId b /\ currentOuName a = currentOuName b /\
  errorMessage a = errorMessage b /\ statusMessage a = statusMessage b /\
  treeError a = treeError b /\ isSubmitting a = isSubmitting b.

(** The org unit a mutation writes. *)
Definition writesTo (destination : string) (request : Request) : Prop :=
  match request with
  | ReqQuery _ => True
  | ReqMutate m =>
      match mu_data m with
      | OwnershipData body => op_orgUnit body = destination
      | EnrollmentsData enrollments =>
          Forall (fun e => np_orgUnit e = destination) enrollments
      | EventsData events =>
          Forall (fun e => ep_orgUnit e = destination) events
      end
  end.

Definition isEnrollmentImport (request : Request) : bool :=
  match request with
  | ReqQuery _ => false
  | ReqMutate m =>
      match mu_data m with
      | EnrollmentsData _ => true
      | _ => false
      end
  end.

(** A request that is still awaited by a closure that is still live. *)
Definition awaited (r : SearchRequest) : bool := sr_isActive r && sr_pending r.

(** The pending timeout of [useDebouncedValue] carries the text of the
    search field and belongs to a mounted page; on a mounted page with no
    timeout pending the debounced text is the text of the search field. *)
Definition debounceInvariant (p : Page) : Prop :=
  (forall value, timer p = Some value ->
     value = searchText (session p) /\ mounted p = true) /\
  (mounted p = true -> timer p = None ->
     debouncedSearchText (session p) = searchText (session p)).

(** On a mounted page the searching flag is up exactly while the live
    request is unanswered. *)
Definition searchingInvariant (p : Page) : Prop :=
  mounted p = true ->
  (isSearching (session p) = true <->
   exists r, In r (requests p) /\ awaited r = true).

(** What was sent for a request: its id and its filter. *)
Definition sent (r : SearchRequest) : nat * string := (sr_id r, sr_filter r).

(** One entry of [rootsData.roots.organisationUnits]: [None] for [null] or
    [undefined], else the object with its [id] when that is a string. *)
Record RootEntry := { re_id : option string }.

Definition isRoot (entry : option RootEntry) : bool :=
  match entry with
  | Some ou => match re_id ou with Some _ => true | None => false end
  | None => false
  end.

(** The [roots] memo; [orgUnits] is [None] when the reply holds no array. *)
Definition roots (orgUnits : option (list (option RootEntry))) : list string :=
  match orgUnits with
  | None => []
  | Some entries =>
      map (fun entry => match entry with
                        | Some ou => valueOf (re_id ou)
                        | None => ""
                        end)
          (filter isRoot entries)
  end.

(* ================================================================= *)
(** * Properties *)

(** ** Strings *)

Lemma truthy_eqb (s : string) : Js.truthy s = negb (String.eqb s "").
Proof. destruct s; reflexivity. Qed.

Lemma truthy_true_iff (s : string) : Js.truthy s = true <-> s <> "".
Proof. destruct s; simpl; split; congruence. Qed.

Lemma truthy_false_iff (s : string) : Js.truthy s = false <-> s = "".
Proof. destruct s; simpl; split; congruence. Qed.

(** ** Transfer validator *)

Lemma isSameOrgUnit_eqb (s : Session) :
  Js.truthy (destinationOuId s) = true ->
  isSameOrgUnit s = String.eqb (destinationOuId s) (currentOuId s).
Proof.
  intros Hd. unfold isSameOrgUnit, Js.seq. rewrite Hd, andb_true_r.
  rewrite (String.eqb_sym (destinationOuId s)).
  destruct (String.eqb_spec (currentOuId s) (destinationOuId s)) as [E | E].
  - rewrite E, Hd. reflexivity.
  - apply andb_false_r.
Qed.

(** C1. The transfer action is enabled exactly when the case id, the program
    id and the destination id are non-empty, the destination id differs from
    the current location id and no submission is in progress: in every
    session state [isTransferEnabled] is the conjunction of these five
    tests. *)
Theorem isTransferEnabled_five_conditions (s : Session) :
  isTransferEnabled s =
    negb (String.eqb (teiId s) "") &&
    negb (String.eqb (programId s) "") &&
    negb (String.eqb (destinationOuId s) "") &&
    negb (String.eqb (destinationOuId s) (currentOuId s)) &&
    negb (isSubmitting s)
  /\
  (isTransferEnabled s = true <->
     teiId s <> "" /\ programId s <> "" /\ destinationOuId s <> "" /\
     destinationOuId s <> currentOuId s /\ isSubmitting s = false).
Proof.
  assert (E : isTransferEnabled s =
    negb (String.eqb (teiId s) "") &&
    negb (String.eqb (programId s) "") &&
    negb (String.eqb (destinationOuId s) "") &&
    negb (String.eqb (destinationOuId s) (currentOuId s)) &&
    negb (isSubmitting s)).
  { unfold isTransferEnabled. rewrite <- !truthy_eqb.
    destruct (Js.truthy (destinationOuId s)) eqn:Hd.
    - rewrite (isSameOrgUnit_eqb s Hd). reflexivity.
    - rewrite !andb_false_r. reflexivity. }
  split; [exact E |].
  rewrite E, !andb_true_iff, !negb_true_iff.
  repeat rewrite String.eqb_neq.
  tauto.
Qed.

(** C10. When the current location id is empty the destination-unchanged
    check never fires: with a case id, a program id and any non-empty
    destination, and no submission in progress, the transfer action is
    enabled, whatever org unit actually holds the case, the destination
    itself included. *)
Theorem unknown_current_location_enables_any_destination
    (s : Session) (actualOrgUnit : string) :
  currentOuId s = "" ->
  teiId s <> "" -> programId s <> "" -> destinationOuId s <> "" ->
  isSubmitting s = false ->
  isSameOrgUnit s = false /\
  isTransferEnabled s = true /\
  (destinationOuId s = actualOrgUnit -> isTransferEnabled s = true).
Proof.
  intros Hc Ht Hp Hd Hs.
  assert (Hsame : isSameOrgUnit s = false).
  { unfold isSameOrgUnit. rewrite Hc. reflexivity. }
  assert (Hen : isTransferEnabled s = true).
  { unfold isTransferEnabled. rewrite Hsame, Hs.
    apply truthy_true_iff in Ht, Hp, Hd. rewrite Ht, Hp, Hd. reflexivity. }
  auto.
Qed.

Lemma unknown_current_location_enables_any_destination_witness :
  (currentOuId unknownLocationSession = "" /\
   teiId unknownLocationSession <> "" /\
   programId unknownLocationSession <> "" /\
   destinationOuId unknownLocationSession <> "" /\
   isSubmitting unknownLocationSession = false) /\
  isSameOrgUnit unknownLocationSession = false /\
  isTransferEnabled unknownLocationSession = true /\
  (destinationOuId unknownLocationSession = "OuA" ->
   isTransferEnabled unknownLocationSession = true).
Proof.
  split.
  - vm_compute. repeat split; congruence.
  - apply (unknown_current_location_enables_any_destination unknownLocationSession "OuA");
      vm_compute; congruence.
Defined.

(** ** Selection reconciler *)

(** C6, as the claim has it, fails: after a pick the tree's path selection
    is not empty. *)
Lemma pick_does_not_clear_path_selection :
  let orgUnit := {| ou_id := "OuB"; ou_displayName := "Clinic B"; ou_path := None |} in
  let s := initialSession "T1" "P1" "OuA" in
  ~ (selectedOuId (pickSearchResult orgUnit s) = Some "OuB" /\
     selectedPaths (pickSearchResult orgUnit s) = [] /\
     searchText (pickSearchResult orgUnit s) = "Clinic B" /\
     searchResults (pickSearchResult orgUnit s) = []).
Proof.
  cbv zeta. intros (_ & Hpaths & _). vm_compute in Hpaths. discriminate Hpaths.
Qed.

(** C6, amended. Picking a search result sets the destination id to the
    picked org unit's id, replaces the tree's path selection by the single
    entry holding that id, puts the chosen display name in the search field
    and empties the results list. *)
Theorem pickSearchResult_effect (orgUnit : OrgUnit) (s : Session) :
  let s' := pickSearchResult orgUnit s in
  selectedOuId s' = Some (ou_id orgUnit) /\
  destinationOuId s' = Js.trim (ou_id orgUnit) /\
  selectedPaths s' = [ou_id orgUnit] /\
  searchText s' = ou_displayName orgUnit /\
  searchResults s' = [].
Proof. cbv zeta. repeat split. Qed.

(** ** Ownership-transfer request *)

(** C5. Under either parameter name the attempt is one [update] of
    [tracker/ownership/transfer]; its params hold the case id under that
    name, which is [trackedEntity] for the first variant and
    [trackedEntityInstance] for the second, and under no other of the two,
    the program id under [program] and the destination under [ou]; its body
    holds the same case, program and destination. *)
Theorem attemptTransfer_request
    (World : Type) (engine : forall R : Type, Call R -> World -> (JsError + R) * World)
    (w : World) (live : Session) (tei prog dest : string) (v : ParamName) :
  exists m body,
    map le_request (out_log (fst (run World engine (attemptTransfer tei prog dest v) live w)))
      = [ReqMutate m] /\
    mu_resource m = "tracker/ownership/transfer" /\
    mu_type m = update /\
    mu_params m = [ (paramName_string v, PString tei);
                    ("program", PString prog);
                    ("ou", PString dest) ] /\
    mu_params m = [ (match v with
                     | trackedEntity => "trackedEntity"
                     | trackedEntityInstance => "trackedEntityInstance"
                     end, PString tei);
                    ("program", PString prog);
                    ("ou", PString dest) ] /\
    param (paramName_string v) (mu_params m) = Some (PString tei) /\
    param "trackedEntity" (mu_params m)
      = match v with
        | trackedEntity => Some (PString tei)
        | trackedEntityInstance => None
        end /\
    param "trackedEntityInstance" (mu_params m)
      = match v with
        | trackedEntity => None
        | trackedEntityInstance => Some (PString tei)
        end /\
    param "program" (mu_params m) = Some (PString prog) /\
    param "ou" (mu_params m) = Some (PString dest) /\
    mu_data m = OwnershipData body /\
    (op_trackedEntity body, op_program body, op_orgUnit body) = (tei, prog, dest).
Proof.
  exists (transferMutation tei prog dest v).
  exists {| op_trackedEntity := tei; op_program := prog; op_orgUnit := dest |}.
  split.
  - unfold attemptTransfer, await. cbn [run].
    destruct (engine unit (Mutate (transferMutation tei prog dest v)) w) as [[e | u] w1];
      reflexivity.
  - destruct v; cbn; repeat split.
Qed.

(** ** Search below the minimum length *)

Lemma searchCleanup_ids (p : Page) :
  map sr_id (requests (searchCleanup p)) = map sr_id (requests p).
Proof.
  unfold searchCleanup. destruct (cleanup p) as [id |]; [| reflexivity].
  cbn [requests]. unfold deactivate. rewrite map_map.
  apply map_ext. intros r. destruct (Nat.eqb (sr_id r) id); reflexivity.
Qed.

Lemma searchCleanup_session (p : Page) : session (searchCleanup p) = session p.
Proof. unfold searchCleanup. destruct (cleanup p); reflexivity. Qed.

(** C9. When the trimmed debounced text is shorter than the minimum search
    length, the search effect sends no request, empties the results, clears
    the search error and leaves the searching flag down; so does the
    debounce timeout that brings such a text in. *)
Theorem short_query_issues_no_search (value : string) :
  String.length (Js.trim value) < MIN_SEARCH_LENGTH ->
  (forall p : Page,
     debouncedSearchText (session p) = value ->
     requests (searchEffect p) = requests p /\
     cleanup (searchEffect p) = None /\
     searchResults (session (searchEffect p)) = [] /\
     searchError (session (searchEffect p)) = None /\
     isSearching (session (searchEffect p)) = false)
  /\
  (forall q : Page,
     mounted q = true -> timer q = Some value ->
     value <> debouncedSearchText (session q) ->
     map sr_id (requests (step q DebounceFires)) = map sr_id (requests q) /\
     debouncedSearchText (session (step q DebounceFires)) = value /\
     searchResults (session (step q DebounceFires)) = [] /\
     searchError (session (step q DebounceFires)) = None /\
     isSearching (session (step q DebounceFires)) = false).
Proof.
  intros Hshort. apply Nat.ltb_lt in Hshort.
  assert (Heffect : forall p : Page,
     debouncedSearchText (session p) = value ->
     requests (searchEffect p) = requests p /\
     cleanup (searchEffect p) = None /\
     searchResults (session (searchEffect p)) = [] /\
     searchError (session (searchEffect p)) = None /\
     isSearching (session (searchEffect p)) = false).
  { intros p Hp. unfold searchEffect. rewrite Hp, Hshort. cbn. repeat split. }
  split; [exact Heffect |].
  intros q Hm Ht Hne.
  unfold step. rewrite Hm, Ht. cbn [negb].
  apply String.eqb_neq in Hne. rewrite Hne.
  set (q1 := searchCleanup _).
  assert (Hd : debouncedSearchText (session q1) = value).
  { unfold q1. rewrite searchCleanup_session. reflexivity. }
  assert (Hids : map sr_id (requests q1) = map sr_id (requests q)).
  { unfold q1. rewrite searchCleanup_ids. reflexivity. }
  destruct (Heffect q1 Hd) as (H1 & _ & H2 & H3 & H4).
  rewrite H1, Hids, H2, H3, H4.
  unfold searchEffect. rewrite Hd, Hshort. cbn. rewrite Hd. repeat split.
Qed.

Lemma short_query_issues_no_search_witness :
  (String.length (Js.trim " a ") < MIN_SEARCH_LENGTH /\
   mounted shortQueryPage = true /\
   timer shortQueryPage = Some " a " /\
   " a " <> debouncedSearchText (session shortQueryPage)) /\
  map sr_id (requests (step shortQueryPage DebounceFires))
    = map sr_id (requests shortQueryPage) /\
  debouncedSearchText (session (step shortQueryPage DebounceFires)) = " a " /\
  searchResults (session (step shortQueryPage DebounceFires)) = [] /\
  searchError (session (step shortQueryPage DebounceFires)) = None /\
  isSearching (session (step shortQueryPage DebounceFires)) = false.
Proof.
  assert (H : String.length (Js.trim " a ") < MIN_SEARCH_LENGTH) by (vm_compute; lia).
  assert (Hm : mounted shortQueryPage = true) by (vm_compute; reflexivity).
  assert (Ht : timer shortQueryPage = Some " a ") by (vm_compute; reflexivity).
  assert (Hne : " a " <> debouncedSearchText (session shortQueryPage))
    by (vm_compute; discriminate).
  exact (conj (conj H (conj Hm (conj Ht Hne)))
           (proj2 (short_query_issues_no_search " a " H) shortQueryPage Hm Ht Hne)).
Defined.

(* ================================================================= *)
(** ** Transfer executor: every run follows an exit path *)

Section Runs.

Variable World : Type.
Variable engine : forall R : Type, Call R -> World -> (JsError + R) * World.

(** [handleTransfer] past its guard, with the later steps folded. *)
Lemma handleTransferWith_unblocked (flag : bool) (s : Session) :
  transferBlocked s = false ->
  forall w,
    run World engine (handleTransferWith flag s) s w =
    run World engine
      (tryFinally
         (tryCatch
            (tryCatch
               (attemptTransfer (teiId s) (programId s) (destinationOuId s) trackedEntity)
               (fun error =>
                  if isUnknownParamError error "trackedEntity"
                  then attemptTransfer (teiId s) (programId s) (destinationOuId s)
                         trackedEntityInstance
                  else Raise error) ;;
             cascade flag s)
            reportFailure)
         (setIsSubmitting false))
      (inFlight s) w.
Proof.
  intros Hb w. unfold handleTransferWith. rewrite Hb. reflexivity.
Qed.

(** The last step: the events import and the completion message. *)
Lemma events_run (s : Session) (tei : TrackedEntity) (w : World) :
  let o := fst (run World engine
                  (tryFinally
                     (tryCatch
                        ((if (0 <? List.length (eventsOf s tei))%nat
                          then await (Mutate (eventsMutation (eventsOf s tei)))
                          else Done tt) ;;
                         setState (setStatusMessage (Some "Transfer completed.")))
                        reportFailure)
                     (setIsSubmitting false))
                  (inFlight s) w) in
  out_result o = inr tt /\
  ((exists e, eventsOf s tei <> [] /\
              out_session o = failedWith e s /\
              out_log o = [issued s (eventsRequest s tei) (Some e)]) \/
   (out_session o = completed s /\ out_log o = eventsLog s tei)).
Proof.
  unfold eventsLog, await.
  destruct (eventsOf s tei) as [| ev evs] eqn:Hev.
  - cbn. split; [reflexivity | right; split; reflexivity].
  - cbn [List.length Nat.ltb Nat.leb tryCatch bind tryFinally run].
    destruct (engine unit (Mutate _) w) as [[e | []] w1]; cbn.
    + split; [reflexivity | left]. exists e.
      unfold eventsRequest. rewrite Hev. repeat split. discriminate.
    + split; [reflexivity | right].
      unfold eventsRequest. rewrite Hev. split; reflexivity.
Qed.

(** Step the interpreter up to the next engine call. *)
Ltac to_next_call := cbn [tryCatch bind tryFinally run].

(** Close a goal about a run whose remaining steps are those of
    [events_run], started in world [w']. *)
Ltac by_events_run s tei w' :=
  let Hlast := fresh "Hlast" in
  let o := fresh "o" in
  let w'' := fresh "w" in
  pose proof (events_run s tei w') as Hlast;
  unfold await in Hlast; cbv zeta in Hlast;
  destruct (run World engine _ (inFlight s) w') as [o w'']; cbn in *;
  destruct Hlast as [-> [(? & ? & -> & ->) | (-> & ->)]];
  (split; [reflexivity | auto]).

Lemma cascade_run (flag : bool) (s : Session) (w : World) :
  let o := fst (run World engine
                  (tryFinally (tryCatch (cascade flag s) reportFailure)
                     (setIsSubmitting false))
                  (inFlight s) w) in
  out_result o = inr tt /\ CascadeRun flag s (out_session o) (out_log o).
Proof.
  unfold cascade, await. to_next_call.
  destruct (engine TrackedEntity (QueryTei _) w) as [[e | tei] w1].
  { cbn. split; [reflexivity | apply cascade_refetch_rejected]. }
  to_next_call.
  pose proof (cascade_enrollment_rejected flag s tei) as Henr.
  pose proof (cascade_events_rejected flag s tei) as Hev.
  pose proof (cascade_completed flag s tei) as Hdone.
  unfold enrollmentLog, enrollmentRequest in *.
  destruct (findEnrollment (programId s) tei) as [enrollment |];
    [destruct (flag && Js.truthy (en_enrollment enrollment)) |].
  - to_next_call.
    destruct (engine unit (Mutate _) w1) as [[e | []] w2].
    { cbn. split; [reflexivity | apply Henr; reflexivity]. }
    to_next_call. by_events_run s tei w2.
  - to_next_call. by_events_run s tei w1.
  - to_next_call. by_events_run s tei w1.
Qed.

(** Past its guard, [handleTransfer] always settles without throwing, along
    one of the exit paths. *)
Lemma handleTransfer_run (flag : bool) (s : Session) (w : World) :
  transferBlocked s = false ->
  let o := fst (run World engine (handleTransferWith flag s) s w) in
  out_result o = inr tt /\ TransferRun flag s (out_session o) (out_log o).
Proof.
  intros Hb. rewrite (handleTransferWith_unblocked flag s Hb).
  unfold attemptTransfer, await. to_next_call.
  destruct (engine unit (Mutate _) w) as [[e | []] w1]; to_next_call.
  - destruct (isUnknownParamError e "trackedEntity") eqn:Hretry; to_next_call.
    + destruct (engine unit (Mutate _) w1) as [[e' | []] w2]; to_next_call.
      * split; [reflexivity | apply run_retry_rejected; assumption].
      * pose proof (cascade_run flag s w2) as Hrest. cbv zeta in Hrest.
        destruct (run World engine _ (inFlight s) w2) as [o w3]. cbn in *.
        destruct Hrest as [Hr Hc]. split; [exact Hr |].
        apply (run_primary_done flag s
                 [issued s (transferRequest s trackedEntity) (Some e);
                  issued s (transferRequest s trackedEntityInstance) None]);
          [apply primary_fallback; assumption | exact Hc].
    + split; [reflexivity | apply run_primary_rejected; assumption].
  - pose proof (cascade_run flag s w1) as Hrest. cbv zeta in Hrest.
    destruct (run World engine _ (inFlight s) w1) as [o w3]. cbn in *.
    destruct Hrest as [Hr Hc]. split; [exact Hr |].
    apply (run_primary_done flag s [issued s (transferRequest s trackedEntity) None]);
      [apply primary_direct | exact Hc].
Qed.

End Runs.

(* ================================================================= *)
(** ** The unknown-parameter test *)

Lemma startsWith_iff (p s : string) :
  Js.startsWith s p = true <-> exists post, s = p ++ post.
Proof.
  revert s. induction p as [| a p IH]; intros s.
  - destruct s; simpl; split; eauto.
  - destruct s as [| b s]; simpl.
    + split; [discriminate | intros [post H]; discriminate].
    + rewrite andb_true_iff, IH. split.
      * intros [Hab [post ->]]. apply Ascii.eqb_eq in Hab. subst. eauto.
      * intros [post H]. injection H as -> ->. split; [apply Ascii.eqb_refl | eauto].
Qed.

Lemma includes_iff (sub s : string) :
  Js.includes s sub = true <-> occursIn sub s.
Proof.
  unfold occursIn. induction s as [| c s IH]; cbn [Js.includes].
  - rewrite orb_false_r, startsWith_iff. split.
    + intros [post H]. exists "", post. exact H.
    + intros (pre & post & H). destruct pre; [| discriminate].
      exists post. exact H.
  - rewrite orb_true_iff, startsWith_iff, IH. split.
    + intros [[post H] | (pre & post & H)].
      * exists "", post. exact H.
      * exists (String c pre), post. simpl. rewrite H. reflexivity.
    + intros (pre & post & H). destruct pre as [| c' pre]; simpl in H.
      * left. eauto.
      * right. injection H as _ H. eauto.
Qed.

(** [isUnknownParamError] is the test the specification words. *)
Lemma isUnknownParamError_iff (error : JsError) (paramName : string) :
  isUnknownParamError error paramName = true <->
  unknownParameterRejection error paramName.
Proof.
  unfold isUnknownParamError, unknownParameterRejection, occursIgnoringCase.
  rewrite <- !includes_iff. cbn [Js.toLowerCase].
  change (Js.toLowerCase "unknown parameter") with "unknown parameter".
  change (Js.toLowerCase "parameter") with "parameter".
  destruct (error_status error) as [status |]; cbn [statusRejected].
  - destruct ((status =? 0)%Z || (status <? 400)%Z || (500 <=? status)%Z) eqn:Hs.
    + split; [discriminate |].
      intros [(n & Hn & Hrange) _]. injection Hn as <-.
      rewrite !orb_true_iff in Hs. lia.
    + rewrite !orb_false_iff in Hs. destruct Hs as [[H0 H1] H2].
      rewrite orb_true_iff, andb_true_iff. split.
      * intros H. split; [| exact H]. exists status. split; [reflexivity | lia].
      * intros [_ H]. exact H.
  - split; [discriminate |].
    intros [(n & Hn & _) _]. discriminate.
Qed.








(** ** Retry and failure reporting *)

Lemma enrollmentRequest_not_transfer (flag : bool) (s : Session) (tei : TrackedEntity)
    (request : Request) :
  enrollmentRequest flag s tei = Some request -> isOwnershipTransfer request = false.
Proof.
  unfold enrollmentRequest.
  destruct (findEnrollment (programId s) tei) as [enrollment |]; [| discriminate].
  destruct (flag && Js.truthy (en_enrollment enrollment)); [| discriminate].
  intros H. injection H as <-. reflexivity.
Qed.

Lemma enrollmentLog_entries (flag : bool) (s : Session) (tei : TrackedEntity) (entry : LogEntry) :
  In entry (enrollmentLog flag s tei) ->
  isOwnershipTransfer (le_request entry) = false /\ le_failure entry = None.
Proof.
  unfold enrollmentLog.
  destruct (enrollmentRequest flag s tei) as [request |] eqn:Hreq; simpl; [| tauto].
  intros [<- | []]. split; [| reflexivity].
  exact (enrollmentRequest_not_transfer flag s tei request Hreq).
Qed.

Lemma eventsLog_entries (s : Session) (tei : TrackedEntity) (entry : LogEntry) :
  In entry (eventsLog s tei) ->
  isOwnershipTransfer (le_request entry) = false /\ le_failure entry = None.
Proof.
  unfold eventsLog. destruct (eventsOf s tei); simpl; [tauto |].
  intros [<- | []]. split; reflexivity.
Qed.

(** No step after the primary transfer touches the ownership resource. *)
Lemma cascade_no_transfer (flag : bool) (s final : Session) (rest : list LogEntry) :
  CascadeRun flag s final rest ->
  forall entry, In entry rest -> isOwnershipTransfer (le_request entry) = false.
Proof.
  intros Hrun entry Hin. destruct Hrun as [e | tei request e Hreq | tei e Hev | tei];
    simpl in Hin.
  - destruct Hin as [<- | []]. reflexivity.
  - destruct Hin as [<- | [<- | []]]; [reflexivity |].
    exact (enrollmentRequest_not_transfer flag s tei request Hreq).
  - destruct Hin as [<- | Hin]; [reflexivity |].
    apply in_app_or in Hin. destruct Hin as [Hin | [<- | []]]; [| reflexivity].
    apply (enrollmentLog_entries flag s tei entry Hin).
  - destruct Hin as [<- | Hin]; [reflexivity |].
    apply in_app_or in Hin. destruct Hin as [Hin | Hin].
    + apply (enrollmentLog_entries flag s tei entry Hin).
    + apply (eventsLog_entries s tei entry Hin).
Qed.

(** A rejection after the primary transfer is the one the session reports. *)
Lemma cascade_failure (flag : bool) (s final : Session) (rest : list LogEntry) :
  CascadeRun flag s final rest ->
  forall entry e, In entry rest -> le_failure entry = Some e -> final = failedWith e s.
Proof.
  intros Hrun entry e0 Hin Hfail.
  destruct Hrun as [e | tei request e Hreq | tei e Hev | tei]; simpl in Hin.
  - destruct Hin as [<- | []]. simpl in Hfail. congruence.
  - destruct Hin as [<- | [<- | []]]; simpl in Hfail; congruence.
  - destruct Hin as [<- | Hin]; [discriminate |].
    apply in_app_or in Hin. destruct Hin as [Hin | [<- | []]].
    + apply (enrollmentLog_entries flag s tei) in Hin. destruct Hin. congruence.
    + simpl in Hfail. congruence.
  - destruct Hin as [<- | Hin]; [discriminate |].
    apply in_app_or in Hin. destruct Hin as [Hin | Hin].
    + apply (enrollmentLog_entries flag s tei) in Hin. destruct Hin. congruence.
    + apply (eventsLog_entries s tei) in Hin. destruct Hin. congruence.
Qed.

Lemma filter_nothing {A : Type} (f : A -> bool) (l : list A) :
  (forall x, In x l -> f x = false) -> filter f l = [].
Proof.
  induction l as [| x l IH]; simpl; intros H; [reflexivity |].
  rewrite (H x (or_introl eq_refl)). apply IH. intros y Hy. apply H. right. exact Hy.
Qed.

Lemma getValidationMessage_truthy (e : JsError) :
  Js.truthy (getValidationMessage e) = true.
Proof.
  destruct e as [| message details]; [reflexivity |]. unfold getValidationMessage.
  destruct (error_responseMessage (ErrorObject message details)) as [[| c m] |];
    destruct message as [[| c' m'] |]; reflexivity.
Qed.

Lemma phase_failedWith (e : JsError) (s : Session) : phase (failedWith e s) = Failed.
Proof.
  unfold phase. cbn. rewrite getValidationMessage_truthy. reflexivity.
Qed.

Lemma primaryDone_entries (s : Session) (primary : list LogEntry) :
  PrimaryDone s primary ->
  forall entry, In entry primary -> isOwnershipTransfer (le_request entry) = true.
Proof.
  intros [| e He] entry Hin; simpl in Hin.
  - destruct Hin as [<- | []]. reflexivity.
  - destruct Hin as [<- | [<- | []]]; reflexivity.
Qed.

(** The successful ownership transfer of a run is the last call of its
    primary part. *)
Lemma split_at_transfer (s : Session) (primary rest pre post : list LogEntry) (ok : LogEntry) :
  PrimaryDone s primary ->
  (forall entry, In entry rest -> isOwnershipTransfer (le_request entry) = false) ->
  (primary ++ rest = pre ++ ok :: post)%list ->
  isOwnershipTransfer (le_request ok) = true -> le_failure ok = None ->
  (pre ++ [ok])%list = primary /\ post = rest.
Proof.
  intros Hprimary Hrest Heq Hok Hnone.
  assert (Hnot : ~ In ok rest).
  { intros Hin. rewrite (Hrest ok Hin) in Hok. discriminate. }
  destruct Hprimary as [| e He]; simpl in Heq.
  - destruct pre as [| x pre]; simpl in Heq.
    + injection Heq as <- <-. split; reflexivity.
    + injection Heq as _ Heq. exfalso. apply Hnot. rewrite Heq.
      apply in_or_app. right. left. reflexivity.
  - destruct pre as [| x [| y pre]]; simpl in Heq.
    + injection Heq as <- _. discriminate.
    + injection Heq as <- <- <-. split; reflexivity.
    + injection Heq as _ _ Heq. exfalso. apply Hnot. rewrite Heq.
      apply in_or_app. right. left. reflexivity.
Qed.


(** C3. Once the primary ownership transfer has gone through, no later call
    of the run touches the ownership resource (no second transfer, no
    rollback), and if a later call is rejected the run still settles without
    throwing, in the Failed state: submitting flag down, no success message,
    and the rejection's mapped message as the error. *)
Theorem cascade_failure_is_reported
    (World : Type) (engine : forall R : Type, Call R -> World -> (JsError + R) * World)
    (w : World) (flag : bool) (s : Session) (pre post : list LogEntry) (ok : LogEntry) :
  transferBlocked s = false ->
  out_log (fst (run World engine (handleTransferWith flag s) s w))
    = (pre ++ ok :: post)%list ->
  isOwnershipTransfer (le_request ok) = true ->
  le_failure ok = None ->
  (forall entry, In entry post -> isOwnershipTransfer (le_request entry) = false) /\
  (forall entry e,
     In entry post -> le_failure entry = Some e ->
     let o := fst (run World engine (handleTransferWith flag s) s w) in
     out_result o = inr tt /\
     phase (out_session o) = Failed /\
     errorMessage (out_session o) = Some (getValidationMessage e) /\
     statusMessage (out_session o) = None /\
     isSubmitting (out_session o) = false).
Proof.
  intros Hb Hlog Hok Hnone.
  destruct (handleTransfer_run World engine flag s w Hb) as [Hres Hrun].
  rewrite Hlog in Hrun. cbv zeta.
  remember (pre ++ ok :: post)%list as log eqn:Hshape.
  destruct Hrun as [e0 Hno | e0 e' Hyes | primary rest final Hprimary Hrest].
  - exfalso. destruct pre as [| x [| y pre]]; simpl in Hshape;
      try discriminate Hshape.
    injection Hshape as <- _. discriminate Hnone.
  - exfalso. destruct pre as [| x [| y [| z pre]]]; simpl in Hshape;
      try discriminate Hshape.
    + injection Hshape as <- _. discriminate Hnone.
    + injection Hshape as _ <- _. discriminate Hnone.
  - destruct (split_at_transfer s primary rest pre post ok Hprimary
                (cascade_no_transfer flag s final rest Hrest) Hshape Hok Hnone)
      as [_ ->].
    split.
    + exact (cascade_no_transfer flag s final rest Hrest).
    + intros entry e Hin Hfail.
      rewrite (cascade_failure flag s final rest Hrest entry e Hin Hfail).
      split; [exact Hres |]. split; [apply phase_failedWith |].
      repeat split.
Qed.


Lemma cascade_failure_is_reported_witness :
  let script := [Accept; Deliver sampleCase; Reject conflict] in
  let o := fst (run (list Scripted) scriptedEngine
                  (handleTransferWith UPDATE_ENROLLMENT_ORGUNIT readySession)
                  readySession script) in
  let ok := issued readySession (transferRequest readySession trackedEntity) None in
  let post := [fetched readySession sampleCase;
               issued readySession (eventsRequest readySession sampleCase) (Some conflict)] in
  (transferBlocked readySession = false /\
   out_log o = ([] ++ ok :: post)%list /\
   isOwnershipTransfer (le_request ok) = true /\
   le_failure ok = None) /\
  phase (out_session o) = Failed /\
  errorMessage (out_session o) = Some "Import conflict".
Proof.
  cbv zeta.
  assert (Hb : transferBlocked readySession = false) by reflexivity.
  pose proof (cascade_failure_is_reported (list Scripted) scriptedEngine
                [Accept; Deliver sampleCase; Reject conflict]
                UPDATE_ENROLLMENT_ORGUNIT readySession []
                [fetched readySession sampleCase;
                 issued readySession (eventsRequest readySession sampleCase) (Some conflict)]
                (issued readySession (transferRequest readySession trackedEntity) None)
                Hb eq_refl eq_refl eq_refl) as [_ Hfail].
  destruct (Hfail (issued readySession (eventsRequest readySession sampleCase) (Some conflict))
              conflict (or_intror (or_introl eq_refl)) eq_refl) as (_ & Hphase & Herr & _).
  repeat split; assumption.
Defined.

(** ** Events cascade *)

Lemma enrollmentLog_off (s : Session) (tei : TrackedEntity) :
  enrollmentLog UPDATE_ENROLLMENT_ORGUNIT s tei = [].
Proof.
  unfold enrollmentLog, enrollmentRequest.
  destruct (findEnrollment (programId s) tei); reflexivity.
Qed.

Lemma find_program (programId : string) (tei : TrackedEntity) (enrollment : Enrollment) :
  findEnrollment programId tei = Some enrollment ->
  en_program enrollment = programId /\
  exists enrollments, te_enrollments tei = Some enrollments /\ In enrollment enrollments.
Proof.
  unfold findEnrollment. destruct (te_enrollments tei) as [enrollments |]; [| discriminate].
  intros H. apply find_some in H. destruct H as [Hin Heq].
  apply String.eqb_eq in Heq. split; [exact Heq |]. exists enrollments. auto.
Qed.

(** The re-fetch is the only query of a run: it splits the log in one way. *)
Lemma split_at_query (before after pre post : list LogEntry) (q x : LogEntry) :
  (forall entry, In entry before -> isQuery (le_request entry) = false) ->
  (forall entry, In entry after -> isQuery (le_request entry) = false) ->
  isQuery (le_request x) = true ->
  (before ++ q :: after = pre ++ x :: post)%list ->
  pre = before /\ x = q /\ post = after.
Proof.
  revert pre. induction before as [| b before IH]; intros pre Hb Ha Hx Heq.
  - destruct pre as [| y pre]; simpl in Heq.
    + injection Heq as <- <-. repeat split.
    + injection Heq as _ Heq. exfalso.
      assert (Hin : In x after) by (rewrite Heq; apply in_or_app; right; left; reflexivity).
      rewrite (Ha x Hin) in Hx. discriminate.
  - destruct pre as [| y pre]; simpl in Heq.
    + injection Heq as <- _. rewrite (Hb b (or_introl eq_refl)) in Hx. discriminate.
    + injection Heq as <- Heq.
      destruct (IH pre (fun entry H => Hb entry (or_intror H)) Ha Hx Heq) as (-> & -> & ->).
      repeat split.
Qed.

Lemma enrollmentRequest_off (s : Session) (tei : TrackedEntity) :
  enrollmentRequest UPDATE_ENROLLMENT_ORGUNIT s tei = None.
Proof.
  unfold enrollmentRequest. destruct (findEnrollment (programId s) tei); reflexivity.
Qed.

(** What follows the primary transfer in a run of [handleTransfer]: the
    re-fetch, then at most the events import. *)
Lemma refetch_tail (s final : Session) (rest : list LogEntry) :
  CascadeRun UPDATE_ENROLLMENT_ORGUNIT s final rest ->
  exists q after,
    rest = q :: after /\
    le_request q = caseRequest s /\
    (forall entry, In entry after -> isQuery (le_request entry) = false) /\
    (forall tei, q = fetched s tei ->
       (eventsOf s tei = [] -> after = [] /\ final = completed s) /\
       (eventsOf s tei <> [] ->
          exists failure, after = [issued s (eventsRequest s tei) failure])).
Proof.
  intros [e | tei request e Hreq | tei e Hev | tei].
  - exists (issued s (caseRequest s) (Some e)), [].
    split; [reflexivity |]. split; [reflexivity |]. split.
    + intros entry [].
    + intros tei H. discriminate H.
  - rewrite enrollmentRequest_off in Hreq. discriminate.
  - rewrite enrollmentLog_off. simpl.
    exists (fetched s tei), [issued s (eventsRequest s tei) (Some e)].
    split; [reflexivity |]. split; [reflexivity |]. split.
    + intros entry [<- | []]. reflexivity.
    + intros tei' H. injection H as <-. split.
      * intros Ha. contradiction.
      * intros _. eauto.
  - rewrite enrollmentLog_off. simpl.
    exists (fetched s tei), (eventsLog s tei).
    split; [reflexivity |]. split; [reflexivity |]. split.
    + intros entry Hin. unfold eventsLog in Hin.
      destruct (eventsOf s tei); simpl in Hin; [contradiction |].
      destruct Hin as [<- | []]. reflexivity.
    + intros tei' H. injection H as <-. unfold eventsLog. split.
      * intros Ha. rewrite Ha. split; reflexivity.
      * intros Ha. destruct (eventsOf s tei); [contradiction | eauto].
Qed.

Lemma eventsToUpdate_relocated (destination : string) (enrollment : Enrollment) :
  Forall2 (relocated destination) (eventsUnder enrollment)
    (eventsToUpdate destination (Some enrollment)) /\
  Forall (fun payload => ep_enrollment payload = en_enrollment enrollment)
    (eventsToUpdate destination (Some enrollment)).
Proof.
  unfold eventsToUpdate, eventsUnder.
  destruct (en_events enrollment) as [events |]; [| split; constructor].
  induction events as [| event events [IH1 IH2]]; simpl; split; constructor;
    try assumption; try reflexivity.
  unfold relocated. repeat split.
Qed.

Lemma find_first {A : Type} (f : A -> bool) (l : list A) :
  match find f l with
  | Some x => exists before after,
                l = (before ++ x :: after)%list /\
                Forall (fun y => f y = false) before /\ f x = true
  | None => Forall (fun y => f y = false) l
  end.
Proof.
  induction l as [| y l IH]; simpl; [constructor |].
  destruct (f y) eqn:Hy.
  - exists [], l. split; [reflexivity | split; [constructor | exact Hy]].
  - destruct (find f l) as [x |].
    + destruct IH as (before & after & -> & Hbefore & Hx).
      exists (y :: before), after.
      split; [reflexivity | split; [constructor; assumption | exact Hx]].
    + constructor; assumption.
Qed.

(** [findEnrollment] locates the first enrollment of the case for the
    program. *)
Lemma findEnrollment_located (programId : string) (tei : TrackedEntity) :
  Located programId tei (findEnrollment programId tei).
Proof.
  unfold findEnrollment.
  destruct (te_enrollments tei) as [enrollments |] eqn:Hen;
    [| apply located_no_enrollments; exact Hen].
  pose proof (find_first (fun enrollment => Js.seq (en_program enrollment) programId)
                enrollments) as Hfind.
  assert (Hoff : forall l : list Enrollment,
            Forall (fun y => Js.seq (en_program y) programId = false) l ->
            Forall (fun e => en_program e <> programId) l).
  { intros l H. eapply Forall_impl; [| exact H].
    intros e He. apply String.eqb_neq. exact He. }
  destruct (find _ enrollments) as [enrollment |].
  - destruct Hfind as (before & after & -> & Hbefore & Hx).
    apply (located_first programId tei before enrollment after Hen (Hoff before Hbefore)).
    apply String.eqb_eq. exact Hx.
  - apply (located_no_match programId tei enrollments Hen (Hoff enrollments Hfind)).
Qed.

(** The only call of a run that delivers a case is its re-fetch. *)
Lemma transferRun_fetched (flag : bool) (s final : Session) (log : list LogEntry) :
  TransferRun flag s final log ->
  forall x tei, In x log -> le_fetched x = Some tei -> x = fetched s tei.
Proof.
  assert (Hen : forall tei0 x tei,
            In x (enrollmentLog flag s tei0) -> le_fetched x = Some tei -> False).
  { intros tei0 x tei. unfold enrollmentLog.
    destruct (enrollmentRequest flag s tei0); simpl; [| tauto].
    intros [<- | []]. discriminate. }
  assert (Hev : forall tei0 x tei,
            In x (eventsLog s tei0) -> le_fetched x = Some tei -> False).
  { intros tei0 x tei. unfold eventsLog. destruct (eventsOf s tei0); simpl; [tauto |].
    intros [<- | []]. discriminate. }
  intros Hrun x tei Hin Hf.
  destruct Hrun as [e | e e' He | primary rest final Hprimary Hrest]; simpl in Hin.
  - destruct Hin as [<- | []]. discriminate Hf.
  - destruct Hin as [<- | [<- | []]]; discriminate Hf.
  - apply in_app_or in Hin. destruct Hin as [Hin | Hin].
    + destruct Hprimary as [| e He]; simpl in Hin.
      * destruct Hin as [<- | []]. discriminate Hf.
      * destruct Hin as [<- | [<- | []]]; discriminate Hf.
    + destruct Hrest as [e | tei0 request e Hreq | tei0 e Hne | tei0]; simpl in Hin.
      * destruct Hin as [<- | []]. discriminate Hf.
      * destruct Hin as [<- | [<- | []]]; [| discriminate Hf].
        simpl in Hf. injection Hf as <-. reflexivity.
      * destruct Hin as [<- | Hin]; [simpl in Hf; injection Hf as <-; reflexivity |].
        apply in_app_or in Hin. destruct Hin as [Hin | [<- | []]];
          [destruct (Hen tei0 x tei Hin Hf) | discriminate Hf].
      * destruct Hin as [<- | Hin]; [simpl in Hf; injection Hf as <-; reflexivity |].
        apply in_app_or in Hin. destruct Hin as [Hin | Hin];
          [destruct (Hen tei0 x tei Hin Hf) | destruct (Hev tei0 x tei Hin Hf)].
Qed.

(** C4. Once the primary transfer has gone through the case is re-fetched.
    When the re-fetch delivers the case, the enrollment used is the first of
    the case's enrollments whose program is the program context; every event
    under it gets an update payload that copies its identity, status and
    timing, names that enrollment and carries the destination as org unit;
    a non-empty list of payloads goes out in one synchronous UPDATE import
    holding all of them, and that import is the only call after the
    re-fetch; with no such enrollment, or no event under it, nothing is
    sent. *)
Theorem events_import_after_refetch
    (World : Type) (engine : forall R : Type, Call R -> World -> (JsError + R) * World)
    (w : World) (s : Session) :
  transferBlocked s = false ->
  (forall pre ok post,
     out_log (fst (run World engine (handleTransfer s) s w)) = (pre ++ ok :: post)%list ->
     isOwnershipTransfer (le_request ok) = true -> le_failure ok = None ->
     exists entry post',
       post = entry :: post' /\
       le_request entry =
         ReqQuery {| qu_resource := "tracker/trackedEntities/" ++ teiId s;
                     qu_params := [ ("fields", PString trackerFields) ] |})
  /\
  (forall pre entry tei post,
     out_log (fst (run World engine (handleTransfer s) s w))
       = (pre ++ entry :: post)%list ->
     le_fetched entry = Some tei ->
     exists found payloads,
       Located (programId s) tei found /\
       match found with
       | Some enrollment =>
           Forall2 (relocated (destinationOuId s)) (eventsUnder enrollment) payloads /\
           Forall (fun payload => ep_enrollment payload = en_enrollment enrollment)
             payloads
       | None => payloads = []
       end /\
       (payloads = [] -> post = []) /\
       (payloads <> [] ->
        exists failure, post = [issued s (eventsImport payloads) failure])).
Proof.
  intros Hb.
  destruct (handleTransfer_run World engine UPDATE_ENROLLMENT_ORGUNIT s w Hb) as [_ Hrun].
  fold (handleTransfer s) in Hrun. cbv zeta in Hrun.
  remember (out_log (fst (run World engine (handleTransfer s) s w))) as log eqn:Hlog.
  clear Hlog.
  remember (out_session (fst (run World engine (handleTransfer s) s w))) as final eqn:Hfinal.
  clear Hfinal.
  split.
  - intros pre ok post Hshape Hok Hnone.
    destruct Hrun as [e0 Hno | e0 e' Hyes | primary rest final Hprimary Hrest].
    + exfalso. destruct pre as [| x [| y pre]]; simpl in Hshape;
        try discriminate Hshape.
      injection Hshape as <- _. discriminate Hnone.
    + exfalso. destruct pre as [| x [| y [| z pre]]]; simpl in Hshape;
        try discriminate Hshape.
      * injection Hshape as <- _. discriminate Hnone.
      * injection Hshape as _ <- _. discriminate Hnone.
    + destruct (split_at_transfer s primary rest pre post ok Hprimary
                  (cascade_no_transfer _ s final rest Hrest) Hshape Hok Hnone)
        as [_ ->].
      destruct (refetch_tail s final rest Hrest) as (q & after & -> & Hq & _).
      exists q, after. split; [reflexivity | exact Hq].
  - intros pre entry tei post Hshape Hfetched.
    exists (findEnrollment (programId s) tei), (eventsOf s tei).
    split; [apply findEnrollment_located |]. split.
    { unfold eventsOf. destruct (findEnrollment (programId s) tei) as [enrollment |];
        [apply eventsToUpdate_relocated | reflexivity]. }
    assert (Hin : In entry log).
    { rewrite Hshape. apply in_or_app. right. left. reflexivity. }
    pose proof (transferRun_fetched _ s final log Hrun entry tei Hin Hfetched) as ->.
    clear Hin Hfetched.
    destruct Hrun as [e0 Hno | e0 e' Hyes | primary rest final Hprimary Hrest].
    + exfalso. destruct pre as [| x [| y pre]]; simpl in Hshape; discriminate Hshape.
    + exfalso. destruct pre as [| x [| y [| z pre]]]; simpl in Hshape;
        discriminate Hshape.
    + destruct (refetch_tail s final rest Hrest) as (q & after & -> & Hq & Hafter & Htail).
      assert (Hnoquery : forall x, In x primary -> isQuery (le_request x) = false).
      { intros x Hx. pose proof (primaryDone_entries s primary Hprimary x Hx) as Ht.
        destruct (le_request x); [reflexivity | discriminate]. }
      assert (Hisq : isQuery (le_request (fetched s tei)) = true) by reflexivity.
      destruct (split_at_query primary after pre post q (fetched s tei)
                  Hnoquery Hafter Hisq Hshape) as (_ & Hx & ->).
      destruct (Htail tei (eq_sym Hx)) as [Hempty Hsome].
      split.
      * intros H. exact (proj1 (Hempty H)).
      * intros H. exact (Hsome H).
Qed.

Lemma events_import_after_refetch_witness :
  let script := [Accept; Deliver sampleCase; Accept] in
  let o := fst (run (list Scripted) scriptedEngine (handleTransfer readySession)
                  readySession script) in
  let payload id :=
    {| ep_event := id; ep_program := Some "P1"; ep_programStage := Some "S1";
       ep_enrollment := "E1"; ep_orgUnit := "OuB"; ep_status := Some "ACTIVE";
       ep_occurredAt := Some "2024-01-01"; ep_scheduledAt := None |} in
  let pre := [issued readySession (ownershipUpdate "trackedEntity" readySession) None] in
  let post := [issued readySession (eventsImport [payload "V1"; payload "V2"]) None] in
  transferBlocked readySession = false /\
  phase (out_session o) = Success /\
  out_log o = (pre ++ fetched readySession sampleCase :: post)%list /\
  exists found payloads,
    Located (programId readySession) sampleCase found /\
    match found with
    | Some enrollment =>
        Forall2 (relocated (destinationOuId readySession)) (eventsUnder enrollment)
          payloads /\
        Forall (fun payload => ep_enrollment payload = en_enrollment enrollment)
          payloads
    | None => payloads = []
    end /\
    (payloads = [] -> post = []) /\
    (payloads <> [] ->
     exists failure, post = [issued readySession (eventsImport payloads) failure]).
Proof.
  cbv zeta.
  assert (Hb : transferBlocked readySession = false) by reflexivity.
  assert (Hlog :
    out_log (fst (run (list Scripted) scriptedEngine (handleTransfer readySession)
                    readySession [Accept; Deliver sampleCase; Accept]))
    = ([issued readySession (ownershipUpdate "trackedEntity" readySession) None]
       ++ fetched readySession sampleCase
       :: [issued readySession
             (eventsImport
                [ {| ep_event := "V1"; ep_program := Some "P1";
                     ep_programStage := Some "S1"; ep_enrollment := "E1";
                     ep_orgUnit := "OuB"; ep_status := Some "ACTIVE";
                     ep_occurredAt := Some "2024-01-01"; ep_scheduledAt := None |};
                  {| ep_event := "V2"; ep_program := Some "P1";
                     ep_programStage := Some "S1"; ep_enrollment := "E1";
                     ep_orgUnit := "OuB"; ep_status := Some "ACTIVE";
                     ep_occurredAt := Some "2024-01-01"; ep_scheduledAt := None |} ])
             None])%list)
    by (vm_compute; reflexivity).
  split; [exact Hb |]. split; [vm_compute; reflexivity |]. split; [exact Hlog |].
  exact (proj2 (events_import_after_refetch (list Scripted) scriptedEngine
                  [Accept; Deliver sampleCase; Accept] readySession Hb)
           _ _ sampleCase _ Hlog eq_refl).
Defined.

(** ** Mutual exclusion *)

Lemma enabled_unblocked (s : Session) :
  isTransferEnabled s = true -> transferBlocked s = false.
Proof.
  unfold isTransferEnabled, transferBlocked.
  rewrite !andb_true_iff, !orb_false_iff, !negb_true_iff, !negb_false_iff. tauto.
Qed.

Lemma transferRun_sessions (flag : bool) (s final : Session) (log : list LogEntry) :
  TransferRun flag s final log ->
  forall entry, In entry log -> le_session entry = inFlight s.
Proof.
  assert (Hmaybe : forall tei entry,
            In entry (enrollmentLog flag s tei) -> le_session entry = inFlight s).
  { intros tei entry. unfold enrollmentLog.
    destruct (enrollmentRequest flag s tei); simpl; [| tauto].
    intros [<- | []]. reflexivity. }
  assert (Hevents : forall tei entry,
            In entry (eventsLog s tei) -> le_session entry = inFlight s).
  { intros tei entry. unfold eventsLog. destruct (eventsOf s tei); simpl; [tauto |].
    intros [<- | []]. reflexivity. }
  intros Hrun entry Hin.
  destruct Hrun as [e | e e' He | primary rest final Hprimary Hrest]; simpl in Hin.
  - destruct Hin as [<- | []]. reflexivity.
  - destruct Hin as [<- | [<- | []]]; reflexivity.
  - apply in_app_or in Hin. destruct Hin as [Hin | Hin].
    + destruct Hprimary as [| e He]; simpl in Hin.
      * destruct Hin as [<- | []]. reflexivity.
      * destruct Hin as [<- | [<- | []]]; reflexivity.
    + destruct Hrest as [e | tei request e Hreq | tei e Hev | tei]; simpl in Hin.
      * destruct Hin as [<- | []]. reflexivity.
      * destruct Hin as [<- | [<- | []]]; reflexivity.
      * destruct Hin as [<- | Hin]; [reflexivity |].
        apply in_app_or in Hin. destruct Hin as [Hin | [<- | []]]; [| reflexivity].
        exact (Hmaybe tei entry Hin).
      * destruct Hin as [<- | Hin]; [reflexivity |].
        apply in_app_or in Hin. destruct Hin as [Hin | Hin].
        -- exact (Hmaybe tei entry Hin).
        -- exact (Hevents tei entry Hin).
Qed.

(** C8. With the submitting flag set the Transfer button does nothing: no
    engine call, no state change.  The flag is set during every engine call
    of a transfer, so from the session the operator sees while any call of a
    transfer is in flight the button starts no second transfer. *)
Theorem no_transfer_while_submitting
    (World : Type) (engine : forall R : Type, Call R -> World -> (JsError + R) * World) :
  (forall (s : Session) (w : World),
     isSubmitting s = true ->
     run World engine (transferButton s) s w
       = ({| out_result := inr tt; out_session := s; out_log := [] |}, w))
  /\
  (forall (s : Session) (w : World) (entry : LogEntry),
     In entry (out_log (fst (run World engine (transferButton s) s w))) ->
     isSubmitting (le_session entry) = true /\
     forall w',
       out_log (fst (run World engine (transferButton (le_session entry))
                       (le_session entry) w')) = []).
Proof.
  assert (Hidle : forall (s : Session) (w : World),
     isSubmitting s = true ->
     run World engine (transferButton s) s w
       = ({| out_result := inr tt; out_session := s; out_log := [] |}, w)).
  { intros s w Hs. unfold transferButton, isTransferEnabled.
    rewrite Hs, andb_false_r. reflexivity. }
  split; [exact Hidle |].
  intros s w entry Hin.
  unfold transferButton in Hin.
  destruct (isTransferEnabled s) eqn:Hen; [| destruct Hin].
  destruct (handleTransfer_run World engine UPDATE_ENROLLMENT_ORGUNIT s w
              (enabled_unblocked s Hen)) as [_ Hrun].
  fold (handleTransfer s) in Hrun.
  rewrite (transferRun_sessions _ s _ _ Hrun entry Hin).
  split; [reflexivity |].
  intros w'. rewrite (Hidle (inFlight s) w' eq_refl). reflexivity.
Qed.

Lemma no_transfer_while_submitting_witness :
  let s := setIsSubmitting true readySession in
  isSubmitting s = true /\
  run (list Scripted) scriptedEngine (transferButton s) s [Accept]
    = ({| out_result := inr tt; out_session := s; out_log := [] |}, [Accept]).
Proof.
  cbv zeta. split; [reflexivity |].
  apply (proj1 (no_transfer_while_submitting (list Scripted) scriptedEngine)).
  reflexivity.
Defined.

(** The handler's own guard does not read the submitting flag: the mutual
    exclusion rests on the button being disabled. *)
Remark handleTransfer_guard_ignores_submitting :
  let s := setIsSubmitting true readySession in
  isSubmitting s = true /\
  map le_request
    (out_log (fst (run (list Scripted) scriptedEngine (handleTransfer s) s
                     [Reject conflict])))
  = [transferRequest s trackedEntity].
Proof. split; reflexivity. Qed.

(* ================================================================= *)
(** ** Stale search responses *)

Lemma numbered_map (f : SearchRequest -> SearchRequest) (rs : list SearchRequest) :
  (forall r, sr_id (f r) = sr_id r) -> numbered rs -> numbered (map f rs).
Proof.
  intros Hf. induction rs as [| r rs IH]; simpl; [trivial |].
  intros [Hid Hrest]. rewrite Hf, length_map. split; [exact Hid | exact (IH Hrest)].
Qed.

Lemma numbered_deactivate (id : nat) (rs : list SearchRequest) :
  numbered rs -> numbered (deactivate id rs).
Proof.
  apply numbered_map. intros r. destruct (Nat.eqb (sr_id r) id); reflexivity.
Qed.

Lemma numbered_settled (id : nat) (rs : list SearchRequest) :
  numbered rs -> numbered (settled id rs).
Proof.
  apply numbered_map. intros r. destruct (Nat.eqb (sr_id r) id); reflexivity.
Qed.

Lemma searchCleanup_mounted (p : Page) : mounted (searchCleanup p) = mounted p.
Proof. unfold searchCleanup. destruct (cleanup p); reflexivity. Qed.

Lemma searchCleanup_numbered (p : Page) :
  numbered (requests p) -> numbered (requests (searchCleanup p)).
Proof.
  unfold searchCleanup. destruct (cleanup p); [apply numbered_deactivate | trivial].
Qed.

(** After the cleanup no closure is live any more. *)
Lemma searchCleanup_noneActive (p : Page) :
  (forall r, In r (requests p) -> sr_isActive r = true -> cleanup p = Some (sr_id r)) ->
  noneActive (requests (searchCleanup p)).
Proof.
  intros Hown. unfold searchCleanup, noneActive.
  destruct (cleanup p) as [id |] eqn:Hc.
  - cbn [requests]. intros r Hin. unfold deactivate in Hin.
    apply in_map_iff in Hin. destruct Hin as (r0 & <- & Hin0).
    destruct (Nat.eqb (sr_id r0) id) eqn:E; [reflexivity |].
    destruct (sr_isActive r0) eqn:Ha; [| reflexivity].
    specialize (Hown r0 Hin0 Ha). injection Hown as Hid.
    rewrite <- Hid, Nat.eqb_refl in E. discriminate.
  - intros r Hin. destruct (sr_isActive r) eqn:Ha; [| reflexivity].
    specialize (Hown r Hin Ha). discriminate.
Qed.

Lemma noneActive_liveOnly (p : Page) : noneActive (requests p) -> liveOnly p.
Proof.
  intros Hnone r Hin Ha. rewrite (Hnone r Hin) in Ha. discriminate.
Qed.

(** A page that differs only in fields no request depends on. *)
Lemma liveOnly_same (p p' : Page) :
  mounted p' = mounted p -> cleanup p' = cleanup p -> requests p' = requests p ->
  debouncedSearchText (session p') = debouncedSearchText (session p) ->
  liveOnly p -> liveOnly p'.
Proof.
  intros Hm Hc Hr Hd Hlive r Hin Ha. rewrite Hm, Hc, Hr, Hd in *.
  exact (Hlive r Hin Ha).
Qed.

Lemma searchEffect_invariant (p : Page) :
  mounted p = true -> numbered (requests p) -> noneActive (requests p) ->
  searchInvariant (searchEffect p).
Proof.
  intros Hm Hnum Hnone. unfold searchEffect.
  destruct (String.length (Js.trim (debouncedSearchText (session p))) <? MIN_SEARCH_LENGTH)%nat.
  - split; [exact Hnum |]. apply noneActive_liveOnly. exact Hnone.
  - split.
    + cbn [requests numbered sr_id]. split; [reflexivity | exact Hnum].
    + intros r Hin Ha. cbn [requests] in Hin. destruct Hin as [<- | Hin].
      * cbn. rewrite Hm. repeat split.
      * rewrite (Hnone r Hin) in Ha. discriminate.
Qed.

Lemma debounceEffect_same (before : string) (p : Page) :
  mounted (debounceEffect before p) = mounted p /\
  cleanup (debounceEffect before p) = cleanup p /\
  requests (debounceEffect before p) = requests p /\
  session (debounceEffect before p) = session p.
Proof.
  unfold debounceEffect. destruct (String.eqb before (searchText (session p)));
    repeat split.
Qed.

Lemma loadSearchResults_resume_debounced (isActive : bool) (resp : SearchResponse)
    (s : Session) :
  debouncedSearchText (loadSearchResults_resume isActive resp s) = debouncedSearchText s.
Proof.
  destruct isActive, resp as [[results |] | e]; reflexivity.
Qed.

Lemma loadSearchResults_resume_stale (resp : SearchResponse) (s : Session) :
  loadSearchResults_resume false resp s = s.
Proof. destruct resp; reflexivity. Qed.

Lemma settled_liveOnly (id : nat) (s' : Session) (p : Page) :
  debouncedSearchText s' = debouncedSearchText (session p) ->
  liveOnly p ->
  liveOnly {| session := s'; mounted := mounted p; timer := timer p;
              requests := settled id (requests p); cleanup := cleanup p |}.
Proof.
  intros Hd Hlive r' Hin Ha. cbn [requests mounted cleanup session] in *.
  unfold settled in Hin. apply in_map_iff in Hin. destruct Hin as (r & Hr & Hin).
  assert (Hsame : sr_id r' = sr_id r /\ sr_owner r' = sr_owner r /\
                  sr_filter r' = sr_filter r /\ sr_isActive r' = sr_isActive r).
  { subst r'. destruct (Nat.eqb (sr_id r) id); repeat split. }
  destruct Hsame as (Hi & Ho & Hf & Hact).
  rewrite Hact in Ha. destruct (Hlive r Hin Ha) as (Hm & Hc & Hown & Hfil & Hhd).
  rewrite Hi, Ho, Hf, Hd. repeat split; try assumption.
  unfold settled. destruct (requests p) as [| r0 rest]; [discriminate |].
  simpl in Hhd. injection Hhd as ->. simpl. rewrite Hr. reflexivity.
Qed.

Lemma mount_invariant (initialTeiId programId currentOrgUnitId : string) :
  searchInvariant (mount initialTeiId programId currentOrgUnitId).
Proof.
  split; [exact I |]. intros r [].
Qed.

Lemma step_invariant (p : Page) (ev : UiEvent) :
  searchInvariant p -> searchInvariant (step p ev).
Proof.
  intros [Hnum Hlive].
  assert (Hown : forall r, In r (requests p) -> sr_isActive r = true ->
                           cleanup p = Some (sr_id r)).
  { intros r Hin Ha. exact (proj1 (proj2 (Hlive r Hin Ha))). }
  destruct ev as [value | | orgUnit | selected id | value | id resp |]; cbn [step].
  - destruct (mounted p) eqn:Hm; cbn [negb]; [| split; assumption].
    destruct (debounceEffect_same (searchText (session p))
                (withSession (setSearchText value) p)) as (H1 & H2 & H3 & H4).
    split; [rewrite H3; exact Hnum |].
    apply (liveOnly_same p); rewrite ?H1, ?H2, ?H3, ?H4; cbn; rewrite ?Hm;
      try reflexivity; assumption.
  - destruct (mounted p) eqn:Hm; cbn [negb]; [| split; assumption].
    destruct (timer p) as [value |]; [| split; assumption].
    destruct (String.eqb value (debouncedSearchText (session p))).
    + split; [exact Hnum |]. apply (liveOnly_same p); cbn; rewrite ?Hm; try reflexivity; assumption.
    + apply searchEffect_invariant.
      * rewrite searchCleanup_mounted. reflexivity.
      * apply searchCleanup_numbered. exact Hnum.
      * apply searchCleanup_noneActive. exact Hown.
  - destruct (mounted p) eqn:Hm; cbn [negb]; [| split; assumption].
    destruct (debounceEffect_same (searchText (session p))
                (withSession (pickSearchResult orgUnit) p)) as (H1 & H2 & H3 & H4).
    split; [rewrite H3; exact Hnum |].
    apply (liveOnly_same p); rewrite ?H1, ?H2, ?H3, ?H4; cbn; rewrite ?Hm;
      try reflexivity; assumption.
  - destruct (mounted p) eqn:Hm; cbn [negb]; [| split; assumption].
    split; [exact Hnum |]. apply (liveOnly_same p); cbn; rewrite ?Hm; try reflexivity; assumption.
  - destruct (mounted p) eqn:Hm; cbn [negb]; [| split; assumption].
    split; [exact Hnum |]. apply (liveOnly_same p); cbn; rewrite ?Hm; try reflexivity; assumption.
  - destruct (lookup id (requests p)) as [r |]; [| split; assumption].
    destruct (sr_pending r); [| split; assumption].
    split.
    + cbn [requests]. apply numbered_settled. exact Hnum.
    + apply settled_liveOnly; [apply loadSearchResults_resume_debounced | exact Hlive].
  - destruct (mounted p) eqn:Hm; cbn [negb]; [| split; assumption].
    split.
    + cbn [requests]. apply searchCleanup_numbered. exact Hnum.
    + apply noneActive_liveOnly. cbn [requests].
      apply searchCleanup_noneActive. exact Hown.
Qed.

Lemma runEvents_invariant (evs : list UiEvent) (p : Page) :
  searchInvariant p -> searchInvariant (runEvents p evs).
Proof.
  revert p. induction evs as [| ev evs IH]; intros p Hp; [exact Hp |].
  simpl. apply IH. apply step_invariant. exact Hp.
Qed.

Lemma lookup_found (id : nat) (rs : list SearchRequest) (r : SearchRequest) :
  lookup id rs = Some r -> In r rs /\ sr_id r = id.
Proof.
  unfold lookup. intros H. apply find_some in H. destruct H as [Hin Hid].
  apply Nat.eqb_eq in Hid. auto.
Qed.

(** C7. In every state reached from mount by query changes, debounce
    timeouts, picks, unmount and responses arriving in any order, a response
    commits only for the request that was issued last, for the debounced
    text that is still current, on a page still mounted: a response whose
    request has been superseded, whose debounced text has changed or whose
    page is unmounted leaves the whole session, and so the search results,
    the search error and the searching flag, as it was. *)
Theorem stale_search_response_is_dropped
    (initialTeiId programId currentOrgUnitId : string) (evs : list UiEvent)
    (id : nat) (resp : SearchResponse) (r : SearchRequest) :
  let p := runEvents (mount initialTeiId programId currentOrgUnitId) evs in
  lookup id (requests p) = Some r ->
  ((mounted p = false \/
    sr_owner r <> debouncedSearchText (session p) \/
    hd_error (requests p) <> Some r) ->
   session (step p (SearchSettles id resp)) = session p)
  /\
  (searchState (session (step p (SearchSettles id resp))) <> searchState (session p) ->
   mounted p = true /\
   hd_error (requests p) = Some r /\
   sr_owner r = debouncedSearchText (session p) /\
   sr_filter r = Js.trim (debouncedSearchText (session p))).
Proof.
  intros p Hlook.
  assert (Hinv : searchInvariant p).
  { apply runEvents_invariant, mount_invariant. }
  destruct Hinv as [_ Hlive].
  destruct (lookup_found id (requests p) r Hlook) as [Hin _].
  assert (Hstale : sr_isActive r = false ->
                   session (step p (SearchSettles id resp)) = session p).
  { intros Ha. cbn [step]. rewrite Hlook, Ha.
    destruct (sr_pending r); [| reflexivity].
    cbn [session]. apply loadSearchResults_resume_stale. }
  destruct (sr_isActive r) eqn:Ha.
  - destruct (Hlive r Hin Ha) as (Hm & _ & Hown & Hfil & Hhd).
    split.
    + intros [H | [H | H]]; [congruence | contradiction | contradiction].
    + intros _. rewrite <- Hown. auto.
  - split.
    + intros _. apply Hstale. reflexivity.
    + intros Hchanged. exfalso. apply Hchanged. rewrite Hstale; reflexivity.
Qed.

Lemma stale_search_response_is_dropped_witness :
  let p := runEvents (mount "T1" "P1" "OuA") supersedingEvents in
  let r := {| sr_id := 0; sr_owner := "ab"; sr_filter := "ab";
              sr_isActive := false; sr_pending := true |} in
  (lookup 0 (requests p) = Some r /\
   sr_owner r <> debouncedSearchText (session p)) /\
  session (step p (SearchSettles 0 (Resolved (Some [clinicB])))) = session p.
Proof.
  cbv zeta.
  assert (Hlook : lookup 0 (requests (runEvents (mount "T1" "P1" "OuA") supersedingEvents))
                  = Some {| sr_id := 0; sr_owner := "ab"; sr_filter := "ab";
                            sr_isActive := false; sr_pending := true |})
    by (vm_compute; reflexivity).
  assert (Hchanged : sr_owner {| sr_id := 0; sr_owner := "ab"; sr_filter := "ab";
                                 sr_isActive := false; sr_pending := true |}
                     <> debouncedSearchText
                          (session (runEvents (mount "T1" "P1" "OuA") supersedingEvents)))
    by (vm_compute; discriminate).
  split; [split; assumption |].
  exact (proj1 (stale_search_response_is_dropped "T1" "P1" "OuA" supersedingEvents
                  0 (Resolved (Some [clinicB])) _ Hlook)
           (or_intror (or_introl Hchanged))).
Defined.

(** The response of the live request does commit. *)
Example live_search_response_commits :
  searchState (session (step livePage (SearchSettles 0 (Resolved (Some [clinicB])))))
  = ([clinicB], None, false) /\
  searchState (session (step livePage (SearchSettles 0 (Rejected NotAnObject))))
  = ([], Some "Failed to search org units.", false).
Proof. split; vm_compute; reflexivity. Qed.

(* ================================================================= *)
(** * Further properties *)

(** ** Transfer executor: guard, settlement, footprint *)

Lemma isSameOrgUnit_true_iff (s : Session) :
  isSameOrgUnit s = true <->
  currentOuId s <> "" /\ destinationOuId s = currentOuId s.
Proof.
  unfold isSameOrgUnit, Js.seq.
  rewrite !andb_true_iff, !truthy_true_iff, String.eqb_eq. split.
  - intros [[Hc _] Heq]. auto.
  - intros [Hc Heq]. rewrite Heq. auto.
Qed.

Lemma transferBlocked_true_iff (s : Session) :
  transferBlocked s = true <->
  teiId s = "" \/ programId s = "" \/ destinationOuId s = "" \/
  destinationOuId s = currentOuId s.
Proof.
  unfold transferBlocked.
  rewrite !orb_true_iff, !negb_true_iff, !truthy_false_iff, isSameOrgUnit_true_iff.
  split.
  - intros [[[H | H] | H] | [_ H]]; auto.
  - intros [H | [H | [H | H]]]; auto.
    destruct (String.eqb_spec (destinationOuId s) "") as [E | E]; [auto |].
    right. split; [congruence | exact H].
Qed.

(** X1. [handleTransfer] is blocked exactly when the case id, the program id
    or the destination id is empty or the destination is the current org
    unit; blocked, it issues no engine call, changes no state and does not
    throw. *)
Theorem blocked_transfer_does_nothing
    (World : Type) (engine : forall R : Type, Call R -> World -> (JsError + R) * World)
    (flag : bool) (s : Session) (w : World) :
  (transferBlocked s = true <->
     teiId s = "" \/ programId s = "" \/ destinationOuId s = "" \/
     destinationOuId s = currentOuId s) /\
  (transferBlocked s = true ->
     run World engine (handleTransferWith flag s) s w
       = ({| out_result := inr tt; out_session := s; out_log := [] |}, w)).
Proof.
  split; [apply transferBlocked_true_iff |].
  intros Hb. unfold handleTransferWith. rewrite Hb. reflexivity.
Qed.

(** A session whose destination is its current org unit. *)
Lemma blocked_transfer_does_nothing_witness :
  let s := setSelectedOuId (Some " OuA ") (initialSession "T1" "P1" "OuA") in
  transferBlocked s = true /\
  run (list Scripted) scriptedEngine (handleTransferWith true s) s [Accept]
    = ({| out_result := inr tt; out_session := s; out_log := [] |}, [Accept]).
Proof.
  cbv zeta.
  assert (Hb : transferBlocked
                 (setSelectedOuId (Some " OuA ") (initialSession "T1" "P1" "OuA")) = true)
    by (vm_compute; reflexivity).
  exact (conj Hb
           (proj2 (blocked_transfer_does_nothing (list Scripted) scriptedEngine true
                     (setSelectedOuId (Some " OuA ") (initialSession "T1" "P1" "OuA"))
                     [Accept]) Hb)).
Defined.

Lemma phase_completed (s : Session) : phase (completed s) = Success.
Proof. reflexivity. Qed.

(** The steps after the primary transfer end at the first rejection, or
    complete. *)
Lemma cascade_ends (flag : bool) (s final : Session) (rest : list LogEntry) :
  CascadeRun flag s final rest ->
  exists pre entry,
    rest = (pre ++ [entry])%list /\
    (forall x, In x pre -> le_failure x = None) /\
    ((le_failure entry = None /\ final = completed s) \/
     (exists e, le_failure entry = Some e /\ final = failedWith e s)).
Proof.
  intros [e | tei request e Hreq | tei e Hev | tei].
  - exists [], (issued s (caseRequest s) (Some e)).
    split; [reflexivity |]. split; [intros x [] |]. right. exists e. split; reflexivity.
  - exists [fetched s tei], (issued s request (Some e)).
    split; [reflexivity |]. split; [intros x [<- | []]; reflexivity |]. right. exists e. split; reflexivity.
  - exists (fetched s tei :: enrollmentLog flag s tei),
           (issued s (eventsRequest s tei) (Some e)).
    split; [reflexivity |]. split; [| right; exists e; split; reflexivity].
    intros x [<- | Hin]; [reflexivity |].
    exact (proj2 (enrollmentLog_entries flag s tei x Hin)).
  - unfold eventsLog. destruct (eventsOf s tei) as [| ev evs].
    + rewrite app_nil_r. unfold enrollmentLog.
      destruct (enrollmentRequest flag s tei) as [request |].
      * exists [fetched s tei], (issued s request None).
        split; [reflexivity |]. split; [intros x [<- | []]; reflexivity |]. left. auto.
      * exists [], (fetched s tei).
        split; [reflexivity |]. split; [intros x [] |]. left. auto.
    + exists (fetched s tei :: enrollmentLog flag s tei),
             (issued s (eventsRequest s tei) None).
      split; [reflexivity |]. split; [| left; auto].
      intros x [<- | Hin]; [reflexivity |].
      exact (proj2 (enrollmentLog_entries flag s tei x Hin)).
Qed.

Lemma primaryDone_failures (s : Session) (primary : list LogEntry) :
  PrimaryDone s primary ->
  forall x e, In x primary -> le_failure x = Some e ->
    le_request x = transferRequest s trackedEntity /\
    isUnknownParamError e "trackedEntity" = true.
Proof.
  intros [| e0 He0] x e Hin Hf; simpl in Hin.
  - destruct Hin as [<- | []]. discriminate.
  - destruct Hin as [<- | [<- | []]]; simpl in Hf; [| discriminate].
    injection Hf as <-. auto.
Qed.

(** X2. Past its guard [handleTransfer] never throws and always lowers the
    submitting flag.  The run stops at its last engine call, which decides
    the outcome: accepted, the session shows success with the completion
    message and no error; rejected, it shows failure with the rejection's
    mapped message and no success message.  The only rejection a run
    survives is an unknown-parameter rejection of the first attempt. *)
Theorem transfer_outcome_follows_last_call
    (World : Type) (engine : forall R : Type, Call R -> World -> (JsError + R) * World)
    (w : World) (flag : bool) (s : Session) :
  transferBlocked s = false ->
  out_result (fst (run World engine (handleTransferWith flag s) s w)) = inr tt /\
  isSubmitting (out_session (fst (run World engine (handleTransferWith flag s) s w)))
    = false /\
  exists pre entry,
    out_log (fst (run World engine (handleTransferWith flag s) s w))
      = (pre ++ [entry])%list /\
    (forall x e, In x pre -> le_failure x = Some e ->
       le_request x = transferRequest s trackedEntity /\
       isUnknownParamError e "trackedEntity" = true) /\
    ((le_failure entry = None /\
      phase (out_session (fst (run World engine (handleTransferWith flag s) s w)))
        = Success /\
      statusMessage (out_session (fst (run World engine (handleTransferWith flag s) s w)))
        = Some "Transfer completed." /\
      errorMessage (out_session (fst (run World engine (handleTransferWith flag s) s w)))
        = None) \/
     (exists e,
        le_failure entry = Some e /\
        phase (out_session (fst (run World engine (handleTransferWith flag s) s w)))
          = Failed /\
        statusMessage (out_session (fst (run World engine (handleTransferWith flag s) s w)))
          = None /\
        errorMessage (out_session (fst (run World engine (handleTransferWith flag s) s w)))
          = Some (getValidationMessage e))).
Proof.
  intros Hb.
  destruct (handleTransfer_run World engine flag s w Hb) as [Hres Hrun].
  split; [exact Hres |].
  destruct Hrun as [e Hno | e e' Hyes | primary rest final Hprimary Hrest].
  - split; [reflexivity |].
    exists [], (issued s (transferRequest s trackedEntity) (Some e)).
    split; [reflexivity |]. split; [intros x e0 [] |].
    right. exists e. split; [reflexivity |]. split; [apply phase_failedWith |].
    split; reflexivity.
  - split; [reflexivity |].
    exists [issued s (transferRequest s trackedEntity) (Some e)],
           (issued s (transferRequest s trackedEntityInstance) (Some e')).
    split; [reflexivity |]. split.
    + intros x e0 [<- | []] Hf. injection Hf as <-. auto.
    + right. exists e'. split; [reflexivity |]. split; [apply phase_failedWith |].
      split; reflexivity.
  - destruct (cascade_ends flag s final rest Hrest)
      as (pre & entry & -> & Hpre & Hend).
    assert (Hsub : isSubmitting final = false).
    { destruct Hend as [[_ ->] | (e & _ & ->)]; reflexivity. }
    split; [exact Hsub |].
    exists (primary ++ pre)%list, entry.
    split; [apply app_assoc |]. split.
    + intros x e Hin Hf. apply in_app_or in Hin. destruct Hin as [Hin | Hin].
      * exact (primaryDone_failures s primary Hprimary x e Hin Hf).
      * rewrite (Hpre x Hin) in Hf. discriminate.
    + destruct Hend as [[Hnone ->] | (e & Hsome & ->)].
      * left. split; [exact Hnone |]. split; [apply phase_completed |].
        split; reflexivity.
      * right. exists e. split; [exact Hsome |]. split; [apply phase_failedWith |].
        split; reflexivity.
Qed.

Lemma transfer_outcome_follows_last_call_witness :
  transferBlocked readySession = false /\
  out_result (fst (run (list Scripted) scriptedEngine
                     (handleTransferWith false readySession) readySession
                     [Reject unknownParameter; Accept; Reject conflict])) = inr tt /\
  isSubmitting (out_session (fst (run (list Scripted) scriptedEngine
                     (handleTransferWith false readySession) readySession
                     [Reject unknownParameter; Accept; Reject conflict]))) = false.
Proof.
  assert (Hb : transferBlocked readySession = false) by (vm_compute; reflexivity).
  pose proof (transfer_outcome_follows_last_call (list Scripted) scriptedEngine
                [Reject unknownParameter; Accept; Reject conflict] false readySession Hb)
    as (Hres & Hsub & _).
  exact (conj Hb (conj Hres Hsub)).
Defined.

Lemma transferRun_final (flag : bool) (s final : Session) (log : list LogEntry) :
  TransferRun flag s final log ->
  final = completed s \/ exists e, final = failedWith e s.
Proof.
  intros [e Hno | e e' Hyes | primary rest final' Hprimary Hrest]; eauto.
  destruct (cascade_ends flag s final' rest Hrest) as (pre & entry & _ & _ & Hend).
  destruct Hend as [[_ H] | (e & _ & H)]; eauto.
Qed.

(** What a run of [handleTransferWith] leaves behind, blocked or not. *)
Lemma handleTransfer_cases
    (World : Type) (engine : forall R : Type, Call R -> World -> (JsError + R) * World)
    (w : World) (flag : bool) (s : Session) :
  (out_session (fst (run World engine (handleTransferWith flag s) s w)) = s /\
   out_log (fst (run World engine (handleTransferWith flag s) s w)) = []) \/
  TransferRun flag s
    (out_session (fst (run World engine (handleTransferWith flag s) s w)))
    (out_log (fst (run World engine (handleTransferWith flag s) s w))).
Proof.
  destruct (transferBlocked s) eqn:Hb.
  - left. unfold handleTransferWith. rewrite Hb. split; reflexivity.
  - right. exact (proj2 (handleTransfer_run World engine flag s w Hb)).
Qed.

Lemma transfer_frame
    (World : Type) (engine : forall R : Type, Call R -> World -> (JsError + R) * World)
    (w : World) (flag : bool) (s : Session) :
  sameSelection (out_session (fst (run World engine (handleTransferWith flag s) s w))) s.
Proof.
  destruct (handleTransfer_cases World engine w flag s) as [[-> _] | Hrun].
  - unfold sameSelection. repeat split.
  - destruct (transferRun_final flag s _ _ Hrun) as [-> | [e ->]];
      unfold sameSelection; repeat split.
Qed.

(** X3. Whatever the engine answers, [handleTransfer] writes nothing but
    the submitting flag, the status message and the error message: the case
    and program context, the selection, the current org unit and the whole
    search state come out as they went in. *)
Theorem transfer_leaves_selection_and_search
    (World : Type) (engine : forall R : Type, Call R -> World -> (JsError + R) * World)
    (w : World) (flag : bool) (s : Session) :
  sameSelection (out_session (fst (run World engine (handleTransferWith flag s) s w))) s.
Proof.
  exact (transfer_frame World engine w flag s).
Qed.

Lemma enrollmentLog_length (flag : bool) (s : Session) (tei : TrackedEntity) :
  List.length (enrollmentLog flag s tei) <= 1.
Proof.
  unfold enrollmentLog. destruct (enrollmentRequest flag s tei); simpl; lia.
Qed.

Lemma eventsLog_length (s : Session) (tei : TrackedEntity) :
  List.length (eventsLog s tei) <= 1.
Proof.
  unfold eventsLog. destruct (eventsOf s tei); simpl; lia.
Qed.

Lemma cascade_length (flag : bool) (s final : Session) (rest : list LogEntry) :
  CascadeRun flag s final rest ->
  List.length rest <= 3 /\
  (flag = false -> List.length rest <= 2 /\
                   forall entry, In entry rest -> isEnrollmentImport (le_request entry) = false).
Proof.
  intros Hrun.
  pose proof (fun tei => enrollmentLog_length flag s tei) as Hen.
  pose proof (fun tei => eventsLog_length s tei) as Hev.
  destruct Hrun as [e | tei request e Hreq | tei e Hne | tei].
  - split; [simpl; lia |]. intros _. split; [simpl; lia |].
    intros entry [<- | []]. reflexivity.
  - split; [simpl; lia |]. intros ->.
    change false with UPDATE_ENROLLMENT_ORGUNIT in Hreq.
    rewrite enrollmentRequest_off in Hreq. discriminate.
  - split.
    + simpl. rewrite length_app. simpl. specialize (Hen tei). lia.
    + intros ->. change false with UPDATE_ENROLLMENT_ORGUNIT.
      rewrite enrollmentLog_off. split; [simpl; lia |].
      intros entry [<- | [<- | []]]; reflexivity.
  - split.
    + simpl. rewrite length_app. specialize (Hen tei). specialize (Hev tei). lia.
    + intros ->. change false with UPDATE_ENROLLMENT_ORGUNIT.
      rewrite enrollmentLog_off. split.
      * simpl. specialize (Hev tei). lia.
      * intros entry [<- | Hin]; [reflexivity |]. simpl in Hin.
        unfold eventsLog in Hin. destruct (eventsOf s tei); [destruct Hin |].
        destruct Hin as [<- | []]. reflexivity.
Qed.

(** X4. One click costs at most four engine calls: at most two on the
    ownership resource, at most one case query and at most one events
    import.  With the enrollment switch as shipped no enrollment import is
    ever sent. *)
Theorem transfer_calls_are_bounded
    (World : Type) (engine : forall R : Type, Call R -> World -> (JsError + R) * World)
    (w : World) (s : Session) :
  List.length (out_log (fst (run World engine (handleTransfer s) s w))) <= 4 /\
  List.length (filter (fun entry => isOwnershipTransfer (le_request entry))
                 (out_log (fst (run World engine (handleTransfer s) s w)))) <= 2 /\
  List.length (filter (fun entry => isQuery (le_request entry))
                 (out_log (fst (run World engine (handleTransfer s) s w)))) <= 1 /\
  List.length (filter (fun entry => isEventsImport (le_request entry))
                 (out_log (fst (run World engine (handleTransfer s) s w)))) <= 1 /\
  forall entry,
    In entry (out_log (fst (run World engine (handleTransfer s) s w))) ->
    isEnrollmentImport (le_request entry) = false.
Proof.
  unfold handleTransfer.
  destruct (handleTransfer_cases World engine w UPDATE_ENROLLMENT_ORGUNIT s)
    as [[_ ->] | Hrun].
  { simpl. refine (conj _ (conj _ (conj _ (conj _ _)))); try lia; intros entry []. }
  destruct Hrun as [e Hno | e e' Hyes | primary rest final Hprimary Hrest].
  - simpl. refine (conj _ (conj _ (conj _ (conj _ _)))); try lia;
      intros entry [<- | []]; reflexivity.
  - simpl. refine (conj _ (conj _ (conj _ (conj _ _)))); try lia;
      intros entry [<- | [<- | []]]; reflexivity.
  - destruct (cascade_length _ s final rest Hrest) as [_ Hoff].
    destruct (Hoff eq_refl) as [Hlen Hnoenr].
    assert (Hpe : filter (fun entry => isEventsImport (le_request entry)) primary = []).
    { destruct Hprimary; reflexivity. }
    assert (He : List.length (filter (fun entry => isEventsImport (le_request entry)) rest)
                 <= 1).
    { destruct (refetch_tail s final rest Hrest) as (q & after & -> & Hq & _).
      simpl. rewrite Hq. simpl. simpl in Hlen.
      pose proof (filter_length_le (fun entry => isEventsImport (le_request entry)) after).
      lia. }
    assert (Hplen : List.length primary <= 2).
    { destruct Hprimary; simpl; lia. }
    assert (Hq : List.length (filter (fun entry => isQuery (le_request entry)) rest) <= 1).
    { destruct (refetch_tail s final rest Hrest) as (q & after & -> & _ & Hafter & _).
      simpl. rewrite (filter_nothing _ after Hafter).
      destruct (isQuery (le_request q)); simpl; lia. }
    assert (Hpq : filter (fun entry => isQuery (le_request entry)) primary = []).
    { apply filter_nothing. intros entry Hin.
      pose proof (primaryDone_entries s primary Hprimary entry Hin) as Ht.
      destruct (le_request entry); [reflexivity | discriminate]. }
    rewrite !filter_app, !length_app, Hpq, Hpe.
    rewrite (filter_nothing _ rest (cascade_no_transfer _ s final rest Hrest)).
    pose proof (filter_length_le (fun entry => isOwnershipTransfer (le_request entry)) primary).
    simpl. refine (conj _ (conj _ (conj _ (conj _ _)))); try lia.
    intros entry Hin. apply in_app_or in Hin. destruct Hin as [Hin | Hin].
    + pose proof (primaryDone_entries s primary Hprimary entry Hin) as Ht.
      destruct Hprimary as [| e0 He0]; simpl in Hin.
      * destruct Hin as [<- | []]. reflexivity.
      * destruct Hin as [<- | [<- | []]]; reflexivity.
    + exact (Hnoenr entry Hin).
Qed.

Lemma eventsToUpdate_orgUnit (destination : string) (enrollment : option Enrollment) :
  Forall (fun e => ep_orgUnit e = destination) (eventsToUpdate destination enrollment).
Proof.
  unfold eventsToUpdate. destruct enrollment as [enrollment |]; [| constructor].
  destruct (en_events enrollment) as [events |]; [| constructor].
  induction events as [| event events IH]; simpl; constructor; [reflexivity | exact IH].
Qed.

Lemma cascade_writes (flag : bool) (s final : Session) (rest : list LogEntry) :
  CascadeRun flag s final rest ->
  forall entry, In entry rest -> writesTo (destinationOuId s) (le_request entry).
Proof.
  assert (Hev : forall tei, writesTo (destinationOuId s) (eventsRequest s tei)).
  { intros tei. simpl. apply eventsToUpdate_orgUnit. }
  assert (Hreq : forall tei request,
            enrollmentRequest flag s tei = Some request ->
            writesTo (destinationOuId s) request).
  { intros tei request. unfold enrollmentRequest.
    destruct (findEnrollment (programId s) tei) as [enrollment |]; [| discriminate].
    destruct (flag && Js.truthy (en_enrollment enrollment)); [| discriminate].
    intros H. injection H as <-. simpl. constructor; [reflexivity | constructor]. }
  assert (Hen : forall tei entry,
            In entry (enrollmentLog flag s tei) ->
            writesTo (destinationOuId s) (le_request entry)).
  { intros tei entry. unfold enrollmentLog.
    destruct (enrollmentRequest flag s tei) as [request |] eqn:E; simpl; [| tauto].
    intros [<- | []]. exact (Hreq tei request E). }
  intros Hrun entry Hin.
  destruct Hrun as [e | tei request e Hr | tei e Hne | tei]; simpl in Hin.
  - destruct Hin as [<- | []]. exact I.
  - destruct Hin as [<- | [<- | []]]; [exact I | exact (Hreq tei request Hr)].
  - destruct Hin as [<- | Hin]; [exact I |].
    apply in_app_or in Hin. destruct Hin as [Hin | [<- | []]];
      [exact (Hen tei entry Hin) | exact (Hev tei)].
  - destruct Hin as [<- | Hin]; [exact I |].
    apply in_app_or in Hin. destruct Hin as [Hin | Hin]; [exact (Hen tei entry Hin) |].
    unfold eventsLog in Hin. destruct (eventsOf s tei) eqn:E; [destruct Hin |].
    destruct Hin as [<- | []]. exact (Hev tei).
Qed.

(** X5. Every write of a run, the ownership transfer, the enrollment import
    when the switch is on and the events import, names the destination of
    the render that was clicked as its org unit. *)
Theorem transfer_writes_only_to_destination
    (World : Type) (engine : forall R : Type, Call R -> World -> (JsError + R) * World)
    (w : World) (flag : bool) (s : Session) (entry : LogEntry) :
  In entry (out_log (fst (run World engine (handleTransferWith flag s) s w))) ->
  writesTo (destinationOuId s) (le_request entry).
Proof.
  destruct (handleTransfer_cases World engine w flag s) as [[_ ->] | Hrun];
    [intros [] |].
  intros Hin.
  destruct Hrun as [e Hno | e e' Hyes | primary rest final Hprimary Hrest];
    simpl in Hin.
  - destruct Hin as [<- | []]. reflexivity.
  - destruct Hin as [<- | [<- | []]]; reflexivity.
  - apply in_app_or in Hin. destruct Hin as [Hin | Hin].
    + destruct Hprimary as [| e0 He0]; simpl in Hin.
      * destruct Hin as [<- | []]. reflexivity.
      * destruct Hin as [<- | [<- | []]]; reflexivity.
    + exact (cascade_writes flag s final rest Hrest entry Hin).
Qed.

Lemma transfer_writes_only_to_destination_witness :
  let entry := issued readySession (eventsRequest readySession sampleCase) None in
  In entry (out_log (fst (run (list Scripted) scriptedEngine
                            (handleTransferWith false readySession) readySession
                            [Accept; Deliver sampleCase; Accept]))) /\
  writesTo (destinationOuId readySession) (le_request entry).
Proof.
  cbv zeta.
  assert (Hin : In (issued readySession (eventsRequest readySession sampleCase) None)
                  (out_log (fst (run (list Scripted) scriptedEngine
                                   (handleTransferWith false readySession) readySession
                                   [Accept; Deliver sampleCase; Accept]))))
    by (vm_compute; right; right; left; reflexivity).
  exact (conj Hin
           (transfer_writes_only_to_destination (list Scripted) scriptedEngine
              [Accept; Deliver sampleCase; Accept] false readySession _ Hin)).
Defined.

(** X6. Nothing is cascaded without a transfer: in a run where no call on
    the ownership resource was accepted, every call is a call on the
    ownership resource, so no case query and no import was sent. *)
Theorem no_cascade_without_transfer
    (World : Type) (engine : forall R : Type, Call R -> World -> (JsError + R) * World)
    (w : World) (flag : bool) (s : Session) :
  (forall entry,
     In entry (out_log (fst (run World engine (handleTransferWith flag s) s w))) ->
     isOwnershipTransfer (le_request entry) = true -> le_failure entry <> None) ->
  forall entry,
    In entry (out_log (fst (run World engine (handleTransferWith flag s) s w))) ->
    isOwnershipTransfer (le_request entry) = true.
Proof.
  destruct (handleTransfer_cases World engine w flag s) as [[_ ->] | Hrun];
    [intros _ entry [] |].
  intros Hnone entry Hin.
  destruct Hrun as [e Hno | e e' Hyes | primary rest final Hprimary Hrest].
  - destruct Hin as [<- | []]. reflexivity.
  - destruct Hin as [<- | [<- | []]]; reflexivity.
  - exfalso. destruct Hprimary as [| e0 He0].
    + apply (Hnone (issued s (transferRequest s trackedEntity) None));
        [left; reflexivity | reflexivity | reflexivity].
    + apply (Hnone (issued s (transferRequest s trackedEntityInstance) None));
        [right; left; reflexivity | reflexivity | reflexivity].
Qed.

Lemma no_cascade_without_transfer_witness :
  let log := out_log (fst (run (list Scripted) scriptedEngine
                             (handleTransferWith false readySession) readySession
                             [Reject unknownParameter; Reject conflict])) in
  (forall entry, In entry log ->
     isOwnershipTransfer (le_request entry) = true -> le_failure entry <> None) /\
  (forall entry, In entry log -> isOwnershipTransfer (le_request entry) = true).
Proof.
  cbv zeta.
  assert (Hnone : forall entry,
            In entry (out_log (fst (run (list Scripted) scriptedEngine
                                      (handleTransferWith false readySession) readySession
                                      [Reject unknownParameter; Reject conflict]))) ->
            isOwnershipTransfer (le_request entry) = true -> le_failure entry <> None).
  { vm_compute. intros entry [<- | [<- | []]] _; discriminate. }
  exact (conj Hnone
           (no_cascade_without_transfer (list Scripted) scriptedEngine
              [Reject unknownParameter; Reject conflict] false readySession Hnone)).
Defined.

(* ================================================================= *)
(** ** Warnings, manual entry and the two selection channels *)

(** X7. Each of the three warnings (missing case, missing program,
    destination unchanged) comes with a disabled Transfer button; a button
    disabled with no warning on screen means that no destination is chosen
    or that a submission is in progress. *)
Theorem warnings_explain_disabled_button (s : Session) :
  (showsMissingTei s = true \/ showsMissingProgram s = true \/
   showsUnchangedDestination s = true ->
   isTransferEnabled s = false) /\
  (isTransferEnabled s = false ->
   showsMissingTei s = false -> showsMissingProgram s = false ->
   showsUnchangedDestination s = false ->
   destinationOuId s = "" \/ isSubmitting s = true).
Proof.
  unfold showsMissingTei, showsMissingProgram, showsUnchangedDestination,
    isTransferEnabled.
  split.
  - intros [H | [H | H]].
    + apply negb_true_iff in H. rewrite H. reflexivity.
    + apply negb_true_iff in H. rewrite H.
      destruct (Js.truthy (teiId s)); reflexivity.
    + rewrite H.
      destruct (Js.truthy (teiId s)), (Js.truthy (programId s)),
        (Js.truthy (destinationOuId s)); reflexivity.
  - intros Hen Ht Hp Hsame.
    apply negb_false_iff in Ht, Hp. rewrite Ht, Hp, Hsame in Hen. cbn in Hen.
    destruct (Js.truthy (destinationOuId s)) eqn:Hd.
    + right. cbn in Hen. apply negb_false_iff in Hen. exact Hen.
    + left. apply truthy_false_iff. exact Hd.
Qed.

Lemma warnings_explain_disabled_button_witness :
  (showsMissingTei unknownLocationSession = true \/
   showsMissingProgram unknownLocationSession = true \/
   showsUnchangedDestination (setSelectedOuId (Some "OuA") (initialSession "T1" "P1" "OuA"))
     = true) /\
  isTransferEnabled (setSelectedOuId (Some "OuA") (initialSession "T1" "P1" "OuA")) = false.
Proof.
  assert (H : showsUnchangedDestination
                (setSelectedOuId (Some "OuA") (initialSession "T1" "P1" "OuA")) = true)
    by (vm_compute; reflexivity).
  exact (conj (or_intror (or_intror H))
           (proj1 (warnings_explain_disabled_button
                     (setSelectedOuId (Some "OuA") (initialSession "T1" "P1" "OuA")))
              (or_intror (or_intror H)))).
Defined.

Lemma trim_allWhiteSpace (v : string) : allWhiteSpace v = true -> Js.trim v = "".
Proof.
  unfold Js.trim. induction v as [| c v IH]; simpl; [reflexivity |].
  intros H. apply andb_true_iff in H. destruct H as [Hc Hv].
  rewrite Hc. exact (IH Hv).
Qed.

(** X8. Manual entry is read trimmed: text made of white space only counts
    as no destination, so the button stays disabled and [handleTransfer]
    does nothing; and the current org unit's id typed with padding is still
    recognised as the unchanged destination. *)
Theorem manual_entry_is_trimmed (value : string) (s : Session) :
  (allWhiteSpace value = true ->
   destinationOuId (setSelectedOuId (Some value) s) = "" /\
   isTransferEnabled (setSelectedOuId (Some value) s) = false /\
   transferBlocked (setSelectedOuId (Some value) s) = true) /\
  (currentOuId s <> "" -> Js.trim value = currentOuId s ->
   showsUnchangedDestination (setSelectedOuId (Some value) s) = true /\
   isTransferEnabled (setSelectedOuId (Some value) s) = false /\
   transferBlocked (setSelectedOuId (Some value) s) = true).
Proof.
  split.
  - intros Hws.
    assert (Hd : destinationOuId (setSelectedOuId (Some value) s) = "").
    { cbn. apply trim_allWhiteSpace. exact Hws. }
    split; [exact Hd |]. split.
    + unfold isTransferEnabled. rewrite Hd. cbn. rewrite !andb_false_r. reflexivity.
    + apply transferBlocked_true_iff. auto.
  - intros Hc Htrim.
    assert (Hsame : isSameOrgUnit (setSelectedOuId (Some value) s) = true).
    { apply isSameOrgUnit_true_iff. cbn. auto. }
    split; [exact Hsame |]. split.
    + unfold isTransferEnabled. rewrite Hsame. cbn. rewrite andb_false_r. reflexivity.
    + unfold transferBlocked. rewrite Hsame. apply orb_true_r.
Qed.

Lemma manual_entry_is_trimmed_witness :
  (allWhiteSpace "   " = true /\
   isTransferEnabled (setSelectedOuId (Some "   ") readySession) = false) /\
  (currentOuId readySession <> "" /\ Js.trim " OuA " = currentOuId readySession /\
   showsUnchangedDestination (setSelectedOuId (Some " OuA ") readySession) = true).
Proof.
  assert (Hws : allWhiteSpace "   " = true) by (vm_compute; reflexivity).
  assert (Hc : currentOuId readySession <> "") by (vm_compute; discriminate).
  assert (Ht : Js.trim " OuA " = currentOuId readySession) by (vm_compute; reflexivity).
  exact (conj
           (conj Hws
              (proj1 (proj2 (proj1 (manual_entry_is_trimmed "   " readySession) Hws))))
           (conj Hc
              (conj Ht
                 (proj1 (proj2 (manual_entry_is_trimmed " OuA " readySession) Hc Ht))))).
Defined.

Lemma lastTruthy_snoc (selected : list string) (x : string) :
  lastTruthy (selected ++ [x]) = if Js.truthy x then [x] else lastTruthy selected.
Proof.
  unfold lastTruthy. rewrite filter_app. simpl.
  destruct (Js.truthy x).
  - rewrite rev_app_distr. reflexivity.
  - rewrite app_nil_r. reflexivity.
Qed.

Lemma lastTruthy_length (selected : list string) : List.length (lastTruthy selected) <= 1.
Proof.
  unfold lastTruthy. destruct (rev (filter Js.truthy selected)); simpl; lia.
Qed.

(** X9. The tree keeps a single path: after a tree change the path
    selection is empty when the widget reported no non-empty path, and
    otherwise holds exactly the last non-empty path it reported. *)
Theorem treeChange_keeps_last_path (selected : list string) (id : string) (s : Session) :
  selectedOuId (treeChange selected id s) = Some id /\
  List.length (selectedPaths (treeChange selected id s)) <= 1 /\
  (selectedPaths (treeChange selected id s) = [] <->
     Forall (fun path => path = "") selected) /\
  (forall path,
     selectedPaths (treeChange selected id s) = [path] <->
     path <> "" /\
     exists before after,
       selected = (before ++ path :: after)%list /\
       Forall (fun later => later = "") after).
Proof.
  split; [reflexivity |]. split; [apply lastTruthy_length |].
  change (selectedPaths (treeChange selected id s)) with (lastTruthy selected).
  induction selected as [| x selected [IHnil IHone]] using rev_ind.
  - split.
    + split; [constructor | reflexivity].
    + intros path. split; [discriminate |].
      intros (_ & before & after & H & _). destruct before; discriminate.
  - rewrite lastTruthy_snoc. destruct (Js.truthy x) eqn:Hx.
    + apply truthy_true_iff in Hx. split.
      * split; [discriminate |].
        intros H. apply Forall_app in H. destruct H as [_ H].
        inversion H; subst. contradiction.
      * intros path. split.
        -- intros H. injection H as <-. split; [exact Hx |].
           exists selected, []. split; [reflexivity | constructor].
        -- intros (Hp & before & after & Heq & Hafter).
           destruct after as [| y after] using rev_ind.
           ++ apply app_inj_tail in Heq. destruct Heq as [_ ->]. reflexivity.
           ++ clear IHafter. rewrite app_comm_cons, app_assoc in Heq.
              apply app_inj_tail in Heq. destruct Heq as [_ ->].
              apply Forall_app in Hafter. destruct Hafter as [_ Hy].
              inversion Hy; subst. contradiction.
    + apply truthy_false_iff in Hx. subst x. split.
      * rewrite IHnil. split.
        -- intros H. apply Forall_app. split; [exact H | repeat constructor].
        -- intros H. apply Forall_app in H. exact (proj1 H).
      * intros path. rewrite IHone. split.
        -- intros (Hp & before & after & -> & Hafter). split; [exact Hp |].
           exists before, (after ++ [""])%list. split.
           ++ rewrite <- app_assoc. reflexivity.
           ++ apply Forall_app. split; [exact Hafter | repeat constructor].
        -- intros (Hp & before & after & Heq & Hafter). split; [exact Hp |].
           destruct after as [| y after] using rev_ind.
           ++ apply app_inj_tail in Heq. destruct Heq as [_ Heq]. congruence.
           ++ clear IHafter. rewrite app_comm_cons, app_assoc in Heq.
              apply app_inj_tail in Heq. destruct Heq as [-> _].
              apply Forall_app in Hafter. exists before, after. tauto.
Qed.

(** X10. Whichever channel fires last decides the destination: a tree
    change after a pick, or a pick after a tree change, leaves the trimmed
    id of the later one as destination and at most one entry in the path
    selection; a manual entry after either makes its own trimmed value the
    destination and leaves the path selection as the earlier channel set
    it, so still with at most one entry. *)
Theorem last_selection_wins (orgUnit : OrgUnit) (selected : list string) (id value : string)
    (s : Session) :
  (destinationOuId (treeChange selected id (pickSearchResult orgUnit s)) = Js.trim id /\
   List.length (selectedPaths (treeChange selected id (pickSearchResult orgUnit s))) <= 1) /\
  (destinationOuId (pickSearchResult orgUnit (treeChange selected id s))
     = Js.trim (ou_id orgUnit) /\
   selectedPaths (pickSearchResult orgUnit (treeChange selected id s)) = [ou_id orgUnit]) /\
  destinationOuId (setSelectedOuId (Some value) (pickSearchResult orgUnit s))
    = Js.trim value /\
  destinationOuId (setSelectedOuId (Some value) (treeChange selected id s))
    = Js.trim value /\
  selectedPaths (setSelectedOuId (Some value) (pickSearchResult orgUnit s))
    = [ou_id orgUnit] /\
  selectedPaths (setSelectedOuId (Some value) (treeChange selected id s))
    = selectedPaths (treeChange selected id s) /\
  List.length (selectedPaths (setSelectedOuId (Some value) (treeChange selected id s)))
    <= 1.
Proof.
  repeat split; apply lastTruthy_length.
Qed.

(** X11. Right after a pick from the displayed results the list is gone
    and, until the next search starts, the "No matching org units." line
    stands in its place. *)
Theorem pick_leaves_no_matches_line (orgUnit : OrgUnit) (s : Session) :
  showsResults s = true ->
  showsResults (pickSearchResult orgUnit s) = false /\
  showsNoMatches (pickSearchResult orgUnit s) = true /\
  showsSearching (pickSearchResult orgUnit s) = false.
Proof.
  unfold showsResults, showsNoMatches, showsSearching.
  change (debouncedSearchText (pickSearchResult orgUnit s)) with (debouncedSearchText s).
  change (isSearching (pickSearchResult orgUnit s)) with (isSearching s).
  change (searchResults (pickSearchResult orgUnit s)) with (@nil OrgUnit).
  destruct (MIN_SEARCH_LENGTH <=? String.length (Js.trim (debouncedSearchText s)))%nat;
    [| discriminate].
  destruct (isSearching s); [discriminate |].
  intros _. split; [reflexivity |]. split; reflexivity.
Qed.

Lemma pick_leaves_no_matches_line_witness :
  let s := setSearchResults [clinicB] (setDebouncedValue "cli" readySession) in
  showsResults s = true /\
  showsNoMatches (pickSearchResult clinicB s) = true.
Proof.
  cbv zeta.
  assert (H : showsResults
                (setSearchResults [clinicB] (setDebouncedValue "cli" readySession)) = true)
    by (vm_compute; reflexivity).
  exact (conj H
           (proj1 (proj2 (pick_leaves_no_matches_line clinicB
                            (setSearchResults [clinicB]
                               (setDebouncedValue "cli" readySession)) H)))).
Defined.

(* ================================================================= *)
(** ** Debounce and search: more invariants *)

Lemma searchEffect_frame (p : Page) :
  mounted (searchEffect p) = mounted p /\
  timer (searchEffect p) = timer p /\
  searchText (session (searchEffect p)) = searchText (session p) /\
  debouncedSearchText (session (searchEffect p)) = debouncedSearchText (session p) /\
  searchResults (session (searchEffect p))
    = (if (String.length (Js.trim (debouncedSearchText (session p)))
           <? MIN_SEARCH_LENGTH)%nat
       then [] else searchResults (session p)) /\
  sameTransferState (session (searchEffect p)) (session p).
Proof.
  unfold searchEffect, sameTransferState.
  destruct (String.length (Js.trim (debouncedSearchText (session p))) <? MIN_SEARCH_LENGTH)%nat;
    repeat split.
Qed.

Lemma searchCleanup_timer (p : Page) : timer (searchCleanup p) = timer p.
Proof. unfold searchCleanup. destruct (cleanup p); reflexivity. Qed.

Lemma loadSearchResults_resume_frame (isActive : bool) (resp : SearchResponse)
    (s : Session) :
  searchText (loadSearchResults_resume isActive resp s) = searchText s /\
  sameTransferState (loadSearchResults_resume isActive resp s) s.
Proof.
  unfold sameTransferState.
  destruct isActive, resp as [[results |] | e]; repeat split.
Qed.

Lemma step_debounceInvariant (p : Page) (ev : UiEvent) :
  debounceInvariant p -> debounceInvariant (step p ev).
Proof.
  intros Hinv. pose proof Hinv as [Htimer Hidle].
  destruct ev as [value | | orgUnit | selected id | value | id resp |]; cbn [step].
  - destruct (mounted p) eqn:Hm; cbn [negb]; [| exact Hinv].
    unfold debounceEffect. cbn [withSession session searchText setSearchText].
    destruct (String.eqb_spec (searchText (session p)) value) as [E | E].
    + split; cbn; rewrite ?Hm.
      * intros v Hv. destruct (Htimer v Hv) as [-> _]. auto.
      * intros _ Hn. rewrite <- E. apply Hidle; [reflexivity | exact Hn].
    + split; cbn; rewrite ?Hm.
      * intros v Hv. injection Hv as <-. auto.
      * intros _ Hn. discriminate.
  - destruct (mounted p) eqn:Hm; cbn [negb]; [| exact Hinv].
    destruct (timer p) as [value |] eqn:Ht; [| exact Hinv].
    destruct (Htimer value eq_refl) as [Hv _].
    destruct (String.eqb_spec value (debouncedSearchText (session p))) as [E | E].
    + split; cbn.
      * intros v Hn. discriminate.
      * intros _ _. congruence.
    + destruct (searchEffect_frame
                  (searchCleanup
                     (withSession (setDebouncedValue value)
                        {| session := session p; mounted := true; timer := None;
                           requests := requests p; cleanup := cleanup p |})))
        as (Hm' & Ht' & Hs' & Hd' & _).
      rewrite searchCleanup_mounted in Hm'. rewrite searchCleanup_timer in Ht'.
      rewrite searchCleanup_session in Hs', Hd'. cbn in Hm', Ht', Hs', Hd'.
      split.
      * intros v Hn. rewrite Ht' in Hn. discriminate.
      * intros _ _. rewrite Hs', Hd'. exact Hv.
  - destruct (mounted p) eqn:Hm; cbn [negb]; [| exact Hinv].
    unfold debounceEffect.
    change (searchText (session (withSession (pickSearchResult orgUnit) p)))
      with (ou_displayName orgUnit).
    destruct (String.eqb_spec (searchText (session p)) (ou_displayName orgUnit)) as [E | E].
    + split; cbn; rewrite ?Hm.
      * intros v Hv. destruct (Htimer v Hv) as [-> _]. auto.
      * intros _ Hn. rewrite <- E. apply Hidle; [reflexivity | exact Hn].
    + split; cbn; rewrite ?Hm.
      * intros v Hv. injection Hv as <-. auto.
      * intros _ Hn. discriminate.
  - destruct (mounted p) eqn:Hm; cbn [negb]; [| exact Hinv].
    split; cbn; rewrite ?Hm.
    + intros v Hv. destruct (Htimer v Hv) as [-> _]. auto.
    + intros _ Hn. apply Hidle; [reflexivity | exact Hn].
  - destruct (mounted p) eqn:Hm; cbn [negb]; [| exact Hinv].
    split; cbn; rewrite ?Hm.
    + intros v Hv. destruct (Htimer v Hv) as [-> _]. auto.
    + intros _ Hn. apply Hidle; [reflexivity | exact Hn].
  - destruct (lookup id (requests p)) as [r |]; [| exact Hinv].
    destruct (sr_pending r); [| exact Hinv].
    destruct (loadSearchResults_resume_frame (sr_isActive r) resp (session p)) as [Hs _].
    pose proof (loadSearchResults_resume_debounced (sr_isActive r) resp (session p)) as Hd.
    split; cbn [timer mounted session].
    + intros v Hv. rewrite Hs. exact (Htimer v Hv).
    + intros Hm Hn. rewrite Hs, Hd. exact (Hidle Hm Hn).
  - destruct (mounted p) eqn:Hm; cbn [negb]; [| exact Hinv].
    split; cbn [timer mounted].
    + intros v Hv. discriminate.
    + intros Hf. discriminate.
Qed.

Lemma runEvents_debounceInvariant (evs : list UiEvent) (p : Page) :
  debounceInvariant p -> debounceInvariant (runEvents p evs).
Proof.
  revert p. induction evs as [| ev evs IH]; intros p Hp; [exact Hp |].
  simpl. apply IH. apply step_debounceInvariant. exact Hp.
Qed.

Lemma mount_debounceInvariant (initialTeiId programId currentOrgUnitId : string) :
  debounceInvariant (mount initialTeiId programId currentOrgUnitId).
Proof.
  split.
  - intros value H. injection H as <-. split; reflexivity.
  - intros _ H. discriminate.
Qed.

(** X12. The debounce never loses the operator's text and leaks no timer:
    in every reachable state a pending timeout carries the current text of
    the search field and belongs to a mounted page, and on a mounted page
    with no timeout pending the debounced text equals the search field. *)
Theorem debounce_tracks_search_text
    (initialTeiId programId currentOrgUnitId : string) (evs : list UiEvent) :
  (forall value,
     timer (runEvents (mount initialTeiId programId currentOrgUnitId) evs) = Some value ->
     value = searchText (session (runEvents (mount initialTeiId programId currentOrgUnitId) evs)) /\
     mounted (runEvents (mount initialTeiId programId currentOrgUnitId) evs) = true) /\
  (mounted (runEvents (mount initialTeiId programId currentOrgUnitId) evs) = true ->
   timer (runEvents (mount initialTeiId programId currentOrgUnitId) evs) = None ->
   debouncedSearchText (session (runEvents (mount initialTeiId programId currentOrgUnitId) evs))
   = searchText (session (runEvents (mount initialTeiId programId currentOrgUnitId) evs))).
Proof.
  exact (runEvents_debounceInvariant evs _
           (mount_debounceInvariant initialTeiId programId currentOrgUnitId)).
Qed.

Lemma deactivate_sent (id : nat) (rs : list SearchRequest) :
  map sent (deactivate id rs) = map sent rs.
Proof.
  unfold deactivate. rewrite map_map. apply map_ext.
  intros r. destruct (Nat.eqb (sr_id r) id); reflexivity.
Qed.

Lemma settled_sent (id : nat) (rs : list SearchRequest) :
  map sent (settled id rs) = map sent rs.
Proof.
  unfold settled. rewrite map_map. apply map_ext.
  intros r. destruct (Nat.eqb (sr_id r) id); reflexivity.
Qed.

Lemma searchCleanup_sent (p : Page) :
  map sent (requests (searchCleanup p)) = map sent (requests p).
Proof.
  unfold searchCleanup. destruct (cleanup p); [apply deactivate_sent | reflexivity].
Qed.

Lemma searchCleanup_requests_ext (p q : Page) :
  cleanup q = cleanup p -> requests q = requests p ->
  requests (searchCleanup q) = requests (searchCleanup p).
Proof.
  intros Hc Hr. unfold searchCleanup. rewrite Hc.
  destruct (cleanup p); cbn [requests]; [rewrite Hr; reflexivity | exact Hr].
Qed.

Lemma sent_length (rs rs' : list SearchRequest) :
  map sent rs = map sent rs' -> List.length rs = List.length rs'.
Proof.
  intros H. rewrite <- (length_map sent rs), <- (length_map sent rs'), H. reflexivity.
Qed.

(** The page a debounce timeout leaves when it brings in a new text that is
    long enough. *)
Lemma debounce_fires_long (p : Page) (value : string) :
  mounted p = true -> timer p = Some value ->
  value <> debouncedSearchText (session p) ->
  MIN_SEARCH_LENGTH <= String.length (Js.trim value) ->
  step p DebounceFires =
  {| session := setSearchError None
                  (setIsSearching true (setDebouncedValue value (session p)));
     mounted := true; timer := None;
     requests := {| sr_id := List.length (requests p);
                    sr_owner := value;
                    sr_filter := Js.trim value;
                    sr_isActive := true;
                    sr_pending := true |} :: requests (searchCleanup p);
     cleanup := Some (List.length (requests p)) |}.
Proof.
  intros Hm Ht Hne Hlong. cbn [step]. rewrite Hm, Ht. cbn [negb].
  apply String.eqb_neq in Hne. rewrite Hne.
  set (p1 := withSession (setDebouncedValue value) _).
  assert (Hs : session (searchCleanup p1) = setDebouncedValue value (session p)).
  { rewrite searchCleanup_session. reflexivity. }
  assert (Hr : requests (searchCleanup p1) = requests (searchCleanup p)).
  { apply searchCleanup_requests_ext; reflexivity. }
  assert (Hlen : List.length (requests (searchCleanup p)) = List.length (requests p)).
  { apply sent_length. apply searchCleanup_sent. }
  assert (Hmt : mounted (searchCleanup p1) = true /\ timer (searchCleanup p1) = None).
  { rewrite searchCleanup_mounted, searchCleanup_timer. split; reflexivity. }
  destruct Hmt as [Hm1 Ht1].
  unfold searchEffect. rewrite Hs, Hr, Hlen, Hm1, Ht1.
  change (debouncedSearchText (setDebouncedValue value (session p))) with value.
  assert (Hltb : (String.length (Js.trim value) <? MIN_SEARCH_LENGTH)%nat = false)
    by (apply Nat.ltb_ge; exact Hlong).
  rewrite Hltb. reflexivity.
Qed.

(** X13. A debounce timeout that brings in a new text of at least the
    minimum length (trimmed) sends exactly one search: for the trimmed text,
    with page size 15, matched on display name; it is the only live request
    from then on, the searching flag goes up, the search error is cleared,
    and the results of the previous search stay until it answers. *)
Theorem debounce_timeout_sends_one_search
    (initialTeiId programId currentOrgUnitId : string) (evs : list UiEvent)
    (value : string) :
  let p := runEvents (mount initialTeiId programId currentOrgUnitId) evs in
  mounted p = true -> timer p = Some value ->
  value <> debouncedSearchText (session p) ->
  MIN_SEARCH_LENGTH <= String.length (Js.trim value) ->
  exists r older,
    requests (step p DebounceFires) = r :: older /\
    map sent older = map sent (requests p) /\
    noneActive older /\
    sr_isActive r = true /\ sr_pending r = true /\
    sr_filter r = Js.trim value /\
    sr_query r =
      {| qu_resource := "organisationUnits";
         qu_params := [ ("filter", PString ("displayName:ilike:" ++ Js.trim value));
                        ("fields", PString "id,displayName");
                        ("paging", PBool true);
                        ("pageSize", PNumber 15) ] |} /\
    debouncedSearchText (session (step p DebounceFires)) = value /\
    isSearching (session (step p DebounceFires)) = true /\
    searchError (session (step p DebounceFires)) = None /\
    searchResults (session (step p DebounceFires)) = searchResults (session p).
Proof.
  intros p Hm Ht Hne Hlong.
  rewrite (debounce_fires_long p value Hm Ht Hne Hlong).
  assert (Hinv : searchInvariant p) by (apply runEvents_invariant, mount_invariant).
  destruct Hinv as [_ Hlive].
  eexists. exists (requests (searchCleanup p)).
  split; [reflexivity |]. split; [apply searchCleanup_sent |]. split.
  - apply searchCleanup_noneActive. intros r Hin Ha.
    exact (proj1 (proj2 (Hlive r Hin Ha))).
  - repeat split.
Qed.

(** X14. Only a debounce timeout sends a search: typing, picking, tree
    changes, manual entry, arriving responses and unmount leave the list of
    requests sent as it is, and a timeout adds at most one. *)
Theorem only_debounce_timeout_sends_search (p : Page) (ev : UiEvent) :
  (ev <> DebounceFires -> map sent (requests (step p ev)) = map sent (requests p)) /\
  List.length (requests (step p ev)) <= S (List.length (requests p)).
Proof.
  assert (Hquiet : ev <> DebounceFires ->
                   map sent (requests (step p ev)) = map sent (requests p)).
  { intros Hev.
    destruct ev as [value | | orgUnit | selected id | value | id resp |]; cbn [step];
      try contradiction.
    - destruct (mounted p); cbn [negb]; [| reflexivity].
      destruct (debounceEffect_same (searchText (session p))
                  (withSession (setSearchText value) p)) as (_ & _ & -> & _).
      reflexivity.
    - destruct (mounted p); cbn [negb]; [| reflexivity].
      destruct (debounceEffect_same (searchText (session p))
                  (withSession (pickSearchResult orgUnit) p)) as (_ & _ & -> & _).
      reflexivity.
    - destruct (mounted p); reflexivity.
    - destruct (mounted p); reflexivity.
    - destruct (lookup id (requests p)) as [r |]; [| reflexivity].
      destruct (sr_pending r); [| reflexivity].
      cbn [requests]. apply settled_sent.
    - destruct (mounted p); cbn [negb]; [| reflexivity].
      cbn [requests]. apply searchCleanup_sent. }
  split; [exact Hquiet |].
  destruct ev as [value | | orgUnit | selected id | value | id resp |];
    try (rewrite (sent_length _ _ (Hquiet ltac:(discriminate))); lia).
  cbn [step]. destruct (mounted p); cbn [negb]; [| lia].
  destruct (timer p) as [value |]; [| lia].
  destruct (String.eqb value (debouncedSearchText (session p))); [cbn; lia |].
  set (q := searchCleanup _).
  assert (Hlen : List.length (requests q) = List.length (requests p)).
  { apply sent_length. unfold q. rewrite searchCleanup_sent. reflexivity. }
  unfold searchEffect.
  destruct (String.length (Js.trim (debouncedSearchText (session q))) <? MIN_SEARCH_LENGTH)%nat;
    cbn [requests List.length]; lia.
Qed.

Lemma only_debounce_timeout_sends_search_witness :
  TypeSearch "abc" <> DebounceFires /\
  map sent (requests (step livePage (TypeSearch "abc"))) = map sent (requests livePage).
Proof.
  assert (H : TypeSearch "abc" <> DebounceFires) by discriminate.
  exact (conj H (proj1 (only_debounce_timeout_sends_search livePage (TypeSearch "abc")) H)).
Defined.

(** X15. At most one search request is live at any time, and none once the
    page is unmounted. *)
Theorem at_most_one_live_request
    (initialTeiId programId currentOrgUnitId : string) (evs : list UiEvent) :
  (forall r1 r2,
     In r1 (requests (runEvents (mount initialTeiId programId currentOrgUnitId) evs)) ->
     In r2 (requests (runEvents (mount initialTeiId programId currentOrgUnitId) evs)) ->
     sr_isActive r1 = true -> sr_isActive r2 = true -> r1 = r2) /\
  (mounted (runEvents (mount initialTeiId programId currentOrgUnitId) evs) = false ->
   noneActive (requests (runEvents (mount initialTeiId programId currentOrgUnitId) evs))).
Proof.
  assert (Hinv : searchInvariant
                   (runEvents (mount initialTeiId programId currentOrgUnitId) evs))
    by (apply runEvents_invariant, mount_invariant).
  destruct Hinv as [_ Hlive]. split.
  - intros r1 r2 H1 H2 A1 A2.
    destruct (Hlive r1 H1 A1) as (_ & _ & _ & _ & Hhd1).
    destruct (Hlive r2 H2 A2) as (_ & _ & _ & _ & Hhd2).
    congruence.
  - intros Hm r Hin. destruct (sr_isActive r) eqn:Ha; [| reflexivity].
    destruct (Hlive r Hin Ha) as (Hm' & _). congruence.
Qed.

Lemma debounce_timeout_sends_one_search_witness :
  let p := runEvents (mount "T1" "P1" "OuA") [TypeSearch " ab "] in
  (mounted p = true /\ timer p = Some " ab " /\
   " ab " <> debouncedSearchText (session p) /\
   MIN_SEARCH_LENGTH <= String.length (Js.trim " ab ")) /\
  exists r older,
    requests (step p DebounceFires) = r :: older /\ sr_filter r = "ab".
Proof.
  cbv zeta.
  assert (Hm : mounted (runEvents (mount "T1" "P1" "OuA") [TypeSearch " ab "]) = true)
    by (vm_compute; reflexivity).
  assert (Ht : timer (runEvents (mount "T1" "P1" "OuA") [TypeSearch " ab "]) = Some " ab ")
    by (vm_compute; reflexivity).
  assert (Hne : " ab " <> debouncedSearchText
                            (session (runEvents (mount "T1" "P1" "OuA") [TypeSearch " ab "])))
    by (vm_compute; discriminate).
  assert (Hlong : MIN_SEARCH_LENGTH <= String.length (Js.trim " ab "))
    by (vm_compute; lia).
  split; [exact (conj Hm (conj Ht (conj Hne Hlong))) |].
  destruct (debounce_timeout_sends_one_search "T1" "P1" "OuA" [TypeSearch " ab "] " ab "
              Hm Ht Hne Hlong) as (r & older & Hreq & _ & _ & _ & _ & Hf & _).
  exists r, older. split; [exact Hreq | exact Hf].
Defined.

(* ================================================================= *)
(** ** The searching flag *)

Lemma isSearching_resume (isActive : bool) (resp : SearchResponse) (s : Session) :
  isSearching (loadSearchResults_resume isActive resp s)
  = if isActive then false else isSearching s.
Proof. destruct isActive, resp as [[results |] | e]; reflexivity. Qed.

Lemma searchingInvariant_same (p p' : Page) :
  mounted p' = mounted p -> requests p' = requests p ->
  isSearching (session p') = isSearching (session p) ->
  searchingInvariant p -> searchingInvariant p'.
Proof.
  unfold searchingInvariant. intros -> -> ->. trivial.
Qed.

Lemma awaited_active (r : SearchRequest) : awaited r = true -> sr_isActive r = true.
Proof. unfold awaited. intros H. apply andb_true_iff in H. tauto. Qed.

Lemma settled_member (id : nat) (rs : list SearchRequest) (r' : SearchRequest) :
  In r' (settled id rs) ->
  exists r, In r rs /\ sr_isActive r' = sr_isActive r /\
            ((sr_id r = id /\ sr_pending r' = false) \/ (sr_id r <> id /\ r' = r)).
Proof.
  unfold settled. intros Hin. apply in_map_iff in Hin. destruct Hin as (r & <- & Hin).
  exists r. split; [exact Hin |].
  destruct (Nat.eqb_spec (sr_id r) id) as [E | E]; cbn; auto.
Qed.

Lemma settled_keeps (id : nat) (rs : list SearchRequest) (r : SearchRequest) :
  In r rs -> sr_id r <> id -> In r (settled id rs).
Proof.
  intros Hin Hid. unfold settled. apply in_map_iff. exists r.
  apply Nat.eqb_neq in Hid. rewrite Hid. auto.
Qed.

Lemma lookup_head (id : nat) (rs : list SearchRequest) (r x : SearchRequest) :
  hd_error rs = Some x -> sr_id x = id -> lookup id rs = Some r -> r = x.
Proof.
  destruct rs as [| y rs]; [discriminate |]. simpl. intros H Hid Hl.
  injection H as ->. unfold lookup in Hl. simpl in Hl.
  apply Nat.eqb_eq in Hid. rewrite Hid in Hl. congruence.
Qed.

Lemma step_searchingInvariant (p : Page) (ev : UiEvent) :
  searchInvariant p -> searchingInvariant p -> searchingInvariant (step p ev).
Proof.
  intros [Hnum Hlive] Hinv.
  assert (Hown : forall r, In r (requests p) -> sr_isActive r = true ->
                           cleanup p = Some (sr_id r)).
  { intros r Hin Ha. exact (proj1 (proj2 (Hlive r Hin Ha))). }
  destruct ev as [value | | orgUnit | selected id | value | id resp |]; cbn [step].
  - destruct (mounted p) eqn:Hm; cbn [negb]; [| exact Hinv].
    destruct (debounceEffect_same (searchText (session p))
                (withSession (setSearchText value) p)) as (H1 & _ & H3 & H4).
    apply (searchingInvariant_same p); rewrite ?H1, ?H3, ?H4; cbn; rewrite ?Hm;
      try reflexivity; exact Hinv.
  - destruct (mounted p) eqn:Hm; cbn [negb]; [| exact Hinv].
    destruct (timer p) as [value |]; [| exact Hinv].
    destruct (String.eqb value (debouncedSearchText (session p))).
    + apply (searchingInvariant_same p); cbn; rewrite ?Hm;
      try reflexivity; exact Hinv.
    + set (q := searchCleanup _).
      assert (Hnone : noneActive (requests q)).
      { unfold q. apply searchCleanup_noneActive. exact Hown. }
      unfold searchEffect, searchingInvariant.
      destruct (String.length (Js.trim (debouncedSearchText (session q)))
                <? MIN_SEARCH_LENGTH)%nat; cbn [session requests mounted].
      * intros _. split; [discriminate |].
        intros (r & Hin & Haw). apply awaited_active in Haw.
        rewrite (Hnone r Hin) in Haw. discriminate.
      * intros _. split; [| reflexivity].
        intros _. eexists. split; [left; reflexivity | reflexivity].
  - destruct (mounted p) eqn:Hm; cbn [negb]; [| exact Hinv].
    destruct (debounceEffect_same (searchText (session p))
                (withSession (pickSearchResult orgUnit) p)) as (H1 & _ & H3 & H4).
    apply (searchingInvariant_same p); rewrite ?H1, ?H3, ?H4; cbn; rewrite ?Hm;
      try reflexivity; exact Hinv.
  - destruct (mounted p) eqn:Hm; cbn [negb]; [| exact Hinv].
    apply (searchingInvariant_same p); cbn; rewrite ?Hm;
      try reflexivity; exact Hinv.
  - destruct (mounted p) eqn:Hm; cbn [negb]; [| exact Hinv].
    apply (searchingInvariant_same p); cbn; rewrite ?Hm;
      try reflexivity; exact Hinv.
  - destruct (lookup id (requests p)) as [r |] eqn:Hlook; [| exact Hinv].
    destruct (sr_pending r) eqn:Hpend; [| exact Hinv].
    destruct (lookup_found id (requests p) r Hlook) as [Hin Hid].
    unfold searchingInvariant. cbn [session requests mounted].
    intros Hm. rewrite isSearching_resume. specialize (Hinv Hm).
    destruct (sr_isActive r) eqn:Hact.
    + split; [discriminate |].
      intros (r' & Hin' & Haw). exfalso.
      destruct (settled_member id (requests p) r' Hin')
        as (r0 & Hin0 & Hsame & [[_ Hp] | [Hne ->]]).
      * unfold awaited in Haw. rewrite Hp, andb_false_r in Haw. discriminate.
      * apply awaited_active in Haw.
        destruct (Hlive r0 Hin0 Haw) as (_ & _ & _ & _ & Hhd0).
        destruct (Hlive r Hin Hact) as (_ & _ & _ & _ & Hhd).
        rewrite Hhd in Hhd0. injection Hhd0 as <-. contradiction.
    + rewrite Hinv. split.
      * intros (r0 & Hin0 & Haw). exists r0. split; [| exact Haw].
        apply settled_keeps; [exact Hin0 |].
        intros Heq. pose proof (awaited_active r0 Haw) as Ha0.
        destruct (Hlive r0 Hin0 Ha0) as (_ & _ & _ & _ & Hhd0).
        rewrite (lookup_head id (requests p) r r0 Hhd0 Heq Hlook) in Hact.
        congruence.
      * intros (r' & Hin' & Haw).
        destruct (settled_member id (requests p) r' Hin')
          as (r0 & Hin0 & Hsame & [[_ Hp] | [Hne ->]]).
        -- unfold awaited in Haw. rewrite Hp, andb_false_r in Haw. discriminate.
        -- exists r0. auto.
  - destruct (mounted p) eqn:Hm; cbn [negb]; [| exact Hinv].
    unfold searchingInvariant. cbn [mounted]. discriminate.
Qed.

Lemma runEvents_searchingInvariant (evs : list UiEvent) (p : Page) :
  searchInvariant p -> searchingInvariant p -> searchingInvariant (runEvents p evs).
Proof.
  revert p. induction evs as [| ev evs IH]; intros p Hp Hs; [exact Hs |].
  simpl. apply IH; [apply step_invariant; exact Hp |].
  apply step_searchingInvariant; assumption.
Qed.

Lemma mount_searchingInvariant (initialTeiId programId currentOrgUnitId : string) :
  searchingInvariant (mount initialTeiId programId currentOrgUnitId).
Proof.
  intros _. split; [discriminate | intros (r & [] & _)].
Qed.

(** X16. On a mounted page the "Searching..." line is on screen exactly
    while the live request is unanswered; so the results list and the "No
    matching org units." line, which both wait for the line to go, are
    never shown while the live request is still awaited, and a superseded
    request that never answers cannot keep the line up. *)
Theorem searching_line_tracks_live_request
    (initialTeiId programId currentOrgUnitId : string) (evs : list UiEvent) :
  mounted (runEvents (mount initialTeiId programId currentOrgUnitId) evs) = true ->
  (showsSearching (session (runEvents (mount initialTeiId programId currentOrgUnitId) evs))
     = true <->
   exists r,
     In r (requests (runEvents (mount initialTeiId programId currentOrgUnitId) evs)) /\
     sr_isActive r = true /\ sr_pending r = true) /\
  ((showsResults (session (runEvents (mount initialTeiId programId currentOrgUnitId) evs))
      = true \/
    showsNoMatches (session (runEvents (mount initialTeiId programId currentOrgUnitId) evs))
      = true) ->
   forall r,
     In r (requests (runEvents (mount initialTeiId programId currentOrgUnitId) evs)) ->
     sr_isActive r = true -> sr_pending r = false).
Proof.
  intros Hm.
  assert (Hinv : searchingInvariant
                   (runEvents (mount initialTeiId programId currentOrgUnitId) evs)).
  { apply runEvents_searchingInvariant;
      [apply mount_invariant | apply mount_searchingInvariant]. }
  specialize (Hinv Hm). unfold showsSearching.
  assert (Hiff : isSearching
                   (session (runEvents (mount initialTeiId programId currentOrgUnitId) evs))
                 = true <->
                 exists r,
                   In r (requests
                           (runEvents (mount initialTeiId programId currentOrgUnitId) evs)) /\
                   sr_isActive r = true /\ sr_pending r = true).
  { rewrite Hinv. split; intros (r & Hin & H); exists r; split; try exact Hin.
    - unfold awaited in H. apply andb_true_iff in H. exact H.
    - unfold awaited. apply andb_true_iff. exact H. }
  split; [exact Hiff |].
  intros Hshown r Hin Ha. destruct (sr_pending r) eqn:Hp; [| reflexivity].
  assert (Hs : isSearching
                 (session (runEvents (mount initialTeiId programId currentOrgUnitId) evs))
               = true) by (apply Hiff; eauto).
  unfold showsResults, showsNoMatches in Hshown. rewrite Hs in Hshown.
  cbn [negb] in Hshown. rewrite !andb_false_r in Hshown.
  destruct Hshown; discriminate.
Qed.

Lemma searching_line_tracks_live_request_witness :
  mounted (runEvents (mount "T1" "P1" "OuA") supersedingEvents) = true /\
  (showsSearching (session (runEvents (mount "T1" "P1" "OuA") supersedingEvents)) = true <->
   exists r,
     In r (requests (runEvents (mount "T1" "P1" "OuA") supersedingEvents)) /\
     sr_isActive r = true /\ sr_pending r = true).
Proof.
  assert (Hm : mounted (runEvents (mount "T1" "P1" "OuA") supersedingEvents) = true)
    by (vm_compute; reflexivity).
  exact (conj Hm
           (proj1 (searching_line_tracks_live_request "T1" "P1" "OuA" supersedingEvents Hm))).
Defined.

(* ================================================================= *)
(** ** Teardown, footprint of the search, search after a pick *)

(** X17. After unmount nothing is written any more: in every reachable
    unmounted state no timeout is pending, and every later event, a late
    search response included, leaves the session, the timer and the
    requests sent as they are. *)
Theorem unmounted_page_is_frozen
    (initialTeiId programId currentOrgUnitId : string) (evs : list UiEvent) (ev : UiEvent) :
  let p := runEvents (mount initialTeiId programId currentOrgUnitId) evs in
  mounted p = false ->
  timer p = None /\
  session (step p ev) = session p /\
  timer (step p ev) = None /\
  mounted (step p ev) = false /\
  map sent (requests (step p ev)) = map sent (requests p).
Proof.
  intros p Hm.
  assert (Hinv : searchInvariant p) by (apply runEvents_invariant, mount_invariant).
  assert (Hdeb : debounceInvariant p)
    by (apply runEvents_debounceInvariant, mount_debounceInvariant).
  destruct Hinv as [_ Hlive]. destruct Hdeb as [Htimer _].
  assert (Ht : timer p = None).
  { destruct (timer p) as [value |] eqn:E; [| reflexivity].
    destruct (Htimer value eq_refl) as [_ H]. congruence. }
  split; [exact Ht |].
  destruct ev as [value | | orgUnit | selected id | value | id resp |]; cbn [step];
    rewrite ?Hm; cbn [negb]; try (repeat split; assumption).
  destruct (lookup id (requests p)) as [r |] eqn:Hlook; [| repeat split; assumption].
  destruct (sr_pending r); [| repeat split; assumption].
  destruct (lookup_found id (requests p) r Hlook) as [Hin _].
  assert (Ha : sr_isActive r = false).
  { destruct (sr_isActive r) eqn:Ha; [| reflexivity].
    destruct (Hlive r Hin Ha) as (Hm' & _). congruence. }
  cbn [session timer mounted requests]. rewrite Ha, loadSearchResults_resume_stale.
  split; [reflexivity |]. split; [exact Ht |]. split; [reflexivity |]. apply settled_sent.
Qed.

Lemma unmounted_page_is_frozen_witness :
  let p := runEvents (mount "T1" "P1" "OuA") [TypeSearch "ab"; DebounceFires; Unmount] in
  mounted p = false /\
  session (step p (SearchSettles 0 (Resolved (Some [clinicB])))) = session p.
Proof.
  cbv zeta.
  assert (Hm : mounted (runEvents (mount "T1" "P1" "OuA")
                          [TypeSearch "ab"; DebounceFires; Unmount]) = false)
    by (vm_compute; reflexivity).
  exact (conj Hm
           (proj1 (proj2 (unmounted_page_is_frozen "T1" "P1" "OuA"
                            [TypeSearch "ab"; DebounceFires; Unmount]
                            (SearchSettles 0 (Resolved (Some [clinicB]))) Hm)))).
Defined.

Lemma sameTransferState_refl (s : Session) : sameTransferState s s.
Proof. unfold sameTransferState. repeat split. Qed.

Lemma sameTransferState_trans (a b c : Session) :
  sameTransferState a b -> sameTransferState b c -> sameTransferState a c.
Proof.
  unfold sameTransferState.
  intros (A1 & A2 & A3 & A4 & A5 & A6 & A7 & A8 & A9)
         (B1 & B2 & B3 & B4 & B5 & B6 & B7 & B8 & B9).
  repeat split; congruence.
Qed.

Lemma step_sameTransferState (p : Page) (ev : UiEvent) :
  sameTransferState (session (step p ev)) (session p).
Proof.
  destruct ev as [value | | orgUnit | selected id | value | id resp |]; cbn [step].
  - destruct (mounted p); cbn [negb]; [| apply sameTransferState_refl].
    destruct (debounceEffect_same (searchText (session p))
                (withSession (setSearchText value) p)) as (_ & _ & _ & ->).
    unfold sameTransferState. repeat split.
  - destruct (mounted p); cbn [negb]; [| apply sameTransferState_refl].
    destruct (timer p) as [value |]; [| apply sameTransferState_refl].
    destruct (String.eqb value (debouncedSearchText (session p)));
      [apply sameTransferState_refl |].
    set (q := searchCleanup _).
    apply (sameTransferState_trans _ (session q)).
    + exact (proj2 (proj2 (proj2 (proj2 (proj2 (searchEffect_frame q)))))).
    + unfold q. rewrite searchCleanup_session. unfold sameTransferState. repeat split.
  - destruct (mounted p); cbn [negb]; [| apply sameTransferState_refl].
    destruct (debounceEffect_same (searchText (session p))
                (withSession (pickSearchResult orgUnit) p)) as (_ & _ & _ & ->).
    unfold sameTransferState. repeat split.
  - destruct (mounted p); cbn [negb]; [| apply sameTransferState_refl].
    unfold sameTransferState. repeat split.
  - destruct (mounted p); cbn [negb]; [| apply sameTransferState_refl].
    unfold sameTransferState. repeat split.
  - destruct (lookup id (requests p)) as [r |]; [| apply sameTransferState_refl].
    destruct (sr_pending r); [| apply sameTransferState_refl].
    cbn [session]. apply loadSearchResults_resume_frame.
  - destruct (mounted p); cbn [negb]; [| apply sameTransferState_refl].
    cbn [session]. rewrite searchCleanup_session. apply sameTransferState_refl.
Qed.

Lemma search_frame (p : Page) (evs : list UiEvent) :
  sameTransferState (session (runEvents p evs)) (session p).
Proof.
  revert p. induction evs as [| ev evs IH]; intros p; [apply sameTransferState_refl |].
  simpl. apply (sameTransferState_trans _ (session (step p ev)));
    [apply IH | apply step_sameTransferState].
Qed.

Lemma sameTransferContext_refl (s : Session) : sameTransferContext s s.
Proof. unfold sameTransferContext. repeat split. Qed.

Lemma sameTransferContext_trans (a b c : Session) :
  sameTransferContext a b -> sameTransferContext b c -> sameTransferContext a c.
Proof.
  unfold sameTransferContext.
  intros (-> & -> & -> & -> & -> & -> & ->) H. exact H.
Qed.

Lemma sameTransferState_context (a b : Session) :
  sameTransferState a b -> sameTransferContext a b.
Proof.
  unfold sameTransferState, sameTransferContext. tauto.
Qed.

Lemma act_sameTransferContext (p : Page) (a : Activity) :
  sameTransferContext (session (act p a)) (session p).
Proof.
  destruct a as [ev | | isActive r]; simpl.
  - apply sameTransferState_context, step_sameTransferState.
  - unfold loadOrgUnit_start.
    destruct (negb (Js.truthy_opt (selectedOuId (session p))));
      unfold sameTransferContext; repeat split.
  - unfold loadOrgUnit_resume.
    destruct r as [ou | error]; destruct (negb isActive);
      unfold sameTransferContext; repeat split.
Qed.

(** The events of [step] are the activities that leave the lookup out. *)
Lemma runActivities_ui (p : Page) (evs : list UiEvent) :
  runActivities p (map Ui evs) = runEvents p evs.
Proof.
  revert p. induction evs as [| ev evs IH]; intros p; [reflexivity |].
  simpl. apply IH.
Qed.

(** X18. Searching and selecting never touch the transfer: over any
    sequence of typing, timeouts, picks, tree changes, manual entries,
    search responses and unmount, with the lookup of the selected org unit
    starting and settling anywhere in between, the case and program
    context, the current org unit and its name, the status message, the
    tree error and the submitting flag stay as they were.  (The resolved
    org unit and the error message are what that lookup writes.) *)
Theorem search_and_selection_leave_transfer_state (p : Page) :
  (forall acts : list Activity,
     sameTransferContext (session (runActivities p acts)) (session p)) /\
  (forall evs : list UiEvent,
     sameTransferContext (session (runEvents p evs)) (session p)).
Proof.
  assert (H : forall (acts : list Activity) (q : Page),
            sameTransferContext (session (runActivities q acts)) (session q)).
  { induction acts as [| a acts IH]; intros q; [apply sameTransferContext_refl |].
    simpl. apply (sameTransferContext_trans _ (session (act q a)));
      [apply IH | apply act_sameTransferContext]. }
  split.
  - intros acts. apply H.
  - intros evs. rewrite <- runActivities_ui. apply H.
Qed.



(* ================================================================= *)
(** ** Background lookups and what they show *)

(** X20. The current-location finder asks only when a case id is known and
    no current org unit is; a rejected or superseded lookup, or a case with
    no org unit, changes nothing; a lookup that delivers an org unit makes
    it the current one, after which the finder asks no more and that org
    unit as destination is refused as unchanged. *)
Theorem current_location_finder (s : Session) :
  (currentOrgUnitQuery s = None <-> teiId s = "" \/ currentOuId s <> "") /\
  (forall isActive error, loadCurrentOrgUnit_resume isActive (Rejects error) s = s) /\
  (forall r, loadCurrentOrgUnit_resume false r s = s) /\
  loadCurrentOrgUnit_resume true (Fulfils None) s = s /\
  loadCurrentOrgUnit_resume true (Fulfils (Some "")) s = s /\
  (forall orgUnit,
     orgUnit <> "" ->
     currentOuId (loadCurrentOrgUnit_resume true (Fulfils (Some orgUnit)) s) = orgUnit /\
     currentOrgUnitQuery (loadCurrentOrgUnit_resume true (Fulfils (Some orgUnit)) s) = None /\
     (destinationOuId s = orgUnit ->
      showsUnchangedDestination
        (loadCurrentOrgUnit_resume true (Fulfils (Some orgUnit)) s) = true /\
      isTransferEnabled (loadCurrentOrgUnit_resume true (Fulfils (Some orgUnit)) s) = false)).
Proof.
  split; [| split; [| split; [| split; [| split]]]].
  - unfold currentOrgUnitQuery.
    destruct (Js.truthy (teiId s)) eqn:Ht, (Js.truthy (currentOuId s)) eqn:Hc; cbn;
      rewrite ?truthy_true_iff, ?truthy_false_iff in *; split; try discriminate; auto.
    intros [H | H]; contradiction.
  - reflexivity.
  - intros [orgUnit | error]; reflexivity.
  - reflexivity.
  - reflexivity.
  - intros orgUnit Hne.
    assert (Ht : Js.truthy orgUnit = true) by (apply truthy_true_iff; exact Hne).
    unfold loadCurrentOrgUnit_resume. cbn [negb Js.truthy_opt valueOf]. rewrite Ht.
    split; [reflexivity |]. split.
    + unfold currentOrgUnitQuery. cbn [currentOuId setCurrentOuId]. rewrite Ht.
      rewrite orb_true_r. reflexivity.
    + intros Hd.
      assert (Hsame : isSameOrgUnit (setCurrentOuId orgUnit s) = true).
      { apply isSameOrgUnit_true_iff. cbn. auto. }
      split; [exact Hsame |].
      unfold isTransferEnabled. rewrite Hsame. cbn [negb].
      rewrite andb_false_r. reflexivity.
Qed.

Lemma current_location_finder_witness :
  ("OuA" <> "" /\ destinationOuId unknownLocationSession = "OuA") /\
  isTransferEnabled unknownLocationSession = true /\
  isTransferEnabled
    (loadCurrentOrgUnit_resume true (Fulfils (Some "OuA")) unknownLocationSession) = false.
Proof.
  assert (Hne : "OuA" <> "") by discriminate.
  assert (Hd : destinationOuId unknownLocationSession = "OuA") by (vm_compute; reflexivity).
  assert (Hen : isTransferEnabled unknownLocationSession = true) by (vm_compute; reflexivity).
  pose proof (current_location_finder unknownLocationSession)
    as (_ & _ & _ & _ & _ & Hdeliver).
  exact (conj (conj Hne Hd)
           (conj Hen (proj2 (proj2 (proj2 (Hdeliver "OuA" Hne)) Hd)))).
Defined.

(** X21. The "From" label is never empty: it is the current org unit's
    name when one is known, else its id, else "Unknown org unit".  A name
    lookup that is rejected, or that delivers an empty name, falls back to
    the id; with no current org unit no lookup is sent and the label reads
    "Unknown org unit". *)
Theorem description_label_falls_back (s : Session) :
  descriptionLabel s <> "" /\
  (forall error,
     currentOuId s <> "" ->
     descriptionLabel (loadCurrentOrgUnitName_resume true (Rejects error) s)
       = currentOuId s) /\
  (forall orgUnit,
     descriptionLabel (loadCurrentOrgUnitName_resume true (Fulfils orgUnit) s)
     = if Js.truthy (ou_displayName orgUnit) then ou_displayName orgUnit
       else if Js.truthy (currentOuId s) then currentOuId s
            else "Unknown org unit") /\
  (forall r, loadCurrentOrgUnitName_resume false r s = s) /\
  (currentOuId s = "" ->
   currentOrgUnitNameQuery s = None /\
   descriptionLabel (currentOrgUnitNameEffect s) = "Unknown org unit").
Proof.
  split; [| split; [| split; [| split]]].
  - unfold descriptionLabel.
    destruct (currentOuName s) as [[| c name] |]; cbn;
      destruct (currentOuId s) as [| c' id]; cbn; discriminate.
  - intros error Hc. apply truthy_true_iff in Hc.
    unfold descriptionLabel. cbn. rewrite Hc. reflexivity.
  - intros orgUnit. unfold descriptionLabel, loadCurrentOrgUnitName_resume.
    cbn [negb]. destruct (ou_displayName orgUnit) as [| c name]; reflexivity.
  - intros [orgUnit | error]; reflexivity.
  - intros Hc. unfold currentOrgUnitNameQuery, currentOrgUnitNameEffect, descriptionLabel.
    rewrite Hc. cbn [negb Js.truthy Js.truthy_opt currentOuName currentOuId setCurrentOuName].
    rewrite Hc. split; reflexivity.
Qed.

Lemma description_label_falls_back_witness :
  currentOuId readySession <> "" /\
  descriptionLabel (loadCurrentOrgUnitName_resume true (Rejects conflict) readySession)
    = currentOuId readySession.
Proof.
  assert (Hc : currentOuId readySession <> "") by (vm_compute; discriminate).
  exact (conj Hc
           (proj1 (proj2 (description_label_falls_back readySession)) conflict Hc)).
Defined.

(** X22. The lookup of the selected org unit never moves the Transfer
    button or the destination.  With nothing selected it sends no query and
    clears the resolved org unit; when it is rejected while still live, the
    rejection's mapped message becomes the error message, so that the
    "Transfer failed" notice is raised although no transfer ran; rejected
    after being superseded, it changes nothing. *)
Theorem selected_org_unit_lookup (s : Session) :
  (forall isActive r,
     isTransferEnabled (loadOrgUnit_resume isActive r s) = isTransferEnabled s /\
     destinationOuId (loadOrgUnit_resume isActive r s) = destinationOuId s) /\
  (selectedOrgUnitQuery s = None <-> selectedOuId s = None \/ selectedOuId s = Some "") /\
  (selectedOrgUnitQuery s = None -> selectedOu (loadOrgUnit_start s) = None) /\
  (forall error,
     errorMessage (loadOrgUnit_resume true (Rejects error) s)
       = Some (getValidationMessage error) /\
     (isSubmitting s = false ->
      phase (loadOrgUnit_resume true (Rejects error) s) = Failed)) /\
  (forall r, loadOrgUnit_resume false r s = s).
Proof.
  split; [| split; [| split; [| split]]].
  - intros [|] [ou | error]; split; reflexivity.
  - unfold selectedOrgUnitQuery.
    destruct (selectedOuId s) as [[| c id] |]; cbn; split; try discriminate; auto.
    intros [H | H]; discriminate.
  - unfold selectedOrgUnitQuery, loadOrgUnit_start.
    destruct (negb (Js.truthy_opt (selectedOuId s))); [reflexivity | discriminate].
  - intros error. split; [reflexivity |].
    intros Hs. unfold phase. cbn. rewrite Hs, getValidationMessage_truthy. reflexivity.
  - intros [ou | error]; reflexivity.
Qed.

Lemma selected_org_unit_lookup_witness :
  isSubmitting readySession = false /\
  phase (loadOrgUnit_resume true (Rejects conflict) readySession) = Failed /\
  isTransferEnabled (loadOrgUnit_resume true (Rejects conflict) readySession) = true.
Proof.
  assert (Hs : isSubmitting readySession = false) by (vm_compute; reflexivity).
  assert (Hen : isTransferEnabled readySession = true) by (vm_compute; reflexivity).
  pose proof (selected_org_unit_lookup readySession) as (Hsame & _ & _ & Hrej & _).
  exact (conj Hs
           (conj (proj2 (Hrej conflict) Hs)
              (eq_trans (proj1 (Hsame true (Rejects conflict))) Hen))).
Defined.

(** X23. Once the org unit tree has failed to render, manual entry stays:
    the error boundary's message makes the destination area the manual
    input whatever roots were loaded, no search or selection event clears
    it, and neither does a transfer. *)
Theorem tree_failure_keeps_manual_entry
    (World : Type) (engine : forall R : Type, Call R -> World -> (JsError + R) * World)
    (w : World) (p : Page) (evs : list UiEvent) (roots : list string) :
  destinationArea (treeCrashes (session p)) roots = ManualEntryInput /\
  (destinationArea (session p) roots = ManualEntryInput ->
   destinationArea (session (runEvents p evs)) roots = ManualEntryInput /\
   destinationArea
     (out_session (fst (run World engine (transferButton (session p)) (session p) w)))
     roots = ManualEntryInput).
Proof.
  split; [reflexivity |].
  unfold destinationArea. intros Harea.
  assert (Htree : Js.truthy_opt (treeError (session p)) = true).
  { destruct (Js.truthy_opt (treeError (session p))); [reflexivity |].
    destruct (List.length roots =? 0)%nat; discriminate. }
  split.
  - destruct (search_frame p evs) as (_ & _ & _ & _ & _ & _ & _ & -> & _).
    rewrite Htree. reflexivity.
  - unfold transferButton. destruct (isTransferEnabled (session p)).
    + destruct (transfer_frame World engine w UPDATE_ENROLLMENT_ORGUNIT (session p))
        as (_ & _ & _ & _ & _ & _ & _ & H & _).
      unfold handleTransfer. rewrite H, Htree. reflexivity.
    + cbn. rewrite Htree. reflexivity.
Qed.

Lemma tree_failure_keeps_manual_entry_witness :
  let p := {| session := treeCrashes readySession; mounted := true; timer := None;
              requests := []; cleanup := None |} in
  destinationArea (session p) ["Root1"] = ManualEntryInput /\
  destinationArea (session (runEvents p [ManualEntry "OuB"; TypeSearch "ab"])) ["Root1"]
    = ManualEntryInput.
Proof.
  cbv zeta.
  assert (H : destinationArea
                (session {| session := treeCrashes readySession; mounted := true;
                            timer := None; requests := []; cleanup := None |})
                ["Root1"] = ManualEntryInput) by (vm_compute; reflexivity).
  exact (conj H
           (proj1 (proj2 (tree_failure_keeps_manual_entry (list Scripted) scriptedEngine []
                            {| session := treeCrashes readySession; mounted := true;
                               timer := None; requests := []; cleanup := None |}
                            [ManualEntry "OuB"; TypeSearch "ab"] ["Root1"]) H))).
Defined.

(* ================================================================= *)
(** ** Error mapping and the retry test *)



Lemma append_assoc (a b c : string) : (a ++ b) ++ c = a ++ (b ++ c).
Proof. induction a as [| x a IH]; simpl; [reflexivity | rewrite IH; reflexivity]. Qed.

Lemma occursIn_prefix (a b text : string) : occursIn (a ++ b) text -> occursIn a text.
Proof.
  intros (pre & post & ->). exists pre, (b ++ post). rewrite append_assoc. reflexivity.
Qed.

(** X25. The retry test never fires without a 4xx status, whatever the
    message says; it reads the server's message before the error's own, so
    with a non-empty server message the error's own message is ignored; and
    because "trackedEntityInstance" contains "trackedEntity", a rejection
    that passes the test for the second parameter name also passes it for
    the first. *)
Theorem retry_test_edges (error : JsError) (paramName : string) :
  (isUnknownParamError NotAnObject paramName = false) /\
  ((forall status, error_status error = Some status -> (400 <= status < 500)%Z -> False) ->
   isUnknownParamError error paramName = false) /\
  (forall message message' details,
     Js.truthy_opt (error_responseMessage (ErrorObject message details)) = true ->
     isUnknownParamError (ErrorObject message details) paramName
     = isUnknownParamError (ErrorObject message' details) paramName) /\
  (isUnknownParamError error "trackedEntityInstance" = true ->
   isUnknownParamError error "trackedEntity" = true).
Proof.
  split; [reflexivity |]. split; [| split].
  - intros Hout. destruct (isUnknownParamError error paramName) eqn:E; [| reflexivity].
    apply isUnknownParamError_iff in E. destruct E as [(status & Hs & Hrange) _].
    exfalso. exact (Hout status Hs Hrange).
  - intros message message' details Hr.
    unfold isUnknownParamError.
    assert (Hmsg : getValidationMessage (ErrorObject message details)
                   = getValidationMessage (ErrorObject message' details)).
    { unfold getValidationMessage.
      change (error_responseMessage (ErrorObject message' details))
        with (error_responseMessage (ErrorObject message details)).
      rewrite Hr. reflexivity. }
    rewrite Hmsg. reflexivity.
  - rewrite !isUnknownParamError_iff. unfold unknownParameterRejection.
    intros [Hstatus [H | [Hp Hname]]]; split; auto.
    right. split; [exact Hp |].
    unfold occursIgnoringCase in *.
    change (Js.toLowerCase "trackedEntityInstance")
      with (Js.toLowerCase "trackedEntity" ++ "instance") in Hname.
    exact (occursIn_prefix _ _ _ Hname).
Qed.

Lemma retry_test_edges_witness :
  let e := httpError 400 "Invalid parameter: trackedEntityInstance" in
  isUnknownParamError e "trackedEntityInstance" = true /\
  isUnknownParamError e "trackedEntity" = true.
Proof.
  cbv zeta.
  assert (H : isUnknownParamError (httpError 400 "Invalid parameter: trackedEntityInstance")
                "trackedEntityInstance" = true) by (vm_compute; reflexivity).
  exact (conj H
           (proj2 (proj2 (proj2 (retry_test_edges
                                   (httpError 400 "Invalid parameter: trackedEntityInstance")
                                   "trackedEntityInstance"))) H)).
Defined.

(* ================================================================= *)
(** ** Roots, live responses, the host's current org unit *)

Lemma roots_members (entries : list (option RootEntry)) (id : string) :
  In id (roots (Some entries)) <-> In (Some {| re_id := Some id |}) entries.
Proof.
  unfold roots. rewrite in_map_iff. split.
  - intros (entry & Hid & Hin). apply filter_In in Hin. destruct Hin as [Hin Hroot].
    destruct entry as [[[id' |]] |]; try discriminate.
    cbn in Hid. subst id'. exact Hin.
  - intros Hin. exists (Some {| re_id := Some id |}). split; [reflexivity |].
    apply filter_In. split; [exact Hin | reflexivity].
Qed.

(** X26. The tree's roots are exactly the ids of the entries that are
    objects with a string id, no more than there are entries, and none when
    the reply holds no array.  With no tree error the tree is rendered
    exactly when there is such an entry; otherwise the notice stands in its
    place and no manual input is offered. *)
Theorem roots_come_from_valid_entries
    (orgUnits : option (list (option RootEntry))) (s : Session) :
  roots None = [] /\
  (forall entries id,
     In id (roots (Some entries)) <-> In (Some {| re_id := Some id |}) entries) /\
  (forall entries, List.length (roots (Some entries)) <= List.length entries) /\
  (Js.truthy_opt (treeError s) = false ->
   (destinationArea s (roots orgUnits) = TreeWidget <->
    exists entries id,
      orgUnits = Some entries /\ In (Some {| re_id := Some id |}) entries) /\
   destinationArea s (roots orgUnits) <> ManualEntryInput).
Proof.
  split; [reflexivity |]. split; [exact roots_members |]. split.
  - intros entries. unfold roots. rewrite length_map. apply filter_length_le.
  - intros Htree. unfold destinationArea. rewrite Htree. split.
    + split.
      * intros Harea. destruct orgUnits as [entries |]; [| discriminate].
        destruct (roots (Some entries)) as [| id ids] eqn:E; [discriminate |].
        exists entries, id. split; [reflexivity |].
        apply roots_members. rewrite E. left. reflexivity.
      * intros (entries & id & -> & Hin). apply roots_members in Hin.
        destruct (roots (Some entries)); [destruct Hin | reflexivity].
    + destruct (List.length (roots orgUnits) =? 0)%nat; discriminate.
Qed.

Lemma roots_come_from_valid_entries_witness :
  Js.truthy_opt (treeError readySession) = false /\
  destinationArea readySession
    (roots (Some [None; Some {| re_id := None |}])) <> ManualEntryInput.
Proof.
  assert (H : Js.truthy_opt (treeError readySession) = false) by (vm_compute; reflexivity).
  exact (conj H
           (proj2 (proj2 (proj2 (proj2 (roots_come_from_valid_entries
                                          (Some [None; Some {| re_id := None |}])
                                          readySession))) H))).
Defined.

Lemma lookup_settled (id : nat) (rs : list SearchRequest) (r : SearchRequest) :
  lookup id rs = Some r ->
  exists r', lookup id (settled id rs) = Some r' /\ sr_pending r' = false.
Proof.
  unfold lookup, settled. induction rs as [| x rs IH]; simpl; [discriminate |].
  destruct (Nat.eqb (sr_id x) id) eqn:E.
  - intros _. cbn [sr_id]. rewrite E. eexists. split; reflexivity.
  - rewrite E. exact IH.
Qed.

(** X27. The response of a request that is live and unanswered commits: an
    array becomes the results, anything else gives no results, a rejection
    gives no results and the message "Failed to search org units."; in each
    case the searching flag goes down and the search text, typed and
    debounced, is kept.  The request is then settled: the same response
    arriving again changes nothing. *)
Theorem live_search_response_commits_once
    (p : Page) (id : nat) (resp : SearchResponse) (r : SearchRequest) :
  lookup id (requests p) = Some r ->
  sr_isActive r = true -> sr_pending r = true ->
  searchState (session (step p (SearchSettles id resp)))
  = match resp with
    | Resolved (Some orgUnits) => (orgUnits, searchError (session p), false)
    | Resolved None => ([], searchError (session p), false)
    | Rejected _ => ([], Some "Failed to search org units.", false)
    end /\
  searchText (session (step p (SearchSettles id resp))) = searchText (session p) /\
  debouncedSearchText (session (step p (SearchSettles id resp)))
    = debouncedSearchText (session p) /\
  forall resp',
    step (step p (SearchSettles id resp)) (SearchSettles id resp')
    = step p (SearchSettles id resp).
Proof.
  intros Hlook Ha Hp.
  assert (Hstep : step p (SearchSettles id resp) =
                  {| session := loadSearchResults_resume true resp (session p);
                     mounted := mounted p; timer := timer p;
                     requests := settled id (requests p); cleanup := cleanup p |}).
  { cbn [step]. rewrite Hlook, Hp, Ha. reflexivity. }
  rewrite Hstep. cbn [session].
  split; [destruct resp as [[orgUnits |] | e]; reflexivity |].
  split; [destruct resp as [[orgUnits |] | e]; reflexivity |].
  split; [destruct resp as [[orgUnits |] | e]; reflexivity |].
  intros resp'. cbn [step requests].
  destruct (lookup_settled id (requests p) r Hlook) as (r' & -> & ->). reflexivity.
Qed.

Lemma live_search_response_commits_once_witness :
  let r := {| sr_id := 0; sr_owner := "ab"; sr_filter := "ab";
              sr_isActive := true; sr_pending := true |} in
  (lookup 0 (requests livePage) = Some r /\
   sr_isActive r = true /\ sr_pending r = true) /\
  searchState (session (step livePage (SearchSettles 0 (Rejected conflict))))
  = ([], Some "Failed to search org units.", false).
Proof.
  cbv zeta.
  assert (Hlook : lookup 0 (requests livePage)
                  = Some {| sr_id := 0; sr_owner := "ab"; sr_filter := "ab";
                            sr_isActive := true; sr_pending := true |})
    by (vm_compute; reflexivity).
  exact (conj (conj Hlook (conj eq_refl eq_refl))
           (proj1 (live_search_response_commits_once livePage 0 (Rejected conflict) _
                     Hlook eq_refl eq_refl))).
Defined.

(** X28. A current org unit supplied by the host wins and stops the finder;
    an empty one from the host never erases a current org unit already
    known. *)
Theorem host_current_org_unit (initialTeiId programId currentOrgUnitId : string)
    (s : Session) :
  (currentOrgUnitId <> "" ->
   currentOuId (syncCurrentOrgUnit currentOrgUnitId s) = currentOrgUnitId /\
   currentOrgUnitQuery (syncCurrentOrgUnit currentOrgUnitId s) = None) /\
  syncCurrentOrgUnit "" s = s /\
  (currentOrgUnitQuery (initialSession initialTeiId programId currentOrgUnitId) = None <->
   initialTeiId = "" \/ currentOrgUnitId <> "").
Proof.
  split; [| split].
  - intros Hne. apply truthy_true_iff in Hne.
    unfold syncCurrentOrgUnit, currentOrgUnitQuery. rewrite Hne.
    cbn [currentOuId setCurrentOuId]. rewrite Hne, orb_true_r. split; reflexivity.
  - reflexivity.
  - unfold currentOrgUnitQuery. cbn [teiId currentOuId initialSession].
    destruct (Js.truthy initialTeiId) eqn:Ht, (Js.truthy currentOrgUnitId) eqn:Hc; cbn;
      rewrite ?truthy_true_iff, ?truthy_false_iff in *; split; try discriminate; auto.
    intros [H | H]; contradiction.
Qed.

Lemma host_current_org_unit_witness :
  "OuC" <> "" /\
  currentOuId (syncCurrentOrgUnit "OuC" readySession) = "OuC".
Proof.
  assert (H : "OuC" <> "") by discriminate.
  exact (conj H (proj1 (proj1 (host_current_org_unit "T1" "P1" "OuC" readySession) H))).
Defined.
